(** * factorio_llm: protocol bridge and tool-calling loop

    A shallow embedding of the decision logic of
    [src/rcon_wrapper.py], [src/factorio_tools.py],
    [src/factorio_agent.py] and the history file of [src/chat.py],
    with the properties of the design document stated and settled
    against it.

    Conventions of the embedding.
    - A Python [str] is a list of characters ([str := list ascii]);
      code points above 255 are outside the model.
    - A Python call that may raise returns a [result]: [Ok v] or
      [Raise e], where [e] carries the exception class name and its
      message ([type(e).__name__] and [str(e)]).
    - The regular expressions of the source are embedded as anchored
      matchers (what the pattern matches at the current position) and
      driven by [re.search] / [re.findall], which try the positions
      from left to right as Python's [re] module does.
    - Library functions the source calls but does not define
      ([float], [round], [json.loads], [json.dumps], the RCON client,
      the chat backend) are parameters of the sections that use them;
      where the source catches some of their exceptions and not
      others, they return the exception they raise.
    - [int] is embedded for texts of any length: the limit the
      interpreter puts on the number of digits it converts (4300 by
      default, and configurable) is not modelled. *)

From Stdlib Require Import Ascii String ZArith Lia Bool Arith.
From Stdlib Require Import Numbers.DecimalString.
From Stdlib Require Import List.
From Stdlib Require Import Sorting.Sorted Sorting.Permutation.
Import ListNotations.

Set Implicit Arguments.
Set Warnings "-register-all".

(** ** Python strings *)

Definition str := list ascii.

(** A string literal of the source. *)
Definition py (s : string) : str := list_ascii_of_string s.

Definition chr_eqb (a b : ascii) : bool := Ascii.eqb a b.

Fixpoint str_eqb (a b : str) : bool :=
  match a, b with
  | [], [] => true
  | x :: a', y :: b' => chr_eqb x y && str_eqb a' b'
  | _, _ => false
  end.

(** [str(n)] for a Python [int]. *)
Definition str_of_int (n : Z) : str :=
  py (NilZero.string_of_int (Z.to_int n)).

(** ** Character classes of [re] on [str] patterns *)

Definition code (c : ascii) : nat := nat_of_ascii c.

(** [\s]: the characters for which [str.isspace()] holds. *)
Definition is_space (c : ascii) : bool :=
  let n := code c in
  ((9 <=? n) && (n <=? 13)) || ((28 <=? n) && (n <=? 32))
  || (n =? 133) || (n =? 160).

(** [\d]: decimal digits. *)
Definition is_digit (c : ascii) : bool :=
  let n := code c in (48 <=? n) && (n <=? 57).

(** [\w]: alphanumerics (as [str.isalnum()]) and the underscore. *)
Definition is_word (c : ascii) : bool :=
  let n := code c in
  is_digit c
  || ((65 <=? n) && (n <=? 90)) || ((97 <=? n) && (n <=? 122))
  || (n =? 95)
  || (n =? 170) || (n =? 178) || (n =? 179) || (n =? 181)
  || (n =? 185) || (n =? 186) || ((188 <=? n) && (n <=? 190))
  || ((192 <=? n) && (n <=? 214)) || ((216 <=? n) && (n <=? 246))
  || (248 <=? n).

(** [[-\d.]]: the character set of the numeric captures. *)
Definition is_num_char (c : ascii) : bool :=
  chr_eqb c "-" || is_digit c || chr_eqb c ".".

(** The double-quote character. *)
Definition dq : ascii := ascii_of_nat 34.

Definition is_quote (c : ascii) : bool := chr_eqb c dq.
Definition is_lbrace (c : ascii) : bool := chr_eqb c "{".
Definition is_rbrace (c : ascii) : bool := chr_eqb c "}".
Definition not_rbrace (c : ascii) : bool := negb (is_rbrace c).

(** ** Exceptions and results *)

Record exn := mk_exn { exn_kind : str; exn_msg : str }.

Inductive result (A : Type) : Type :=
| Ok (a : A)
| Raise (e : exn).
Arguments Ok {A} a.
Arguments Raise {A} e.

Definition bind {A B} (r : result A) (k : A -> result B) : result B :=
  match r with
  | Ok a => k a
  | Raise e => Raise e
  end.

Declare Scope result_scope.
Delimit Scope result_scope with result.
Notation "x <- r ;; k" := (bind r (fun x => k))
  (at level 61, r at next level, right associativity) : result_scope.
Open Scope result_scope.

(** ** The [re] module, as far as the source uses it *)

Module re.

(** What a pattern matches when anchored at the head of [s]: the
    captured text and the input left after the match. *)
Definition matcher (G : Type) := str -> option (G * str).

(** Longest prefix of characters in a class (a greedy [c*]). *)
Fixpoint take_while (p : ascii -> bool) (s : str) : str :=
  match s with
  | c :: t => if p c then c :: take_while p t else []
  | [] => []
  end.

Fixpoint drop_while (p : ascii -> bool) (s : str) : str :=
  match s with
  | c :: t => if p c then drop_while p t else s
  | [] => []
  end.

(** A literal piece of a pattern. *)
Fixpoint lit (l s : str) : option str :=
  match l, s with
  | [], _ => Some s
  | a :: l', c :: t => if chr_eqb a c then lit l' t else None
  | _ :: _, [] => None
  end.

(** [re.search]: the match at the leftmost position that has one. *)
Fixpoint search {G} (m : matcher G) (s : str) : option G :=
  match m s with
  | Some (g, _) => Some g
  | None => match s with
            | [] => None
            | _ :: t => search m t
            end
  end.

(** [re.findall]: the matches from left to right, each search
    resuming where the previous match ended.  None of the patterns
    of the source matches the empty string, so every match consumes
    input and [fuel] bounds the number of positions tried. *)
Fixpoint findall_from {G} (m : matcher G) (fuel : nat) (s : str)
  : list G :=
  match fuel with
  | O => []
  | S fuel' =>
      match m s with
      | Some (g, rest) => g :: findall_from m fuel' rest
      | None => match s with
                | [] => []
                | _ :: t => findall_from m fuel' t
                end
      end
  end.

Definition findall {G} (m : matcher G) (s : str) : list G :=
  findall_from m (S (length s)) s.

(** A matcher consumes input when what it leaves is shorter than
    what it was given. *)
Definition consuming {G} (m : matcher G) : Prop :=
  forall s g r, m s = Some (g, r) -> length r < length s.

End re.

(** ** Patterns of [factorio_tools.py] *)

Module Patterns.
Import re.

(** [r'\{[^}]+\}'], whole match. *)
Definition block_re : matcher str := fun s =>
  match s with
  | c :: t =>
      if is_lbrace c then
        let body := take_while (fun c => negb (is_rbrace c)) t in
        match body, drop_while (fun c => negb (is_rbrace c)) t with
        | _ :: _, r :: rest =>
            if is_rbrace r then Some (c :: body ++ [r], rest) else None
        | _, _ => None
        end
      else None
  | [] => None
  end.

(** [key\s*=\s*Q([^Q]+)Q], group 1, where [Q] stands for the
    double-quote character. *)
Definition quoted_field_re (key : str) : matcher str := fun s =>
  match lit key s with
  | Some s1 =>
      match drop_while is_space s1 with
      | e :: s2 =>
          if chr_eqb e "=" then
            match drop_while is_space s2 with
            | q :: s3 =>
                if is_quote q then
                  let v := take_while (fun c => negb (is_quote c)) s3 in
                  match v, drop_while (fun c => negb (is_quote c)) s3 with
                  | _ :: _, q' :: rest =>
                      if is_quote q' then Some (v, rest) else None
                  | _, _ => None
                  end
                else None
            | [] => None
            end
          else None
      | [] => None
      end
  | None => None
  end.

(** [key\s*=\s*([-\d.]+)], group 1. *)
Definition number_field_re (key : str) : matcher str := fun s =>
  match lit key s with
  | Some s1 =>
      match drop_while is_space s1 with
      | e :: s2 =>
          if chr_eqb e "=" then
            let s3 := drop_while is_space s2 in
            match take_while is_num_char s3 with
            | (_ :: _) as v => Some (v, drop_while is_num_char s3)
            | [] => None
            end
          else None
      | [] => None
      end
  | None => None
  end.

(** [r'\{count\s*=\s*(\d+),\s*name\s*=\s*Q([^Q]+)Q\}'], groups 1
    and 2 ([Q] the double-quote character). *)
Definition inventory_re : matcher (str * str) := fun s =>
  match lit (py "{count") s with
  | Some s1 =>
      match drop_while is_space s1 with
      | e :: s2 =>
          if chr_eqb e "=" then
            let s3 := drop_while is_space s2 in
            match take_while is_digit s3 with
            | (_ :: _) as count =>
                match lit (py ",") (drop_while is_digit s3) with
                | Some s4 =>
                    match lit (py "name") (drop_while is_space s4) with
                    | Some s5 =>
                        match drop_while is_space s5 with
                        | e' :: s6 =>
                            if chr_eqb e' "=" then
                              match lit [dq] (drop_while is_space s6) with
                              | Some s7 =>
                                  let name :=
                                    take_while (fun c => negb (is_quote c)) s7 in
                                  match name with
                                  | _ :: _ =>
                                      match lit (dq :: py "}")
                                              (drop_while
                                                 (fun c => negb (is_quote c)) s7)
                                      with
                                      | Some rest => Some ((count, name), rest)
                                      | None => None
                                      end
                                  | [] => None
                                  end
                              | None => None
                              end
                            else None
                        | [] => None
                        end
                    | None => None
                    end
                | None => None
                end
            | [] => None
            end
          else None
      | [] => None
      end
  | None => None
  end.

End Patterns.

(** ** Python values *)

(** Floating-point numbers are kept abstract: the source only reads
    them with [float], rounds them with [round(_, 1)] and prints
    them. *)
Class Floats := {
  pyfloat : Type;
  (** [float(s)]; [None] when it raises [ValueError]. *)
  float_of_str : str -> option pyfloat;
  (** [round(f, 1)]. *)
  round1 : pyfloat -> pyfloat;
  (** [f"{f:.1f}"]. *)
  format_1f : pyfloat -> str;
  (** [str(f)]. *)
  str_of_float : pyfloat -> str
}.

Section Values.
Context `{Floats}.

(** The values the tools hand to the dispatcher.  [VData] is an
    instance of one of the dataclasses, with its fields in
    declaration order; [VDict] is a [dict] in insertion order. *)
Inductive value : Type :=
| VNone
| VBool (b : bool)
| VInt (n : Z)
| VFloat (f : pyfloat)
| VStr (s : str)
| VList (l : list value)
| VDict (d : list (str * value))
| VData (cls : str) (fields : list (str * value)).

(** [d.get(key)] / [key in d] on an insertion-ordered dict. *)
Fixpoint dict_get (d : list (str * value)) (key : str) : option value :=
  match d with
  | [] => None
  | (k, v) :: d' => if str_eqb k key then Some v else dict_get d' key
  end.

(** [float(s)] on a capture of [[-\d.]+]: the message quotes the
    text with [repr], which for these characters is the text
    between single quotes. *)
Definition py_float (s : str) : result pyfloat :=
  match float_of_str s with
  | Some f => Ok f
  | None =>
      Raise (mk_exn (py "ValueError")
               (py "could not convert string to float: '" ++ s ++ py "'"))
  end.

End Values.

(** [int(s)] on a capture of [\d+] (the interpreter's limit on the
    number of digits is not modelled). *)
Definition digit_val (c : ascii) : Z := Z.of_nat (code c - 48).

Definition int_of_digits (s : str) : Z :=
  fold_left (fun acc c => (10 * acc + digit_val c)%Z) s 0%Z.

(** [s.strip()]. *)
Definition strip (s : str) : str :=
  rev (re.drop_while is_space (rev (re.drop_while is_space s))).

(** The digits of an integer literal as [int] reads them: groups of
    digits separated by single underscores. *)
Fixpoint int_digits (s : str) (acc : Z) (after_digit : bool) : option Z :=
  match s with
  | [] => if after_digit then Some acc else None
  | c :: t =>
      if is_digit c then int_digits t (10 * acc + digit_val c)%Z true
      else if chr_eqb c "_" then
             if after_digit then int_digits t acc false else None
           else None
  end.

(** The white space [int] skips around a literal: the six ASCII
    characters of C's [isspace] and, of the others, those that
    [str.isspace] holds (they are turned into spaces first).  The
    separators U+001C to U+001F, which [str.strip] removes, are not
    among them. *)
Definition is_int_space (c : ascii) : bool :=
  let n := code c in
  ((9 <=? n) && (n <=? 13)) || (n =? 32) || (n =? 133) || (n =? 160).

Definition int_strip (s : str) : str :=
  rev (re.drop_while is_int_space (rev (re.drop_while is_int_space s))).

(** [int(s)] for a [str]: surrounding white space and a sign are
    accepted; anything else raises [ValueError], whose message quotes
    the text with [repr] (written here for texts that [repr] leaves
    as they are between single quotes). *)
Definition py_int (s : str) : result Z :=
  let body := int_strip s in
  let parsed :=
    match body with
    | c :: t =>
        if chr_eqb c "-" then option_map Z.opp (int_digits t 0%Z false)
        else if chr_eqb c "+" then int_digits t 0%Z false
             else int_digits body 0%Z false
    | [] => None
    end in
  match parsed with
  | Some n => Ok n
  | None =>
      Raise (mk_exn (py "ValueError")
               (py "invalid literal for int() with base 10: '" ++ s
                  ++ py "'"))
  end.

(** ** State and exceptions *)

(** A method that reads and updates a state [S] and may raise: the
    state is returned in both cases, since the source assigns to
    attributes before it raises. *)
Definition M (S A : Type) : Type := S -> result A * S.

Definition ret {S A} (a : A) : M S A := fun s => (Ok a, s).

Definition throw {S A} (e : exn) : M S A := fun s => (Raise e, s).

Definition mbind {S A B} (m : M S A) (k : A -> M S B) : M S B :=
  fun s =>
    match m s with
    | (Ok a, s') => k a s'
    | (Raise e, s') => (Raise e, s')
    end.

(** [try: m  except Exception as e: h e]. *)
Definition try_except {S A} (m : M S A) (h : exn -> M S A) : M S A :=
  fun s =>
    match m s with
    | (Ok a, s') => (Ok a, s')
    | (Raise e, s') => h e s'
    end.

(** A computation without effect on the state. *)
Definition lift {S A} (r : result A) : M S A := fun s => (r, s).

Notation "x <~ m ;; k" := (mbind m (fun x => k))
  (at level 61, m at next level, right associativity) : result_scope.

(** ** [rcon_wrapper.py] *)

(** The remote console library ([factorio_rcon.RCONClient]) and the
    process behind it. *)
Class Channel := {
  (** A live session. *)
  client : Type;
  (** The remote process and the link to it. *)
  remote : Type;
  (** [RCONClient(host, port, password)]. *)
  client_new : str -> Z -> str -> M remote client;
  (** [client.send_command(command)]: the reply, or [None]. *)
  client_send : client -> str -> M remote (option str);
  (** [client.close()]. *)
  client_close : client -> M remote unit
}.

Module RCONWrapper.
Section Wrapper.
Context `{Channel}.

Record t := mk {
  host : str;
  port : Z;
  password : str;
  _client : option client
}.

(** The wrapper together with what it talks to. *)
Definition state : Type := (t * remote)%type.

Definition set_client (self : t) (c : option client) : t :=
  mk (host self) (port self) (password self) c.

Definition ConnectionError (msg : str) : exn :=
  mk_exn (py "ConnectionError") msg.

Definition CommandError (msg : str) : exn :=
  mk_exn (py "CommandError") msg.

Definition connected (self : t) : bool :=
  match _client self with
  | Some _ => true
  | None => false
  end.

Definition connect : M state unit := fun '(self, r) =>
  match _client self with
  | Some _ => (Ok tt, (self, r))
  | None =>
      match client_new (host self) (port self) (password self) r with
      | (Ok c, r') => (Ok tt, (set_client self (Some c), r'))
      | (Raise e, r') =>
          (Raise (ConnectionError
                    (py "Failed to connect to " ++ host self ++ py ":"
                       ++ str_of_int (port self) ++ py ": " ++ exn_msg e)),
           (self, r'))
      end
  end.

Definition disconnect : M state unit := fun '(self, r) =>
  match _client self with
  | Some c =>
      let '(_, r') := client_close c r in
      (Ok tt, (set_client self None, r'))
  | None => (Ok tt, (self, r))
  end.

Definition send_command (command : str) : M state (option str) :=
  fun '(self, r) =>
    match _client self with
    | None => (Raise (ConnectionError (py "Not connected to server")),
               (self, r))
    | Some c =>
        match client_send c command r with
        | (Ok result, r') =>
            (Ok match result with
                | Some ((_ :: _) as text) => Some text
                | _ => None
                end,
             (self, r'))
        | (Raise e, r') =>
            (Raise (ConnectionError (py "Connection lost: " ++ exn_msg e)),
             (set_client self None, r'))
        end
    end.

(** ASCII lower case, for [re.IGNORECASE] against the letters of the
    error patterns. *)
Definition lower (c : ascii) : ascii :=
  let n := code c in
  if (65 <=? n) && (n <=? 90) then ascii_of_nat (n + 32) else c.

Definition lit_ignorecase (pattern : str) : re.matcher unit := fun s =>
  match re.lit pattern (map lower s) with
  | Some _ => Some (tt, skipn (length pattern) s)
  | None => None
  end.

(** The patterns of [_is_lua_error], in lower case: they are
    searched with [re.IGNORECASE]. *)
Definition error_patterns : list str :=
  [py "error"; py "attempt to"; py "expected"; py "syntax error"].

Definition _is_lua_error (response : str) : bool :=
  existsb (fun pattern =>
             match re.search (lit_ignorecase pattern) response with
             | Some _ => true
             | None => false
             end) error_patterns.

Definition execute_lua (lua_code : str) : M state (option str) :=
  let command := py "/c " ++ lua_code in
  result <~ send_command command ;;
  match result with
  | Some text =>
      if _is_lua_error text
      then throw (CommandError (py "Lua error: " ++ text))
      else ret result
  | None => ret result
  end.

Definition query_lua (lua_expression : str) : M state (option str) :=
  let lua_code := py "rcon.print(" ++ lua_expression ++ py ")" in
  execute_lua lua_code.

(** Every caller leaves [format] at its default, [line]. *)
Definition query_lua_table (lua_expression : str) : M state (option str) :=
  let lua_code :=
    py "rcon.print(serpent.line(" ++ lua_expression ++ py "))" in
  execute_lua lua_code.

End Wrapper.
End RCONWrapper.

(** ** [factorio_tools.py] *)

Module FactorioTools.
Import re Patterns.

Section Decoders.
Context `{Floats}.

Record EntityInfo := mk_EntityInfo {
  name : str;
  position_x : pyfloat;
  position_y : pyfloat
}.

Record InventoryItem := mk_InventoryItem {
  item_name : str;
  count : Z
}.

(** The body of the loop of [_parse_entity_list] for one block;
    [entities] is the list built so far. *)
Definition entity_of_block (block : str) (entities : list EntityInfo)
  : result (list EntityInfo) :=
  let name_match := search (quoted_field_re (py "name")) block in
  let x_match := search (number_field_re (py "x")) block in
  let y_match := search (number_field_re (py "y")) block in
  match name_match, x_match, y_match with
  | Some n, Some x, Some y =>
      fx <- py_float x ;;
      fy <- py_float y ;;
      Ok (entities ++ [mk_EntityInfo n fx fy])
  | _, _, _ => Ok entities
  end.

Fixpoint for_blocks {A} (body : str -> list A -> result (list A))
         (blocks : list str) (acc : list A) : result (list A) :=
  match blocks with
  | [] => Ok acc
  | block :: more =>
      acc' <- body block acc ;;
      for_blocks body more acc'
  end.

Definition _parse_entity_list (serpent_output : str)
  : result (list EntityInfo) :=
  let blocks := findall block_re serpent_output in
  for_blocks entity_of_block blocks [].



Definition _parse_inventory (serpent_output : str)
  : list InventoryItem :=
  let matches := findall inventory_re serpent_output in
  map (fun '(count, name) =>
         mk_InventoryItem name (int_of_digits count)) matches.

(** [key\s*=\s*(\d+)], group 1. *)
Definition digits_field_re (key : str) : matcher str := fun s =>
  match lit key s with
  | Some s1 =>
      match drop_while is_space s1 with
      | e :: s2 =>
          if chr_eqb e "=" then
            let s3 := drop_while is_space s2 in
            match take_while is_digit s3 with
            | (_ :: _) as v => Some (v, drop_while is_digit s3)
            | [] => None
            end
          else None
      | [] => None
      end
  | None => None
  end.

(** [round(float(text), 1) if match else 0]. *)
Definition rounded_or_zero (m : option str) : result value :=
  match m with
  | Some text => f <- py_float text ;; Ok (VFloat (round1 f))
  | None => Ok (VInt 0)
  end.

(** The body of the loop of [_parse_resource_totals]. *)
Definition resource_of_block (block : str) (resources : list value)
  : result (list value) :=
  let name_match := search (quoted_field_re (py "name")) block in
  let total_match := search (digits_field_re (py "total_amount")) block in
  let tiles_match := search (digits_field_re (py "tile_count")) block in
  let cx_match := search (number_field_re (py "center_x")) block in
  let cy_match := search (number_field_re (py "center_y")) block in
  match name_match, total_match with
  | Some n, Some total =>
      let tiles := match tiles_match with
                   | Some t => int_of_digits t
                   | None => 0%Z
                   end in
      cx <- rounded_or_zero cx_match ;;
      cy <- rounded_or_zero cy_match ;;
      Ok (resources ++
            [VDict [(py "name", VStr n);
                    (py "total_amount", VInt (int_of_digits total));
                    (py "tile_count", VInt tiles);
                    (py "center_x", cx);
                    (py "center_y", cy)]])
  | _, _ => Ok resources
  end.

(** The sort key [lambda x: x["total_amount"]]. *)
Definition total_amount_of (v : value) : Z :=
  match v with
  | VDict d =>
      match dict_get d (py "total_amount") with
      | Some (VInt n) => n
      | _ => 0%Z
      end
  | _ => 0%Z
  end.

(** [l.sort(key=key, reverse=True)]: the stable sort in descending
    order of the keys (elements with equal keys stay in their
    order). *)
Fixpoint insert_desc {A} (key : A -> Z) (a : A) (l : list A) : list A :=
  match l with
  | [] => [a]
  | b :: l' =>
      if (key a <? key b)%Z then b :: insert_desc key a l' else a :: l
  end.

Definition sort_desc {A} (key : A -> Z) (l : list A) : list A :=
  fold_right (insert_desc key) [] l.

Definition _parse_resource_totals (serpent_output : str)
  : result (list value) :=
  let blocks := findall block_re serpent_output in
  resources <- for_blocks resource_of_block blocks [] ;;
  Ok (sort_desc total_amount_of resources).

End Decoders.

Section Operations.
Context `{Floats} `{Channel}.

Definition nl : ascii := ascii_of_nat 10.

(** [s.replace('\n', ' ')]. *)
Definition replace_newlines (s : str) : str :=
  map (fun c => if chr_eqb c nl then " "%char else c) s.

(** A triple-quoted literal: a line break, then the lines, each
    ended by a line break. *)
Definition triple_quoted (lines : list str) : str :=
  nl :: concat (map (fun l => l ++ [nl]) lines).

Definition get_tick : M RCONWrapper.state Z :=
  result <~ RCONWrapper.query_lua (py "game.tick") ;;
  lift match result with
       | Some text => py_int text
       | None => Ok 0%Z
       end.

Definition count_by_name_lua (entity_type : str) : str :=
  py "#game.surfaces[1].find_entities_filtered{name=" ++ [dq]
    ++ entity_type ++ [dq] ++ py "}".

Definition count_by_type_lua (entity_type : str) : str :=
  py "#game.surfaces[1].find_entities_filtered{type=" ++ [dq]
    ++ entity_type ++ [dq] ++ py "}".

Definition count_entities (entity_type : str) : M RCONWrapper.state Z :=
  let lua_name := count_by_name_lua entity_type in
  result <~ RCONWrapper.query_lua lua_name ;;
  count <~ lift match result with
                | Some text => py_int text
                | None => Ok 0%Z
                end ;;
  if (0 <? count)%Z then ret count
  else
    let lua_type := count_by_type_lua entity_type in
    result <~ RCONWrapper.query_lua lua_type ;;
    lift match result with
         | Some text => py_int text
         | None => Ok 0%Z
         end.

Definition list_entities_lua (entity_type : str) (limit : Z) : str :=
  triple_quoted
    [py "(function()";
     py "    local entities = game.surfaces[1].find_entities_filtered{type="
       ++ [dq] ++ entity_type ++ [dq] ++ py "}";
     py "    local result = {}";
     py "    local count = 0";
     py "    for _, e in pairs(entities) do";
     py "        if count >= " ++ str_of_int limit ++ py " then break end";
     py "        table.insert(result, {name=e.name, x=e.position.x, y=e.position.y})";
     py "        count = count + 1";
     py "    end";
     py "    return result";
     py "end)()"].

Definition list_entities (entity_type : str) (limit : Z)
  : M RCONWrapper.state (list EntityInfo) :=
  let lua := list_entities_lua entity_type limit in
  result <~ RCONWrapper.query_lua_table (replace_newlines (strip lua)) ;;
  match result with
  | None => ret []
  | Some text => lift (_parse_entity_list text)
  end.

(** [s.lower()] contains [sub]. *)
Definition contains_lower (sub s : str) : bool :=
  match re.search (RCONWrapper.lit_ignorecase sub) s with
  | Some _ => true
  | None => false
  end.

Definition craft_item_lua (item_name count : str) : str :=
  py "game.connected_players[1].begin_crafting{recipe=" ++ [dq]
    ++ item_name ++ [dq] ++ py ", count=" ++ count ++ py "}".

(** [count] is the text the f-string renders for the count. *)
Definition craft_item (item_name count : str) : M RCONWrapper.state bool :=
  let lua := craft_item_lua item_name count in
  result <~ RCONWrapper.query_lua lua ;;
  match result with
  | Some text =>
      match py_int text with
      | Ok crafted => ret (0 <? crafted)%Z
      | Raise _ => ret false
      end
  | None => ret false
  end.

Definition can_place_lua (name x y : str) : str :=
  py "game.surfaces[1].can_place_entity{name=" ++ [dq] ++ name ++ [dq]
    ++ py ", position={" ++ x ++ py "," ++ y ++ py "}, force="
    ++ [dq] ++ py "player" ++ [dq] ++ py "}".

Definition create_entity_lua (name x y : str) : str :=
  py "game.surfaces[1].create_entity{name=" ++ [dq] ++ name ++ [dq]
    ++ py ", position={" ++ x ++ py "," ++ y ++ py "}, force="
    ++ [dq] ++ py "player" ++ [dq] ++ py "}".

(** [x] and [y] are the texts the f-string renders for the
    coordinates. *)
Definition place_entity (name x y : str) : M RCONWrapper.state bool :=
  let check_lua := can_place_lua name x y in
  can_place <~ RCONWrapper.query_lua check_lua ;;
  match can_place with
  | Some text =>
      if str_eqb text (py "true") then
        let place_lua := create_entity_lua name x y in
        result <~ RCONWrapper.query_lua place_lua ;;
        match result with
        | Some reply => ret (negb (contains_lower (py "nil") reply))
        | None => ret false
        end
      else ret false
  | None => ret false
  end.

(** [time.sleep(delay)] returns, or raises when the delay is
    negative or not a number; [slept] is what it does.  The loop runs
    over what is left of [range(max_attempts)]. *)
Fixpoint reconnect_loop (attempts : nat) (slept : result unit)
  : M RCONWrapper.state bool :=
  match attempts with
  | O => ret false
  | S attempts' =>
      fun s =>
        let '(_, s1) := RCONWrapper.disconnect s in
        match slept with
        | Ok _ =>
            match RCONWrapper.connect s1 with
            | (Ok _, s2) => (Ok true, s2)
            | (Raise _, s2) => reconnect_loop attempts' slept s2
            end
        | Raise _ => reconnect_loop attempts' slept s1
        end
  end.

Definition reconnect (max_attempts : Z) (slept : result unit)
  : M RCONWrapper.state bool :=
  reconnect_loop (Z.to_nat max_attempts) slept.

(** What a greedy [.*] followed by the pattern [m] finds: the last
    position of the current line at which [m] matches. *)
Fixpoint last_in_line {G} (m : re.matcher G) (s : str) : option (G * str) :=
  match s with
  | [] => m s
  | c :: t =>
      if chr_eqb c nl then m s
      else match last_in_line m t with
           | Some found => Some found
           | None => m s
           end
  end.

(** [r'x\s*=\s*([-\d.]+).*y\s*=\s*([-\d.]+)'], groups 1 and 2. *)
Definition position_re : re.matcher (str * str) := fun s =>
  match number_field_re (py "x") s with
  | Some (x, rest) =>
      match last_in_line (number_field_re (py "y")) rest with
      | Some (y, rest') => Some ((x, y), rest')
      | None => None
      end
  | None => None
  end.

Record Position := mk_Position {
  x : value;
  y : value
}.

Definition get_player_position : M RCONWrapper.state Position :=
  let lua := py "game.connected_players[1].position" in
  result <~ RCONWrapper.query_lua_table lua ;;
  match result with
  | None => ret (mk_Position (VInt 0) (VInt 0))
  | Some text =>
      match re.search position_re text with
      | Some (xs, ys) =>
          lift (fx <- py_float xs ;;
                fy <- py_float ys ;;
                Ok (mk_Position (VFloat fx) (VFloat fy)))
      | None => ret (mk_Position (VInt 0) (VInt 0))
      end
  end.

End Operations.
End FactorioTools.

(** ** The library functions of the agent *)

Class Python `{Floats} := {
  (** [json.loads] on a text that opens with a brace: the object it
      denotes, in the order of its keys, or the exception it raises.
      That is [JSONDecodeError] for a text that is no JSON document,
      and others besides: [RecursionError] for a text that nests too
      deep, [ValueError] for a number of more digits than the
      interpreter converts. *)
  json_loads_object : str -> result (list (str * value));
  (** [json.dumps(v)]. *)
  json_dumps : value -> result str;
  (** [str(v)] for containers, booleans and [None]. *)
  str_of_other : value -> str
}.

(** ** [factorio_agent.py] *)

Module FactorioAgent.
Section Agent.
Context {F : Floats} {P : Python}.

(** The fixed system directive; its text plays no role. *)
Variable SYSTEM_PROMPT : str.

(** The [function] entry of a tool call: both keys are read with a
    default.  The arguments are an object: the chat backend sends
    one, and the fallback recovery builds one with
    [json_loads_object]. *)
Record tool_call := mk_call {
  call_name : option str;
  call_arguments : option (list (str * value))
}.

(** A message of the history or of the backend.  The content is a
    text, possibly empty (a missing entry is read as the empty
    text), or [None] where the backend sends null; a missing or
    empty [tool_calls] entry is the empty list. *)
Record message := mk_message {
  role : str;
  content : option str;
  tool_calls : list tool_call
}.

(** [FactorioTools] as the dispatcher sees it: methods on the game
    that take and return Python values and may raise. *)
Class Facade := {
  game : Type;
  get_tick : M game Z;
  get_game_info : M game value;
  count_entities : value -> M game value;
  get_production_stats : value -> M game value;
  get_player_position : M game (pyfloat * pyfloat);
  find_nearby_entities : value -> M game value;
  find_nearby_resources : value -> M game value;
  get_player_inventory : M game value;
  get_entity_inventory : value -> value -> M game value;
  craft_item : value -> value -> M game value;
  mine_resource : value -> value -> M game value;
  place_entity : value -> value -> value -> M game value;
  remove_entity : value -> value -> M game value;
  get_assemblers : value -> M game value;
  get_power_stats : M game value;
  get_research_status : M game value
}.

(** [OllamaClient.chat]: the [message] entry of the response, if
    present. *)
Class ChatBackend := {
  backend : Type;
  llm_chat : list message -> M backend (option message)
}.

Context {T : Facade} {B : ChatBackend}.

Record Config := mk_Config {
  max_tool_iterations : Z;
  max_history_messages : Z
}.

(** The agent and its collaborators.  [turns] counts the calls of
    [llm.chat]; the source does not keep it. *)
Record agent := mk_agent {
  messages : list message;
  world : game;
  model : backend;
  turns : nat
}.

Definition set_messages (a : agent) (ms : list message) : agent :=
  mk_agent ms (world a) (model a) (turns a).

Definition append_message (a : agent) (m : message) : agent :=
  set_messages a (messages a ++ [m]).

Definition system_message : message :=
  mk_message (py "system") (Some SYSTEM_PROMPT) [].

(** [__init__] and [clear_history]. *)
Definition initial_messages : list message := [system_message].

(** Run a method of the tools on the game of the agent. *)
Definition on_world {A} (m : M game A) : M agent A := fun a =>
  let '(r, w) := m (world a) in
  (r, mk_agent (messages a) w (model a) (turns a)).

Definition _get_game_state : M game str :=
  try_except
    (pos <~ get_player_position ;;
     tick <~ get_tick ;;
     ret (py "[GAME STATE: x=" ++ format_1f (fst pos) ++ py " y="
            ++ format_1f (snd pos) ++ py " tick=" ++ str_of_int tick
            ++ py "]"))
    (fun _ => ret (py "[GAME STATE: unavailable]")).

(** [r'(\w+)\[ARGS\](\{[^}]*\})'], groups 1 and 2. *)
Definition text_call_re : re.matcher (str * str) := fun s =>
  match re.take_while is_word s with
  | (_ :: _) as func_name =>
      match re.lit (py "[ARGS]") (re.drop_while is_word s) with
      | Some (c :: t) =>
          if is_lbrace c then
            let body := re.take_while not_rbrace t in
            match re.drop_while not_rbrace t with
            | r :: rest =>
                if is_rbrace r
                then Some ((func_name, c :: body ++ [r]), rest)
                else None
            | [] => None
            end
          else None
      | _ => None
      end
  | [] => None
  end.

(** What [re.search] raises on a content that is null (the message
    is that of CPython 3.11). *)
Definition not_a_string : exn :=
  mk_exn (py "TypeError")
    (py "expected string or bytes-like object, got 'NoneType'").

(** [except json.JSONDecodeError] catches that class only: what else
    [json.loads] raises leaves the function, and so does the
    [TypeError] of [re.search], which is outside the [try]. *)
Definition _parse_text_tool_call (content : option str)
  : result (option tool_call) :=
  match content with
  | None => Raise not_a_string
  | Some content =>
      match re.search text_call_re content with
      | Some (func_name, args_str) =>
          match json_loads_object args_str with
          | Ok args => Ok (Some (mk_call (Some func_name) (Some args)))
          | Raise e =>
              if str_eqb (exn_kind e) (py "JSONDecodeError") then Ok None
              else Raise e
          end
      | None => Ok None
      end
  end.

(** [l[start:]]. *)
Definition slice_from {A} (l : list A) (start : Z) : list A :=
  if (start <? 0)%Z
  then skipn (Z.to_nat (Z.of_nat (length l) + start)) l
  else skipn (Z.to_nat start) l.

(** [firstn 1 ms] is [[self.messages[0]]]: the history is never
    empty. *)
Definition _trim_history (config : Config) (ms : list message)
  : list message :=
  let max_msgs := max_history_messages config in
  let current_count := (Z.of_nat (length ms) - 1)%Z in
  if (current_count <=? max_msgs)%Z then ms
  else firstn 1 ms ++ slice_from ms (- max_msgs).

(** The lookups of [_call_tool]: [args.get(key, default)] and
    [args[key]]. *)
Definition arg_get (args : list (str * value)) (key : str)
           (default : value) : value :=
  match dict_get args key with
  | Some v => v
  | None => default
  end.

Definition KeyError (key : str) : exn :=
  mk_exn (py "KeyError") (py "'" ++ key ++ py "'").

Definition arg_item (args : list (str * value)) (key : str)
  : M game value :=
  match dict_get args key with
  | Some v => ret v
  | None => throw (KeyError key)
  end.

Definition int_value (m : M game Z) : M game value :=
  n <~ m ;; ret (VInt n).

Definition position_value (m : M game (pyfloat * pyfloat))
  : M game value :=
  p <~ m ;;
  ret (VData (py "Position")
         [(py "x", VFloat (fst p)); (py "y", VFloat (snd p))]).

Definition _call_tool (name : str) (args : list (str * value))
  : M game value :=
  if str_eqb name (py "get_tick") then int_value get_tick
  else if str_eqb name (py "get_game_info") then get_game_info
  else if str_eqb name (py "count_entities") then
    count_entities (arg_get args (py "entity_type") (VStr (py "tree")))
  else if str_eqb name (py "get_production_stats") then
    get_production_stats (arg_get args (py "item") (VStr (py "iron-plate")))
  else if str_eqb name (py "get_player_position") then
    position_value get_player_position
  else if str_eqb name (py "find_nearby_entities") then
    find_nearby_entities (arg_get args (py "radius") (VInt 20))
  else if str_eqb name (py "find_nearby_resources") then
    find_nearby_resources (arg_get args (py "radius") (VInt 50))
  else if str_eqb name (py "get_player_inventory") then
    get_player_inventory
  else if str_eqb name (py "get_entity_inventory") then
    x <~ arg_item args (py "x") ;;
    y <~ arg_item args (py "y") ;;
    get_entity_inventory x y
  else if str_eqb name (py "craft_item") then
    item_name <~ arg_item args (py "item_name") ;;
    craft_item item_name (arg_get args (py "count") (VInt 1))
  else if str_eqb name (py "mine_resource") then
    mine_resource (arg_get args (py "count") (VInt 10))
      (arg_get args (py "resource_type") VNone)
  else if str_eqb name (py "place_entity") then
    n <~ arg_item args (py "name") ;;
    x <~ arg_item args (py "x") ;;
    y <~ arg_item args (py "y") ;;
    place_entity n x y
  else if str_eqb name (py "remove_entity") then
    x <~ arg_item args (py "x") ;;
    y <~ arg_item args (py "y") ;;
    remove_entity x y
  else if str_eqb name (py "get_assemblers") then
    get_assemblers (arg_get args (py "limit") (VInt 20))
  else if str_eqb name (py "get_power_stats") then get_power_stats
  else if str_eqb name (py "get_research_status") then get_research_status
  else throw (mk_exn (py "ValueError") (py "Unknown tool: " ++ name)).

(** [str(v)]. *)
Definition py_str (v : value) : str :=
  match v with
  | VInt n => str_of_int n
  | VFloat f => str_of_float f
  | VStr s => s
  | _ => str_of_other v
  end.

(** [dataclasses.asdict] on an instance with plain fields. *)
Definition asdict (v : value) : value :=
  match v with
  | VData _ fields => VDict fields
  | _ => v
  end.

Definition format_item (item : value) : result str :=
  match item with
  | VData _ _ => json_dumps (asdict item)
  | VDict _ => json_dumps item
  | _ => Ok (py_str item)
  end.

Fixpoint format_items (l : list value) (items : list str)
  : result (list str) :=
  match l with
  | [] => Ok items
  | item :: l' =>
      text <- format_item item ;;
      format_items l' (items ++ [text])
  end.

(** [sep.join(items)]. *)
Fixpoint join (sep : str) (items : list str) : str :=
  match items with
  | [] => []
  | [a] => a
  | a :: rest => a ++ sep ++ join sep rest
  end.

Definition _format_result (res : value) : result str :=
  match res with
  | VNone => Ok (py "No result")
  | VBool b => Ok (if b then py "Success" else py "Failed")
  | VInt _ | VFloat _ | VStr _ => Ok (py_str res)
  | VList [] => Ok (py "Empty list")
  | VList l =>
      items <- format_items l [] ;;
      Ok (py "[" ++ join (py ", ") items ++ py "]")
  | VDict _ => json_dumps res
  | VData _ _ => json_dumps (asdict res)
  end.

(** The f-string [Error: {type(e).__name__}: {e}]. *)
Definition error_msg (e : exn) : str :=
  py "Error: " ++ exn_kind e ++ py ": " ++ exn_msg e.

Definition _execute_tool (name : str) (args : list (str * value))
  : game -> str * game := fun w =>
  match _call_tool name args w with
  | (Ok result, w') =>
      match _format_result result with
      | Ok formatted => (formatted, w')
      | Raise e => (error_msg e, w')
      end
  | (Raise e, w') => (error_msg e, w')
  end.

Definition fallback : str :=
  py "I've made several tool calls but couldn't complete the task. Please try a simpler request.".

Definition apology : str :=
  py "I didn't generate a response. Could you rephrase your question?".

(** The message the backend answered with and its tool calls, after
    the recovery of a call printed as text; the call of
    [_parse_text_tool_call] is in no [try]. *)
Definition recover_text_call (msg : message)
  : result (message * list tool_call) :=
  let tool_calls := tool_calls msg in
  let content := content msg in
  parsed <- _parse_text_tool_call content ;;
  match parsed with
  | Some parsed =>
      let tool_calls := tool_calls ++ [parsed] in
      Ok (mk_message (py "assistant") (Some []) tool_calls, tool_calls)
  | None => Ok (msg, tool_calls)
  end.

(** The text [chat] returns for a content without tool calls: the
    content, or the apology [if not content or not content.strip()]. *)
Definition answer_text (content : option str) : str :=
  match content with
  | Some text =>
      match strip text with
      | [] => apology
      | _ :: _ => text
      end
  | None => apology
  end.

(** The loop over the tool calls of one turn. *)
Fixpoint run_tool_calls (calls : list tool_call) (a : agent) : agent :=
  match calls with
  | [] => a
  | tool_call :: rest =>
      let tool_name :=
        match call_name tool_call with
        | Some n => n
        | None => []
        end in
      let tool_args :=
        match call_arguments tool_call with
        | Some args => args
        | None => []
        end in
      let '(result, w) := _execute_tool tool_name tool_args (world a) in
      let a' := mk_agent
                  (messages a ++ [mk_message (py "tool") (Some result) []])
                  w (model a) (turns a) in
      run_tool_calls rest a'
  end.

(** The [for iteration in range(...)] loop of [chat], with the code
    that follows it; [iterations] is what is left of the range. *)
Fixpoint chat_loop (config : Config) (iterations : nat) (a : agent)
  : result str * agent :=
  match iterations with
  | O =>
      let a1 := append_message a
                  (mk_message (py "assistant") (Some fallback) []) in
      (Ok fallback, set_messages a1 (_trim_history config (messages a1)))
  | S iterations' =>
      match llm_chat (messages a) (model a) with
      | (Raise e, model') =>
          (Raise e, mk_agent (messages a) (world a) model' (S (turns a)))
      | (Ok response, model') =>
          let a0 := mk_agent (messages a) (world a) model' (S (turns a)) in
          let msg :=
            match response with
            | Some m => m
            | None => mk_message [] (Some []) []
            end in
          match recover_text_call msg with
          | Raise e => (Raise e, a0)
          | Ok (msg, tool_calls) =>
              match tool_calls with
              | [] =>
                  let content := answer_text (content msg) in
                  let a1 := append_message a0
                              (mk_message (py "assistant") (Some content) []) in
                  (Ok content,
                   set_messages a1 (_trim_history config (messages a1)))
              | _ :: _ =>
                  let a1 := append_message a0 msg in
                  chat_loop config iterations'
                    (run_tool_calls tool_calls a1)
              end
          end
      end
  end.

Definition chat (config : Config) (user_message : str)
  : agent -> result str * agent := fun a =>
  let '(game_state, a1) := on_world _get_game_state a in
  let game_state :=
    match game_state with
    | Ok text => text
    | Raise _ => py "[GAME STATE: unavailable]"
    end in
  let enriched_message := game_state ++ [ascii_of_nat 10] ++ user_message in
  let a2 := append_message a1
              (mk_message (py "user") (Some enriched_message) []) in
  chat_loop config (Z.to_nat (max_tool_iterations config)) a2.



(** An answer whose reading raises [e]: its content is null, or it
    prints a call on whose arguments [json.loads] raises [e], which
    is no [JSONDecodeError]. *)
Definition raised_by_answer (m : message) (e : exn) : Prop :=
  (content m = None /\ e = not_a_string)
  \/ (exists text func_name args_str,
        content m = Some text
        /\ re.search text_call_re text = Some (func_name, args_str)
        /\ json_loads_object args_str = Raise e
        /\ str_eqb (exn_kind e) (py "JSONDecodeError") = false).

Definition clear_history (a : agent) : agent :=
  set_messages a initial_messages.

(** The names [_call_tool] answers to, in the order it tests them. *)
Definition dispatched_names : list str :=
  [py "get_tick"; py "get_game_info"; py "count_entities";
   py "get_production_stats"; py "get_player_position";
   py "find_nearby_entities"; py "find_nearby_resources";
   py "get_player_inventory"; py "get_entity_inventory"; py "craft_item";
   py "mine_resource"; py "place_entity"; py "remove_entity";
   py "get_assemblers"; py "get_power_stats"; py "get_research_status"].

(** The agent after the first lines of [chat]: the game state is
    read and the user message, with the state in front, is added to
    the history. *)
Definition with_user_message (a : agent) (user_message : str) : agent :=
  let '(game_state, a1) := on_world _get_game_state a in
  let game_state :=
    match game_state with
    | Ok text => text
    | Raise _ => py "[GAME STATE: unavailable]"
    end in
  append_message a1
    (mk_message (py "user")
       (Some (game_state ++ [ascii_of_nat 10] ++ user_message)) []).

(** The agents a session can reach from a history that begins with
    [first], by calls of [chat], whether they return or raise. *)
Inductive reachable (config : Config) (first : message) : agent -> Prop :=
| reach_start (a : agent) (rest : list message) :
    messages a = first :: rest -> reachable config first a
| reach_chat (a : agent) (user_message : str) :
    reachable config first a ->
    reachable config first (snd (chat config user_message a)).

End Agent.
End FactorioAgent.

(** ** Vocabulary of the statements *)

(** Every opening brace of [s] has a closing brace after it in [s]:
    no block is left open at the end of [s].  A sequence of complete
    records is of this kind, whatever their string values contain. *)
Fixpoint closed (s : str) : bool :=
  match s with
  | [] => true
  | c :: t => (if is_lbrace c then existsb is_rbrace t else true) && closed t
  end.


(** A loop body that only appends to the list built so far. *)
Definition appending {A} (body : str -> list A -> result (list A)) : Prop :=
  forall block acc,
    body block acc = (r <- body block [] ;; Ok (acc ++ r)).

(** A literal in which the apostrophe stands for the double quote. *)
Definition q (s : string) : str :=
  map (fun c => if chr_eqb c "'" then dq else c) (py s).

Definition all_space (w : str) : bool := forallb is_space w.
Definition all_num (v : str) : bool := forallb is_num_char v.
Definition all_digit (v : str) : bool := forallb is_digit v.

(** The characters a quoted value may hold for the field patterns to
    read it back: no double quote (it ends the value), no closing
    brace (it ends the block) and no equals sign (a key pattern could
    match inside the value). *)
Definition plain_char (c : ascii) : bool :=
  negb (is_quote c) && negb (is_rbrace c) && negb (chr_eqb c "=").

Definition plain (v : str) : bool := forallb plain_char v.

Definition nonempty (s : str) : bool :=
  match s with
  | [] => false
  | _ :: _ => true
  end.

(** Every text of the list is whitespace. *)
Definition all_spaces (l : list str) : bool := forallb all_space l.

(** A name the field patterns read back, a number as the numeric
    pattern captures it, a count as the inventory pattern captures
    it, and a name as the inventory pattern reads it back. *)
Definition name_ok (n : str) : bool := nonempty n && plain n.
Definition number_ok (v : str) : bool := nonempty v && all_num v.
Definition digits_ok (v : str) : bool := nonempty v && all_digit v.
Definition quotable (n : str) : bool :=
  nonempty n && forallb (fun c => negb (is_quote c)) n.

(** [key = Q value Q] and [key = number], with the whitespace around
    the equals sign given. *)
Definition quoted_field (key w1 w2 value : str) : str :=
  key ++ w1 ++ py "=" ++ w2 ++ [dq] ++ value ++ [dq].

Definition number_field (key w1 w2 number : str) : str :=
  key ++ w1 ++ py "=" ++ w2 ++ number.

(** A record of three fields, with the whitespace after the commas
    given. *)
Definition record3 (s1 s2 f1 f2 f3 : str) : str :=
  "{"%char :: f1 ++ ","%char :: s1 ++ f2 ++ ","%char :: s2 ++ f3
    ++ ["}"%char].

(** The six orders of three fields. *)
Inductive order3 : Type := O123 | O132 | O213 | O231 | O312 | O321.

Definition arrange (o : order3) (s1 s2 a b c : str) : str :=
  match o with
  | O123 => record3 s1 s2 a b c
  | O132 => record3 s1 s2 a c b
  | O213 => record3 s1 s2 b a c
  | O231 => record3 s1 s2 b c a
  | O312 => record3 s1 s2 c a b
  | O321 => record3 s1 s2 c b a
  end.

(** The fields of an entity record. *)
Definition name_field (w1 w2 n : str) : str :=
  quoted_field (py "name") w1 w2 n.
Definition x_field (w1 w2 v : str) : str := number_field (py "x") w1 w2 v.
Definition y_field (w1 w2 v : str) : str := number_field (py "y") w1 w2 v.

(** No character of [s] is [k]: a pattern whose first character is
    [k] matches nowhere in [s]. *)
Definition headless (k : ascii) (s : str) : bool :=
  forallb (fun c => negb (chr_eqb c k)) s.

(** A pattern that matches at no position of [pre], whatever follows
    [pre]. *)
Definition silent {G} (m : re.matcher G) (pre : str) : Prop :=
  forall a b s, pre = a ++ b -> b <> [] -> m (b ++ s) = None.

(** The command [list_entities] sends. *)
Definition list_entities_command (entity_type : str) (limit : Z) : str :=
  py "/c rcon.print(serpent.line("
    ++ FactorioTools.replace_newlines
         (strip (FactorioTools.list_entities_lua entity_type limit))
    ++ py "))".

(** Reading a double-quoted string literal of the remote scripting
    language, from just after its opening quote: the characters of
    the literal and the text that follows its closing quote.  A
    backslash takes the next character with it; a line break inside
    the literal is an error. *)
Definition backslash : ascii := ascii_of_nat 92.

Fixpoint lua_quoted (s : str) : option (str * str) :=
  match s with
  | [] => None
  | c :: t =>
      if is_quote c then Some ([], t)
      else if chr_eqb c backslash then
             match t with
             | d :: t' =>
                 match lua_quoted t' with
                 | Some (body, rest) => Some (c :: d :: body, rest)
                 | None => None
                 end
             | [] => None
             end
           else if chr_eqb c FactorioTools.nl then None
                else match lua_quoted t with
                     | Some (body, rest) => Some (c :: body, rest)
                     | None => None
                     end
  end.

(** The literal that opens right after [prefix] in [command]. *)
Definition literal_at (prefix command : str) : option (str * str) :=
  match re.lit prefix command with
  | Some s => lua_quoted s
  | None => None
  end.

(** A value that a double-quoted literal holds as it is. *)
Definition literal_safe (v : str) : bool :=
  forallb (fun c => negb (is_quote c) && negb (chr_eqb c backslash)
                    && negb (chr_eqb c FactorioTools.nl)) v.

(** [s.startswith(prefix)]. *)
Definition starts_with (prefix s : str) : bool :=
  match re.lit prefix s with
  | Some _ => true
  | None => false
  end.

(** The [required] lists of [tool_definitions.py] that are not
    empty. *)
Definition required_arguments : list (str * list str) :=
  [(py "count_entities", [py "entity_type"]);
   (py "get_production_stats", [py "item"]);
   (py "get_entity_inventory", [py "x"; py "y"]);
   (py "craft_item", [py "item_name"]);
   (py "place_entity", [py "name"; py "x"; py "y"]);
   (py "remove_entity", [py "x"; py "y"])].

(** The tools whose handler reads arguments by subscript, with the
    keys in the order they are read. *)
Definition subscripted_arguments : list (str * list str) :=
  [(py "get_entity_inventory", [py "x"; py "y"]);
   (py "craft_item", [py "item_name"]);
   (py "place_entity", [py "name"; py "x"; py "y"]);
   (py "remove_entity", [py "x"; py "y"])].

Section ArgumentVocabulary.
Context {F : Floats}.

(** The first key of [keys] that [args] does not hold. *)
Fixpoint first_missing (keys : list str) (args : list (str * value))
  : option str :=
  match keys with
  | [] => None
  | k :: rest =>
      match dict_get args k with
      | Some _ => first_missing rest args
      | None => Some k
      end
  end.

End ArgumentVocabulary.

(** ** Exact decimals as an instance of [Floats]

    Used to run the decoders on concrete replies: a number is kept as
    the decimal it was read from, [m / 10^k]. *)

Definition decimal : Type := (Z * nat)%type.

Definition decimal_of_str (s : str) : option decimal :=
  let '(neg, body) :=
    match s with
    | c :: t => if chr_eqb c "-" then (true, t) else (false, s)
    | [] => (false, s)
    end in
  let int_part := re.take_while is_digit body in
  let after := re.drop_while is_digit body in
  let frac_part :=
    match after with
    | c :: t => if chr_eqb c "." then Some t else None
    | [] => Some []
    end in
  match frac_part with
  | Some frac =>
      if forallb is_digit frac
         && negb (Nat.eqb (length int_part + length frac) 0) then
        let m := int_of_digits (int_part ++ frac) in
        Some (if neg then (- m)%Z else m, length frac)
      else None
  | None => None
  end.

(** Rounding to one place, ties to even. *)
Definition decimal_round1 (d : decimal) : decimal :=
  let '(m, k) := d in
  match k with
  | O => ((10 * m)%Z, 1)
  | S O => d
  | S k' =>
      let unit := (10 ^ Z.of_nat k')%Z in
      let quo := (m / unit)%Z in
      let rem := (m mod unit)%Z in
      let up :=
        match (2 * rem ?= unit)%Z with
        | Gt => true
        | Eq => Z.odd quo
        | Lt => false
        end in
      (if up then (quo + 1)%Z else quo, 1)
  end.

Definition decimal_format_1f (d : decimal) : str :=
  let '(m, _) := decimal_round1 d in
  (if (m <? 0)%Z then py "-" else [])
    ++ str_of_int (Z.abs m / 10) ++ py "." ++ str_of_int (Z.abs m mod 10).

#[export] Instance decimal_floats : Floats := {
  pyfloat := decimal;
  float_of_str := decimal_of_str;
  round1 := decimal_round1;
  format_1f := decimal_format_1f;
  str_of_float := decimal_format_1f
}.

(** An inventory record as the serializer emits it, keys in sorted
    order, with the whitespace around the equals signs and after the
    comma given. *)
Definition inventory_record (w1 w2 w3 w4 w5 digits n : str) : str :=
  py "{count" ++ w1 ++ py "=" ++ w2 ++ digits ++ py "," ++ w3
    ++ py "name" ++ w4 ++ py "=" ++ w5 ++ [dq] ++ n ++ dq :: py "}".


(** ** Scripted collaborators

    Concrete instances of the interfaces above, used to run the
    embedding on examples. *)

Module Scripted.

(** The remote process: the outcomes of the commands still to come,
    the commands received so far, and how many connection attempts
    it still refuses. *)
Record remote_state := mk_remote {
  outcomes : list (result (option str));
  received : list str;
  refusals : nat
}.

Definition link_error : exn :=
  mk_exn (py "OSError") (py "connection reset").

#[export] Instance channel : Channel := {
  client := unit;
  remote := remote_state;
  client_new := fun _ _ _ r =>
    match refusals r with
    | O => (Ok tt, r)
    | S n => (Raise (mk_exn (py "OSError") (py "connection refused")),
              mk_remote (outcomes r) (received r) n)
    end;
  client_send := fun _ command r =>
    match outcomes r with
    | o :: rest => (o, mk_remote rest (received r ++ [command]) (refusals r))
    | [] => (Raise link_error,
             mk_remote [] (received r ++ [command]) (refusals r))
    end;
  client_close := fun _ r => (Ok tt, r)
}.

(** A connected wrapper in front of a remote process that will
    answer with [outcomes]. *)
Definition connected_to (outcomes : list (result (option str)))
  : RCONWrapper.state :=
  (RCONWrapper.mk (py "localhost") 27015 (py "test123") (Some tt),
   mk_remote outcomes [] 0).

(** Flat JSON objects of integers and strings, enough for the
    argument texts of the examples. *)
Definition skip_space (s : str) : str := re.drop_while is_space s.

Definition json_scalar (s : str) : option (value * str) :=
  match s with
  | c :: t =>
      if is_quote c then
        let body := re.take_while (fun c => negb (is_quote c)) t in
        match re.drop_while (fun c => negb (is_quote c)) t with
        | _ :: rest => Some (VStr body, rest)
        | [] => None
        end
      else
        let '(neg, digits_on) :=
          if chr_eqb c "-" then (true, t) else (false, s) in
        match re.take_while is_digit digits_on with
        | (_ :: _) as digits =>
            let n := int_of_digits digits in
            Some (VInt (if neg then (- n)%Z else n),
                  re.drop_while is_digit digits_on)
        | [] => None
        end
  | [] => None
  end.

Fixpoint json_members (fuel : nat) (s : str)
  : option (list (str * value)) :=
  match fuel with
  | O => None
  | S fuel' =>
      match skip_space s with
      | c :: t =>
          if is_quote c then
            let key := re.take_while (fun c => negb (is_quote c)) t in
            match re.drop_while (fun c => negb (is_quote c)) t with
            | _ :: after_key =>
                match skip_space after_key with
                | colon :: after_colon =>
                    if chr_eqb colon ":" then
                      match json_scalar (skip_space after_colon) with
                      | Some (v, rest) =>
                          match skip_space rest with
                          | d :: more =>
                              if is_rbrace d then
                                match skip_space more with
                                | [] => Some [(key, v)]
                                | _ :: _ => None
                                end
                              else if chr_eqb d "," then
                                option_map (cons (key, v))
                                  (json_members fuel' more)
                              else None
                          | [] => None
                          end
                      | None => None
                      end
                    else None
                | [] => None
                end
            | [] => None
            end
          else None
      | [] => None
      end
  end.

Definition json_flat_object (s : str) : option (list (str * value)) :=
  match skip_space s with
  | c :: t =>
      if is_lbrace c then
        match skip_space t with
        | d :: more =>
            if is_rbrace d then
              match skip_space more with
              | [] => Some []
              | _ :: _ => None
              end
            else json_members (length s) t
        | [] => None
        end
      else None
  | [] => None
  end.

(** [json.dumps] for values whose strings need no escape. *)
Fixpoint dumps (v : value) : str :=
  match v with
  | VNone => py "null"
  | VBool b => if b then py "true" else py "false"
  | VInt n => str_of_int n
  | VFloat f => str_of_float f
  | VStr s => dq :: s ++ [dq]
  | VList l => py "[" ++ FactorioAgent.join (py ", ") (map dumps l) ++ py "]"
  | VDict d | VData _ d =>
      py "{"
        ++ FactorioAgent.join (py ", ")
             (map (fun kv => dq :: fst kv ++ dq :: py ": " ++ dumps (snd kv)) d)
        ++ py "}"
  end.

(** The number of arrays inside one another that the scripted loader
    opens before it gives up, as the interpreter does at its default
    recursion limit. *)
Definition recursion_limit : nat := 1000.

(** The text of the value of the first member of an object. *)
Definition first_member_value (s : str) : option str :=
  match skip_space s with
  | c :: t =>
      if is_lbrace c then
        match skip_space t with
        | k :: t1 =>
            if is_quote k then
              match re.drop_while (fun c => negb (is_quote c)) t1 with
              | _ :: after_key =>
                  match skip_space after_key with
                  | colon :: after_colon =>
                      if chr_eqb colon ":"
                      then Some (skip_space after_colon)
                      else None
                  | [] => None
                  end
              | [] => None
              end
            else None
        | [] => None
        end
      else None
  | [] => None
  end.

Definition nests_too_deep (s : str) : bool :=
  match first_member_value s with
  | Some v =>
      recursion_limit <? length (re.take_while (fun c => chr_eqb c "[") v)
  | None => false
  end.

(** [json.loads] of the examples: a flat object is loaded; a first
    value that opens more arrays than the recursion limit raises
    [RecursionError]; any other text raises [JSONDecodeError] (with
    one message for all, which the source does not read). *)
Definition loads (s : str) : result (list (str * value)) :=
  match json_flat_object s with
  | Some object => Ok object
  | None =>
      if nests_too_deep s
      then Raise (mk_exn (py "RecursionError")
                    (py "maximum recursion depth exceeded while decoding a JSON array from a unicode string"))
      else Raise (mk_exn (py "JSONDecodeError") (py "Expecting value"))
  end.

#[export] Instance python : Python := {
  json_loads_object := loads;
  json_dumps := fun v => Ok (dumps v);
  str_of_other := dumps
}.

Definition not_embedded {A} : M RCONWrapper.state A :=
  throw (mk_exn (py "NotImplementedError") (py "not embedded")).

(** The tools over the scripted channel: the operations embedded in
    [FactorioTools], the others left out. *)
#[export] Instance facade : FactorioAgent.Facade := {
  FactorioAgent.game := RCONWrapper.state;
  FactorioAgent.get_tick := FactorioTools.get_tick;
  FactorioAgent.get_game_info := not_embedded;
  FactorioAgent.count_entities := fun entity_type =>
    n <~ FactorioTools.count_entities (FactorioAgent.py_str entity_type) ;;
    ret (VInt n);
  FactorioAgent.get_production_stats := fun _ => not_embedded;
  FactorioAgent.get_player_position := not_embedded;
  FactorioAgent.find_nearby_entities := fun _ => not_embedded;
  FactorioAgent.find_nearby_resources := fun _ => not_embedded;
  FactorioAgent.get_player_inventory := not_embedded;
  FactorioAgent.get_entity_inventory := fun _ _ => not_embedded;
  FactorioAgent.craft_item := fun item_name count =>
    b <~ FactorioTools.craft_item (FactorioAgent.py_str item_name)
           (FactorioAgent.py_str count) ;;
    ret (VBool b);
  FactorioAgent.mine_resource := fun _ _ => not_embedded;
  FactorioAgent.place_entity := fun name x y =>
    b <~ FactorioTools.place_entity (FactorioAgent.py_str name)
           (FactorioAgent.py_str x) (FactorioAgent.py_str y) ;;
    ret (VBool b);
  FactorioAgent.remove_entity := fun _ _ => not_embedded;
  FactorioAgent.get_assemblers := fun _ => not_embedded;
  FactorioAgent.get_power_stats := not_embedded;
  FactorioAgent.get_research_status := not_embedded
}.

(** A chat backend that answers from a script and fails when the
    script is used up. *)
#[export] Instance backend : FactorioAgent.ChatBackend := {
  FactorioAgent.backend := list (option FactorioAgent.message);
  FactorioAgent.llm_chat := fun _ script =>
    match script with
    | answer :: rest => (Ok answer, rest)
    | [] => (Raise (mk_exn (py "RuntimeError")
                      (py "Ollama request timed out after 120s")), [])
    end
}.

(** A chat backend that asks for the game tick on every turn, with
    the same content beside the call each time. *)
Definition tick_call : FactorioAgent.tool_call :=
  FactorioAgent.mk_call (Some (py "get_tick")) (Some []).

Definition insisting (content : option str) : FactorioAgent.ChatBackend := {|
  FactorioAgent.backend := unit;
  FactorioAgent.llm_chat := fun _ u =>
    (Ok (Some (FactorioAgent.mk_message (py "assistant") content
                 [tick_call])), u)
|}.



End Scripted.

(** ** Agents for the examples *)

Module Sample.
Import FactorioAgent.

Definition prompt : str := py "You are a Factorio assistant.".

(** A fresh agent over the scripted tools: the history holds the
    system message only. *)
Definition fresh (B : @ChatBackend decimal_floats) (b : @backend _ B)
           (outcomes : list (result (option str)))
  : @agent decimal_floats Scripted.facade B :=
  @mk_agent decimal_floats Scripted.facade B (initial_messages prompt)
    (Scripted.connected_to outcomes) b 0.

Definition says (text : str) : option message :=
  Some (mk_message (py "assistant") (Some text) []).

End Sample.

(** ** [chat.py]: the history file of the prompt *)

Module Chat.

(** [history_file] is the list of the lines of the file, or [None]
    when the file does not exist; the result is the file afterwards.
    Failures of the file system, which the source passes over, are
    not modelled. *)
Definition trim_history_file (history_file : option (list str))
           (max_entries : Z) : option (list str) :=
  match history_file with
  | Some lines =>
      if (max_entries <=? 0)%Z then history_file
      else if (max_entries <? Z.of_nat (length lines))%Z
           then Some (FactorioAgent.slice_from lines (- max_entries))
           else history_file
  | None => None
  end.

End Chat.

(** ** More vocabulary *)

(** The commands [query_lua] and [query_lua_table] send. *)
Definition query_command (lua_expression : str) : str :=
  py "/c rcon.print(" ++ lua_expression ++ py ")".

Definition table_command (lua_expression : str) : str :=
  py "/c rcon.print(serpent.line(" ++ lua_expression ++ py "))".

(** A character that is not a letter of the ASCII alphabet. *)
Definition letterless (c : ascii) : bool :=
  let n := code c in
  negb (((65 <=? n) && (n <=? 90)) || ((97 <=? n) && (n <=? 122))).

(** The order of a list sorted by [key] with [reverse=True]. *)
Definition descending {A} (key : A -> Z) (a b : A) : Prop :=
  (key b <= key a)%Z.

(** A table of the serializer: the blocks between braces, separated
    by a comma and a space. *)
Definition serpent_list (blocks : list str) : str :=
  py "{" ++ FactorioAgent.join (py ", ") blocks ++ py "}".

(** The records of a reply as the serializer prints them on one
    line: the keys in sorted order, one space around the equals signs
    and after the commas. *)
Definition sp : str := py " ".

Definition inventory_entry (item : str * str) : str :=
  inventory_record sp sp sp sp sp (fst item) (snd item).

Definition inventory_table (items : list (str * str)) : str :=
  serpent_list (map inventory_entry items).

Definition item_ok (item : str * str) : bool :=
  digits_ok (fst item) && quotable (snd item).

Record entity_text := mk_entity_text {
  text_name : str;
  text_x : str;
  text_y : str
}.

Definition entity_entry (e : entity_text) : str :=
  record3 sp sp (name_field sp sp (text_name e))
    (x_field sp sp (text_x e)) (y_field sp sp (text_y e)).

Definition entity_table (records : list entity_text) : str :=
  serpent_list (map entity_entry records).

Definition entity_text_ok (e : entity_text) : bool :=
  name_ok (text_name e) && number_ok (text_x e) && number_ok (text_y e).

(** The entities a list of records stands for; the first number that
    [float] refuses raises. *)
Fixpoint entities_of `{Floats} (records : list entity_text)
  : result (list FactorioTools.EntityInfo) :=
  match records with
  | [] => Ok []
  | e :: rest =>
      fx <- py_float (text_x e) ;;
      fy <- py_float (text_y e) ;;
      after <- entities_of rest ;;
      Ok (FactorioTools.mk_EntityInfo (text_name e) fx fy :: after)
  end.

(** The outcome of a call that finds the wrapper without a client:
    the exception of [send_command], and the state as it was. *)
Definition not_connected `{Channel} {A} (s : RCONWrapper.state)
  : result A * RCONWrapper.state :=
  (Raise (RCONWrapper.ConnectionError (py "Not connected to server")), s).


(** * Properties *)

(** ** Strings and results *)



Lemma bind_Ok_r {A} (r : result A) : bind r Ok = r.
Proof. destruct r; reflexivity. Qed.

Lemma bind_assoc {A B C} (r : result A) (f : A -> result B)
      (g : B -> result C) :
  bind (bind r f) g = bind r (fun a => bind (f a) g).
Proof. destruct r; reflexivity. Qed.

(** ** [re.findall] and [re.search] *)

Section ReFacts.
Import re.
Context {G : Type} (m : matcher G).

Lemma findall_from_fuel (Hm : consuming m) :
  forall n1 n2 s, length s < n1 -> length s < n2 ->
                  findall_from m n1 s = findall_from m n2 s.
Proof.
  induction n1 as [|n1 IH]; intros n2 s H1 H2; [lia|].
  destruct n2 as [|n2]; [lia|]. simpl.
  destruct (m s) as [[g r]|] eqn:E.
  - f_equal. apply Hm in E. apply IH; lia.
  - destruct s as [|c t]; [reflexivity|]. simpl in *. apply IH; lia.
Qed.

Lemma findall_unfold (Hm : consuming m) (s : str) :
  findall m s =
  match m s with
  | Some (g, r) => g :: findall m r
  | None => match s with
            | [] => []
            | _ :: t => findall m t
            end
  end.
Proof.
  unfold findall at 1. simpl.
  destruct (m s) as [[g r]|] eqn:E.
  - f_equal. unfold findall. pose proof (Hm _ _ _ E) as Hlt.
    apply findall_from_fuel; [exact Hm|lia|lia].
  - destruct s as [|c t]; [reflexivity|].
    unfold findall. apply findall_from_fuel; simpl; [exact Hm|lia|lia].
Qed.

Lemma search_cons_None (c : ascii) (s : str) :
  m (c :: s) = None -> search m (c :: s) = search m s.
Proof. intros E. simpl. rewrite E. reflexivity. Qed.

Lemma search_here (s : str) (g : G) (r : str) :
  m s = Some (g, r) -> search m s = Some g.
Proof. intros E. destruct s; simpl; rewrite E; reflexivity. Qed.

End ReFacts.

Section WhileFacts.
Import re.
Variable p : ascii -> bool.

Lemma take_drop_while (s : str) : take_while p s ++ drop_while p s = s.
Proof.
  induction s as [|c t IH]; simpl; [reflexivity|].
  destruct (p c); simpl; [now rewrite IH|reflexivity].
Qed.

Lemma take_while_all (s : str) : forallb p (take_while p s) = true.
Proof.
  induction s as [|c t IH]; simpl; [reflexivity|].
  destruct (p c) eqn:E; simpl; [now rewrite E|reflexivity].
Qed.

Lemma drop_while_head (s : str) (c : ascii) (t : str) :
  drop_while p s = c :: t -> p c = false.
Proof.
  induction s as [|d u IH]; simpl; [discriminate|].
  destruct (p d) eqn:E; [exact IH|]. intros [= <- <-]. exact E.
Qed.

(** A run that stops inside [s] is not affected by what follows [s]. *)
Lemma take_while_app_stop (s rest : str) :
  existsb (fun c => negb (p c)) s = true ->
  take_while p (s ++ rest) = take_while p s
  /\ drop_while p (s ++ rest) = drop_while p s ++ rest.
Proof.
  induction s as [|c t IH]; simpl; [discriminate|].
  destruct (p c); simpl; intros Hex.
  - destruct (IH Hex) as [-> ->]. split; reflexivity.
  - split; reflexivity.
Qed.

Lemma take_while_stop (s : str) (c : ascii) (t : str) :
  forallb p s = true -> p c = false ->
  take_while p (s ++ c :: t) = s /\ drop_while p (s ++ c :: t) = c :: t.
Proof.
  intros Hs Hc. induction s as [|d u IH]; simpl.
  - rewrite Hc. split; reflexivity.
  - simpl in Hs. apply andb_true_iff in Hs. destruct Hs as [Hd Hu].
    rewrite Hd. destruct (IH Hu) as [-> ->]. split; reflexivity.
Qed.

Lemma drop_while_exists (s : str) :
  existsb (fun c => negb (p c)) s = true ->
  exists c t, drop_while p s = c :: t /\ p c = false.
Proof.
  induction s as [|c t IH]; simpl; [discriminate|].
  destruct (p c) eqn:E; simpl; intros Hex.
  - exact (IH Hex).
  - exists c, t. split; [reflexivity|exact E].
Qed.

End WhileFacts.

(** ** Partition of a reply into blocks *)

Section BlockFacts.
Import re Patterns.

Lemma block_re_consuming : consuming block_re.
Proof.
  intros s g r. unfold block_re.
  destruct s as [|c t]; [discriminate|].
  destruct (is_lbrace c); [|discriminate].
  pose proof (take_drop_while (fun c => negb (is_rbrace c)) t) as Htd.
  destruct (take_while _ t) as [|b body]; [discriminate|].
  destruct (drop_while _ t) as [|r0 rest]; [discriminate|].
  destruct (is_rbrace r0); [|discriminate].
  intros [= <- <-]. rewrite <- Htd. simpl. rewrite length_app. simpl. lia.
Qed.

(** A match inside [s] is the match of [s] followed by anything. *)
Lemma block_re_app (s g r rest : str) :
  block_re s = Some (g, r) -> block_re (s ++ rest) = Some (g, r ++ rest).
Proof.
  unfold block_re. destruct s as [|c t]; [discriminate|]. simpl.
  destruct (is_lbrace c); [|discriminate].
  destruct (take_while _ t) as [|b body] eqn:Et; [discriminate|].
  destruct (drop_while _ t) as [|r0 u] eqn:Ed; [discriminate|].
  destruct (is_rbrace r0) eqn:Er; [|discriminate].
  intros [= <- <-].
  assert (Hex : existsb (fun c => negb (negb (is_rbrace c))) t = true).
  { rewrite <- (take_drop_while (fun c => negb (is_rbrace c)) t), Ed.
    rewrite existsb_app. simpl. rewrite Er. simpl. apply orb_true_r. }
  destruct (take_while_app_stop (fun c => negb (is_rbrace c)) t rest Hex)
    as [-> ->].
  rewrite Et, Ed. simpl. rewrite Er. reflexivity.
Qed.

Lemma exists_rbrace (t : str) :
  existsb is_rbrace t = true ->
  existsb (fun c => negb (negb (is_rbrace c))) t = true.
Proof.
  induction t as [|c t IH]; simpl; [trivial|].
  rewrite negb_involutive. intros Hex. apply orb_true_iff in Hex.
  apply orb_true_iff. destruct Hex as [Hex|Hex]; [now left|right; auto].
Qed.

(** In a closed text, a match that starts in the text ends in it. *)
Lemma block_re_closed (c : ascii) (t rest g r : str) :
  closed (c :: t) = true ->
  block_re ((c :: t) ++ rest) = Some (g, r) ->
  exists t', block_re (c :: t) = Some (g, t') /\ r = t' ++ rest.
Proof.
  simpl. intros Hc. apply andb_true_iff in Hc. destruct Hc as [Hex _].
  destruct (is_lbrace c) eqn:El; [|discriminate].
  apply exists_rbrace in Hex.
  destruct (take_while_app_stop (fun c => negb (is_rbrace c)) t rest Hex)
    as [-> ->].
  destruct (drop_while_exists _ t Hex) as [r0 [u [Ed Hr0]]]. rewrite Ed.
  apply negb_false_iff in Hr0. simpl.
  destruct (take_while _ t) as [|b body]; [discriminate|].
  rewrite Hr0. intros [= <- <-]. exists u. split; reflexivity.
Qed.

Lemma closed_app_r (a b : str) : closed (a ++ b) = true -> closed b = true.
Proof.
  induction a as [|c a IH]; simpl; [trivial|].
  intros Hc. apply andb_true_iff in Hc. apply IH. apply Hc.
Qed.

Lemma block_re_rest_suffix (s g r : str) :
  block_re s = Some (g, r) -> exists a, s = a ++ r.
Proof.
  unfold block_re. destruct s as [|c t]; [discriminate|].
  destruct (is_lbrace c); [|discriminate].
  pose proof (take_drop_while (fun c => negb (is_rbrace c)) t) as Htd.
  destruct (take_while _ t) as [|b body]; [discriminate|].
  destruct (drop_while _ t) as [|r0 u]; [discriminate|].
  destruct (is_rbrace r0); [|discriminate].
  intros [= <- <-]. exists (c :: (b :: body) ++ [r0]).
  rewrite <- Htd. simpl. rewrite <- app_assoc. reflexivity.
Qed.

(** The blocks of a closed text followed by more text are the blocks
    of the one followed by the blocks of the other. *)
Lemma findall_block_app (pre rest : str) :
  closed pre = true ->
  findall block_re (pre ++ rest)
  = findall block_re pre ++ findall block_re rest.
Proof.
  remember (length pre) as n eqn:Hn.
  assert (Hle : length pre <= n) by lia. clear Hn.
  revert pre Hle. induction n as [|n IH]; intros pre Hle Hc.
  - destruct pre; [|simpl in Hle; lia]. reflexivity.
  - destruct pre as [|c t]; [reflexivity|].
    rewrite (findall_unfold block_re_consuming ((c :: t) ++ rest)).
    rewrite (findall_unfold block_re_consuming (c :: t)).
    destruct (block_re ((c :: t) ++ rest)) as [[g r]|] eqn:E.
    + destruct (block_re_closed _ _ _ Hc E) as [t' [E' ->]].
      rewrite E'. simpl. f_equal.
      pose proof (block_re_consuming _ E') as Hlt.
      destruct (block_re_rest_suffix _ E') as [a Ha].
      apply IH; [simpl in *; lia|].
      rewrite Ha in Hc. exact (closed_app_r _ _ Hc).
    + destruct (block_re (c :: t)) as [[g r]|] eqn:E'.
      * rewrite (block_re_app _ rest E') in E. discriminate.
      * simpl. simpl in Hle, Hc. apply andb_true_iff in Hc.
        apply IH; [lia|apply Hc].
Qed.

(** A complete block is found as it is. *)
Lemma findall_block_one (body : str) :
  body <> [] -> forallb not_rbrace body = true ->
  findall block_re (py "{" ++ body ++ py "}") = [py "{" ++ body ++ py "}"].
Proof.
  intros Hne Hb.
  rewrite (findall_unfold block_re_consuming). simpl.
  destruct (take_while_stop (fun c => negb (is_rbrace c)) body "}"%char []
              Hb eq_refl) as [Ht Hd].
  change (body ++ ["}"%char]) with (body ++ "}"%char :: []) at 1 2.
  rewrite Ht, Hd. destruct body as [|b body]; [contradiction|].
  simpl. reflexivity.
Qed.

Lemma closed_block (body : str) :
  closed (py "{" ++ body ++ py "}") = true.
Proof.
  assert (Hgen : forall s, closed (s ++ ["}"%char]) = true).
  { induction s as [|c s IH]; [reflexivity|]. simpl.
    rewrite IH, andb_true_r. destruct (is_lbrace c); [|reflexivity].
    rewrite existsb_app. simpl. apply orb_true_r. }
  exact (Hgen ("{"%char :: body)).
Qed.

End BlockFacts.

(** ** Decoding block by block *)

Section DecoderFacts.
Import re Patterns FactorioTools.
Context `{Floats}.

Lemma for_blocks_acc {A} (body : str -> list A -> result (list A)) :
  appending body ->
  forall blocks acc,
    for_blocks body blocks acc
    = (r <- for_blocks body blocks [] ;; Ok (acc ++ r)).
Proof.
  intros Hb blocks. induction blocks as [|b more IH]; intros acc; simpl.
  - now rewrite app_nil_r.
  - rewrite (Hb b acc). destruct (body b []) as [r|e]; simpl; [|reflexivity].
    rewrite (IH (acc ++ r)), (IH r).
    destruct (for_blocks body more []) as [r'|e]; simpl; [|reflexivity].
    now rewrite app_assoc.
Qed.

Lemma for_blocks_app {A} (body : str -> list A -> result (list A)) :
  appending body ->
  forall a b,
    for_blocks body (a ++ b) []
    = (ra <- for_blocks body a [] ;;
       rb <- for_blocks body b [] ;;
       Ok (ra ++ rb)).
Proof.
  intros Hb a b.
  assert (Hgen : forall acc,
             for_blocks body (a ++ b) acc
             = (ra <- for_blocks body a acc ;; for_blocks body b ra)).
  { induction a as [|x a IH]; intros acc; simpl; [reflexivity|].
    destruct (body x acc) as [acc'|e]; simpl; [apply IH|reflexivity]. }
  rewrite Hgen. destruct (for_blocks body a []) as [ra|e]; simpl;
    [|reflexivity].
  apply for_blocks_acc. exact Hb.
Qed.

Lemma entity_of_block_appending : appending entity_of_block.
Proof.
  intros block acc. unfold entity_of_block.
  destruct (search (quoted_field_re (py "name")) block) as [n|];
    destruct (search (number_field_re (py "x")) block) as [x|];
    destruct (search (number_field_re (py "y")) block) as [y|];
    cbn [bind]; rewrite ?app_nil_r; try reflexivity.
  destruct (py_float x); cbn [bind]; [|reflexivity].
  destruct (py_float y); reflexivity.
Qed.


(** Decoding a closed text followed by a complete block followed by
    anything: the three parts are decoded on their own. *)
Lemma for_blocks_split {A} (body : str -> list A -> result (list A))
      (pre inner post : str) :
  appending body ->
  closed pre = true -> inner <> [] -> forallb not_rbrace inner = true ->
  for_blocks body
    (findall block_re (pre ++ (py "{" ++ inner ++ py "}") ++ post)) []
  = (before <- for_blocks body (findall block_re pre) [] ;;
     this <- body (py "{" ++ inner ++ py "}") [] ;;
     after <- for_blocks body (findall block_re post) [] ;;
     Ok (before ++ this ++ after)).
Proof.
  intros Hb Hpre Hne Hin.
  rewrite (findall_block_app _ _ Hpre).
  rewrite (findall_block_app _ post (closed_block inner)).
  rewrite (findall_block_one Hne Hin).
  rewrite (for_blocks_app Hb).
  destruct (for_blocks body (findall block_re pre) []) as [ra|e]; simpl;
    [|reflexivity].
  destruct (body (py "{" ++ inner ++ py "}") []) as [rb|e] eqn:Eb.
  - simpl in Eb. rewrite Eb. simpl.
    rewrite (for_blocks_acc Hb).
    destruct (for_blocks body (findall block_re post) []); reflexivity.
  - simpl in Eb. rewrite Eb. reflexivity.
Qed.

End DecoderFacts.

(** ** The field patterns on a rendered field *)

Section FieldFacts.
Import re Patterns.

Lemma chr_eqb_sym (a b : ascii) : chr_eqb a b = chr_eqb b a.
Proof. apply Ascii.eqb_sym. Qed.

Lemma chr_eqb_true (a b : ascii) : chr_eqb a b = true -> a = b.
Proof. apply Ascii.eqb_eq. Qed.

Lemma lit_app (k s : str) : lit k (k ++ s) = Some s.
Proof.
  induction k as [|c k IH]; simpl; [reflexivity|].
  unfold chr_eqb. now rewrite Ascii.eqb_refl.
Qed.

Lemma search_silent {G} (m : matcher G) (pre s : str) :
  silent m pre -> search m (pre ++ s) = search m s.
Proof.
  induction pre as [|c t IH]; intros Hs; [reflexivity|].
  assert (E : m ((c :: t) ++ s) = None)
    by (apply (Hs [] (c :: t) s); [reflexivity|discriminate]).
  change ((c :: t) ++ s) with (c :: t ++ s) in *.
  rewrite (search_cons_None m c (t ++ s) E). apply IH.
  intros a b s' Heq Hne. apply (Hs (c :: a) b s'); [|exact Hne].
  now rewrite Heq.
Qed.

Lemma silent_app {G} (m : matcher G) (p1 p2 : str) :
  silent m p1 -> silent m p2 -> silent m (p1 ++ p2).
Proof.
  intros H1 H2 a. revert p1 H1. induction a as [|x a IH];
    intros p1 H1 b s Heq Hne.
  - simpl in Heq. subst b. destruct p1 as [|c p1].
    + apply (H2 [] p2 s); [reflexivity|exact Hne].
    + rewrite <- app_assoc.
      apply (H1 [] (c :: p1) (p2 ++ s)); [reflexivity|discriminate].
  - destruct p1 as [|c p1].
    + apply (H2 (x :: a) b s); [exact Heq|exact Hne].
    + simpl in Heq. injection Heq as -> Heq.
      apply (IH p1); [|exact Heq|exact Hne].
      intros a' b' s' Heq' Hne'. apply (H1 (x :: a') b' s'); [|exact Hne'].
      now rewrite Heq'.
Qed.

Lemma headless_app (k : ascii) (a b : str) :
  headless k (a ++ b) = headless k a && headless k b.
Proof. apply forallb_app. Qed.

(** Characters of a class that does not hold [k] are not [k]. *)
Lemma headless_class (p : ascii -> bool) (k : ascii) (w : str) :
  p k = false -> forallb p w = true -> headless k w = true.
Proof.
  intros Hk. induction w as [|c w IH]; simpl; [trivial|].
  intros Hw. apply andb_true_iff in Hw. destruct Hw as [Hc Hw].
  rewrite (IH Hw), andb_true_r.
  destruct (chr_eqb c k) eqn:E; [|reflexivity].
  apply chr_eqb_true in E. congruence.
Qed.

Lemma number_re_head (k : ascii) (key : str) (c : ascii) (s : str) :
  chr_eqb c k = false -> number_field_re (k :: key) (c :: s) = None.
Proof.
  intros E. unfold number_field_re. simpl.
  now rewrite chr_eqb_sym, E.
Qed.

Lemma quoted_re_head (k : ascii) (key : str) (c : ascii) (s : str) :
  chr_eqb c k = false -> quoted_field_re (k :: key) (c :: s) = None.
Proof.
  intros E. unfold quoted_field_re. simpl.
  now rewrite chr_eqb_sym, E.
Qed.

Lemma headless_suffix (k : ascii) (a : str) (c : ascii) (b : str) :
  headless k (a ++ c :: b) = true -> chr_eqb c k = false.
Proof.
  rewrite headless_app. simpl. intros Hh.
  apply andb_true_iff in Hh. destruct Hh as [_ Hh].
  apply andb_true_iff in Hh. destruct Hh as [Hh _].
  now apply negb_true_iff in Hh.
Qed.

Lemma headless_silent_number (k : ascii) (key pre : str) :
  headless k pre = true -> silent (number_field_re (k :: key)) pre.
Proof.
  intros Hh a b s -> Hne. destruct b as [|c b]; [contradiction|].
  apply number_re_head. exact (headless_suffix _ _ _ _ Hh).
Qed.

Lemma headless_silent_quoted (k : ascii) (key pre : str) :
  headless k pre = true -> silent (quoted_field_re (k :: key)) pre.
Proof.
  intros Hh a b s -> Hne. destruct b as [|c b]; [contradiction|].
  apply quoted_re_head. exact (headless_suffix _ _ _ _ Hh).
Qed.

(** After the whitespace inside a plain value comes a character that
    is not the equals sign. *)
Lemma drop_space_plain (v : str) (c : ascii) (s : str) :
  plain v = true -> is_space c = false -> chr_eqb c "=" = false ->
  exists e t, drop_while is_space (v ++ c :: s) = e :: t
              /\ chr_eqb e "=" = false.
Proof.
  intros Hv Hc Hce. induction v as [|d v IH]; simpl.
  - rewrite Hc. now exists c, s.
  - simpl in Hv. apply andb_true_iff in Hv. destruct Hv as [Hd Hv].
    destruct (is_space d); [exact (IH Hv)|].
    exists d, (v ++ c :: s). split; [reflexivity|].
    unfold plain_char in Hd. apply andb_true_iff in Hd.
    destruct Hd as [_ Hd]. now apply negb_true_iff in Hd.
Qed.

(** A one-letter key pattern finds nothing inside a quoted plain
    value. *)
Lemma value_silent_number (k : ascii) (v : str) :
  chr_eqb dq k = false -> plain v = true ->
  silent (number_field_re [k]) (v ++ [dq]).
Proof.
  intros Hk Hv a b s Heq Hne. destruct b as [|c b]; [contradiction|].
  destruct (chr_eqb c k) eqn:Ec; [|now apply number_re_head].
  apply chr_eqb_true in Ec. subst c.
  destruct (exists_last (l := k :: b)) as [l' [x Hl]]; [discriminate|].
  rewrite Hl in Heq. rewrite app_assoc in Heq.
  apply app_inj_tail in Heq. destruct Heq as [Hv' <-].
  destruct l' as [|k' l'].
  - simpl in Hl. injection Hl as Hkx _. subst k.
    unfold chr_eqb in Hk. rewrite Ascii.eqb_refl in Hk. discriminate.
  - simpl in Hl. injection Hl as <- ->.
    assert (Hl' : plain l' = true).
    { subst v. unfold plain in Hv. rewrite forallb_app in Hv.
      apply andb_true_iff in Hv. destruct Hv as [_ Hv]. simpl in Hv.
      apply andb_true_iff in Hv. apply Hv. }
    unfold number_field_re. simpl. unfold chr_eqb at 1.
    rewrite Ascii.eqb_refl. rewrite <- app_assoc. simpl.
    destruct (drop_space_plain l' dq s Hl' eq_refl eq_refl)
      as [e [t [-> He]]].
    now rewrite He.
Qed.

Lemma drop_space_stop (w : str) (c : ascii) (s : str) :
  all_space w = true -> is_space c = false ->
  drop_while is_space (w ++ c :: s) = c :: s.
Proof. intros Hw Hc. now apply take_while_stop. Qed.

Lemma num_not_space (c : ascii) :
  is_num_char c = true -> is_space c = false.
Proof.
  destruct c as [[] [] [] [] [] [] [] []]; vm_compute;
    try reflexivity; discriminate.
Qed.

Lemma space_not_rbrace (c : ascii) :
  is_space c = true -> not_rbrace c = true.
Proof.
  destruct c as [[] [] [] [] [] [] [] []]; vm_compute;
    try reflexivity; discriminate.
Qed.

Lemma num_not_rbrace (c : ascii) :
  is_num_char c = true -> not_rbrace c = true.
Proof.
  destruct c as [[] [] [] [] [] [] [] []]; vm_compute;
    try reflexivity; discriminate.
Qed.

Lemma forallb_impl (p p' : ascii -> bool) (w : str) :
  (forall c, p c = true -> p' c = true) ->
  forallb p w = true -> forallb p' w = true.
Proof.
  intros Hpp. induction w as [|c w IH]; simpl; [trivial|].
  intros Hw. apply andb_true_iff in Hw. destruct Hw as [Hc Hw].
  now rewrite (Hpp c Hc), (IH Hw).
Qed.

(** The number pattern at the start of its own field. *)
Lemma number_hit (key w1 w2 v : str) (c : ascii) (rest : str) :
  all_space w1 = true -> all_space w2 = true ->
  v <> [] -> all_num v = true -> is_num_char c = false ->
  number_field_re key (number_field key w1 w2 v ++ c :: rest)
  = Some (v, c :: rest).
Proof.
  intros H1 H2 Hne Hv Hc. unfold number_field_re, number_field.
  rewrite <- !app_assoc, lit_app. simpl.
  rewrite (drop_space_stop w1 "="%char _ H1 eq_refl).
  change (chr_eqb "=" "=") with true. cbv iota.
  destruct v as [|d v]; [contradiction|].
  assert (Hd : is_space d = false).
  { apply num_not_space. simpl in Hv. apply andb_true_iff in Hv. apply Hv. }
  rewrite <- app_comm_cons. rewrite (drop_space_stop w2 d _ H2 Hd).
  change (d :: v ++ c :: rest) with ((d :: v) ++ c :: rest).
  destruct (take_while_stop is_num_char (d :: v) c rest Hv Hc) as [-> ->].
  reflexivity.
Qed.

(** The quoted pattern at the start of its own field. *)
Lemma quoted_hit (key w1 w2 v rest : str) :
  all_space w1 = true -> all_space w2 = true ->
  v <> [] -> forallb (fun c => negb (is_quote c)) v = true ->
  quoted_field_re key (quoted_field key w1 w2 v ++ rest) = Some (v, rest).
Proof.
  intros H1 H2 Hne Hv. unfold quoted_field_re, quoted_field.
  rewrite <- !app_assoc, lit_app. simpl.
  rewrite (drop_space_stop w1 "="%char _ H1 eq_refl).
  change (chr_eqb "=" "=") with true. cbv iota.
  rewrite (drop_space_stop w2 dq _ H2 eq_refl).
  change (is_quote dq) with true. cbv iota.
  destruct (take_while_stop (fun c => negb (is_quote c)) v dq rest Hv eq_refl)
    as [-> ->].
  destruct v as [|d v]; [contradiction|]. reflexivity.
Qed.

End FieldFacts.

(** ** The decoders on concrete replies *)

Section DecoderExamples.
Import re Patterns FactorioTools.

Example blocks_of_list :
  findall block_re (q "{{name = 'a', x = 1, y = 2}, {name = 'b', x = 3, y = 4}}")
  = [q "{{name = 'a', x = 1, y = 2}"; q "{name = 'b', x = 3, y = 4}"].
Proof. reflexivity. Qed.

Example entity_list_of_two :
  _parse_entity_list
    (q "{{name = 'iron-chest', x = 1.5, y = -2}, {y = 4, x = 3, name = 'b'}}")
  = Ok [mk_EntityInfo (py "iron-chest") (15%Z, 1) ((-2)%Z, 0);
        mk_EntityInfo (py "b") (3%Z, 0) (4%Z, 0)].
Proof. reflexivity. Qed.

Example entity_list_bad_number :
  _parse_entity_list (q "{name = 'a', x = 1.2.3, y = 2}")
  = Raise (mk_exn (py "ValueError")
             (py "could not convert string to float: '1.2.3'")).
Proof. reflexivity. Qed.

Example inventory_of_two :
  _parse_inventory (q "{{count = 12, name = 'coal'}, {count = 1, name = 'wood'}}")
  = [mk_InventoryItem (py "coal") 12; mk_InventoryItem (py "wood") 1].
Proof. reflexivity. Qed.

Example py_int_examples :
  py_int (py " 42 ") = Ok 42%Z /\ py_int (py "-7") = Ok (-7)%Z
  /\ py_int (py "1_000") = Ok 1000%Z
  /\ py_int (py "4x")
     = Raise (mk_exn (py "ValueError")
                (py "invalid literal for int() with base 10: '4x'")).
Proof. repeat split; reflexivity. Qed.

End DecoderExamples.

(** ** One entity record, in any field order *)

Section RecordFacts.
Import re Patterns FactorioTools.
Context `{Floats}.

Lemma headless_space (k : ascii) (w : str) :
  is_space k = false -> all_space w = true -> headless k w = true.
Proof. apply headless_class. Qed.

Lemma headless_number_field (k : ascii) (key w1 w2 v : str) :
  headless k key = true -> is_space k = false ->
  chr_eqb "=" k = false -> is_num_char k = false ->
  all_space w1 = true -> all_space w2 = true -> all_num v = true ->
  headless k (number_field key w1 w2 v) = true.
Proof.
  intros Hkey Hs He Hn H1 H2 Hv. unfold number_field.
  rewrite !headless_app, Hkey, (headless_space k w1 Hs H1),
    (headless_space k w2 Hs H2), (headless_class is_num_char k v Hn Hv).
  change (headless k (py "=")) with (negb (chr_eqb "=" k) && true).
  now rewrite He.
Qed.

Lemma silent_number_over_quoted (k : ascii) (key w1 w2 v : str) :
  headless k key = true -> is_space k = false ->
  chr_eqb "=" k = false -> chr_eqb dq k = false ->
  all_space w1 = true -> all_space w2 = true -> plain v = true ->
  silent (number_field_re [k]) (quoted_field key w1 w2 v).
Proof.
  intros Hkey Hs He Hq H1 H2 Hv. unfold quoted_field.
  replace (key ++ w1 ++ py "=" ++ w2 ++ [dq] ++ v ++ [dq])
    with ((key ++ w1 ++ py "=" ++ w2 ++ [dq]) ++ (v ++ [dq]))
    by (now rewrite <- !app_assoc).
  apply silent_app; [|now apply value_silent_number].
  apply headless_silent_number.
  rewrite !headless_app, Hkey, (headless_space k w1 Hs H1),
    (headless_space k w2 Hs H2).
  change (headless k (py "=")) with (negb (chr_eqb "=" k) && true).
  change (headless k [dq]) with (negb (chr_eqb dq k) && true).
  now rewrite He, Hq.
Qed.

Lemma plain_not_quote (v : str) :
  plain v = true -> forallb (fun c => negb (is_quote c)) v = true.
Proof.
  apply forallb_impl. intros c Hc. unfold plain_char in Hc.
  apply andb_true_iff in Hc. destruct Hc as [Hc _].
  apply andb_true_iff in Hc. apply Hc.
Qed.

Lemma plain_not_rbrace (v : str) :
  plain v = true -> forallb not_rbrace v = true.
Proof.
  apply forallb_impl. intros c Hc. unfold plain_char in Hc.
  apply andb_true_iff in Hc. destruct Hc as [Hc _].
  apply andb_true_iff in Hc. apply Hc.
Qed.

Lemma quoted_field_not_rbrace (key w1 w2 v : str) :
  forallb not_rbrace key = true ->
  all_space w1 = true -> all_space w2 = true -> plain v = true ->
  forallb not_rbrace (quoted_field key w1 w2 v) = true.
Proof.
  intros Hk H1 H2 Hv. unfold quoted_field.
  rewrite !forallb_app, Hk, (forallb_impl _ _ _ space_not_rbrace H1),
    (forallb_impl _ _ _ space_not_rbrace H2), (plain_not_rbrace _ Hv).
  reflexivity.
Qed.

Lemma number_field_not_rbrace (key w1 w2 v : str) :
  forallb not_rbrace key = true ->
  all_space w1 = true -> all_space w2 = true -> all_num v = true ->
  forallb not_rbrace (number_field key w1 w2 v) = true.
Proof.
  intros Hk H1 H2 Hv. unfold number_field.
  rewrite !forallb_app, Hk, (forallb_impl _ _ _ space_not_rbrace H1),
    (forallb_impl _ _ _ space_not_rbrace H2),
    (forallb_impl _ _ _ num_not_rbrace Hv).
  reflexivity.
Qed.

Ltac silence :=
  first
    [ apply silent_number_over_quoted; solve [reflexivity | assumption]
    | apply headless_silent_number; apply headless_number_field;
      solve [reflexivity | assumption]
    | apply headless_silent_quoted; apply headless_number_field;
      solve [reflexivity | assumption]
    | apply headless_silent_number; apply headless_space;
      solve [reflexivity | assumption]
    | apply headless_silent_quoted; apply headless_space;
      solve [reflexivity | assumption] ].

Ltac seek :=
  first
    [ erewrite search_here;
      [reflexivity
      | first [apply number_hit | apply quoted_hit];
        solve [assumption | reflexivity | now apply plain_not_quote]]
    | rewrite search_cons_None
        by (first [apply number_re_head | apply quoted_re_head];
            reflexivity)
    | rewrite search_silent by silence ].

Lemma entity_record_fields (o : order3) (s1 s2 w1 w2 w3 w4 w5 w6 n xs ys : str) :
  all_space s1 = true -> all_space s2 = true ->
  all_space w1 = true -> all_space w2 = true ->
  all_space w3 = true -> all_space w4 = true ->
  all_space w5 = true -> all_space w6 = true ->
  n <> [] -> plain n = true ->
  xs <> [] -> all_num xs = true -> ys <> [] -> all_num ys = true ->
  let block := arrange o s1 s2 (name_field w1 w2 n) (x_field w3 w4 xs)
                 (y_field w5 w6 ys) in
  search (quoted_field_re (py "name")) block = Some n
  /\ search (number_field_re (py "x")) block = Some xs
  /\ search (number_field_re (py "y")) block = Some ys.
Proof.
  intros Hs1 Hs2 H1 H2 H3 H4 H5 H6 Hn Hpn Hx Hax Hy Hay block.
  subst block. unfold name_field, x_field, y_field.
  change (py "x") with ["x"%char]. change (py "y") with ["y"%char].
  change (py "name") with ("n"%char :: py "ame").
  destruct o; unfold arrange, record3; repeat split; repeat seek.
Qed.

Lemma record3_shape (s1 s2 a b c : str) :
  record3 s1 s2 a b c
  = py "{" ++ (a ++ ","%char :: s1 ++ b ++ ","%char :: s2 ++ c) ++ py "}".
Proof.
  unfold record3. simpl. f_equal.
  rewrite <- app_assoc. simpl. rewrite <- !app_assoc. simpl.
  now rewrite <- !app_assoc.
Qed.

Lemma record3_one_block (s1 s2 a b c : str) :
  all_space s1 = true -> all_space s2 = true ->
  forallb not_rbrace a = true -> forallb not_rbrace b = true ->
  forallb not_rbrace c = true ->
  findall block_re (record3 s1 s2 a b c) = [record3 s1 s2 a b c].
Proof.
  intros Hs1 Hs2 Ha Hb Hc. rewrite record3_shape.
  apply findall_block_one.
  - intros E. apply app_eq_nil in E. destruct E as [_ E]. discriminate.
  - rewrite forallb_app. simpl. rewrite !forallb_app. simpl.
    rewrite forallb_app.
    now rewrite Ha, Hb, Hc, (forallb_impl _ _ _ space_not_rbrace Hs1),
      (forallb_impl _ _ _ space_not_rbrace Hs2).
Qed.

(** An entity record is read back whatever the order of its fields
    and the whitespace around the equals signs and after the commas. *)
Lemma entity_record_decodes
      (o : order3) (s1 s2 w1 w2 w3 w4 w5 w6 n xs ys : str) :
  all_space s1 = true -> all_space s2 = true ->
  all_space w1 = true -> all_space w2 = true ->
  all_space w3 = true -> all_space w4 = true ->
  all_space w5 = true -> all_space w6 = true ->
  n <> [] -> plain n = true ->
  xs <> [] -> all_num xs = true -> ys <> [] -> all_num ys = true ->
  let block := arrange o s1 s2 (name_field w1 w2 n) (x_field w3 w4 xs)
                 (y_field w5 w6 ys) in
  findall block_re block = [block]
  /\ forall acc,
      entity_of_block block acc
      = (fx <- py_float xs ;; fy <- py_float ys ;;
         Ok (acc ++ [mk_EntityInfo n fx fy])).
Proof.
  intros Hs1 Hs2 H1 H2 H3 H4 H5 H6 Hn Hpn Hx Hax Hy Hay block.
  destruct (@entity_record_fields o s1 s2 w1 w2 w3 w4 w5 w6 n xs ys)
    as [En [Ex Ey]]; try assumption.
  fold block in En, Ex, Ey. split.
  - assert (Fn : forallb not_rbrace (name_field w1 w2 n) = true)
      by (apply quoted_field_not_rbrace; solve [reflexivity|assumption]).
    assert (Fx : forallb not_rbrace (x_field w3 w4 xs) = true)
      by (apply number_field_not_rbrace; solve [reflexivity|assumption]).
    assert (Fy : forallb not_rbrace (y_field w5 w6 ys) = true)
      by (apply number_field_not_rbrace; solve [reflexivity|assumption]).
    subst block. destruct o; unfold arrange;
      apply record3_one_block; assumption.
  - intros acc. unfold entity_of_block. now rewrite En, Ex, Ey.
Qed.

Lemma entity_record_alone
      (o : order3) (s1 s2 w1 w2 w3 w4 w5 w6 n xs ys : str) :
  all_space s1 = true -> all_space s2 = true ->
  all_space w1 = true -> all_space w2 = true ->
  all_space w3 = true -> all_space w4 = true ->
  all_space w5 = true -> all_space w6 = true ->
  n <> [] -> plain n = true ->
  xs <> [] -> all_num xs = true -> ys <> [] -> all_num ys = true ->
  _parse_entity_list
    (arrange o s1 s2 (name_field w1 w2 n) (x_field w3 w4 xs)
       (y_field w5 w6 ys))
  = (fx <- py_float xs ;; fy <- py_float ys ;;
     Ok [mk_EntityInfo n fx fy]).
Proof.
  intros Hs1 Hs2 H1 H2 H3 H4 H5 H6 Hn Hpn Hx Hax Hy Hay.
  destruct (@entity_record_decodes o s1 s2 w1 w2 w3 w4 w5 w6 n xs ys)
    as [Eb Ee]; try assumption.
  unfold _parse_entity_list. rewrite Eb. cbn [for_blocks].
  rewrite Ee. destruct (py_float xs); [|reflexivity].
  destruct (py_float ys); reflexivity.
Qed.

End RecordFacts.

(** ** The inventory pattern *)

Section InventoryFacts.
Import re Patterns FactorioTools.

Lemma digit_not_space (c : ascii) :
  is_digit c = true -> is_space c = false.
Proof.
  destruct c as [[] [] [] [] [] [] [] []]; vm_compute;
    try reflexivity; discriminate.
Qed.

Lemma findall_whole {G} (m : matcher G) (s : str) (g : G) :
  m s = Some (g, []) -> m [] = None -> findall m s = [g].
Proof.
  intros E E0. unfold findall. simpl. rewrite E. f_equal.
  destruct (length s); simpl; [reflexivity|]. now rewrite E0.
Qed.

Lemma inventory_re_hit (w1 w2 w3 w4 w5 digits n : str) :
  all_space w1 = true -> all_space w2 = true -> all_space w3 = true ->
  all_space w4 = true -> all_space w5 = true ->
  digits <> [] -> all_digit digits = true ->
  n <> [] -> forallb (fun c => negb (is_quote c)) n = true ->
  inventory_re (inventory_record w1 w2 w3 w4 w5 digits n)
  = Some ((digits, n), []).
Proof.
  intros H1 H2 H3 H4 H5 Hd Had Hn Hqn.
  destruct digits as [|d digits]; [contradiction|].
  assert (Hds : is_space d = false).
  { apply digit_not_space. simpl in Had. apply andb_true_iff in Had.
    apply Had. }
  unfold inventory_re, inventory_record.
  cbn [py list_ascii_of_string app lit chr_eqb Ascii.eqb Bool.eqb andb].
  rewrite (drop_space_stop w1 "="%char _ H1 eq_refl).
  cbn [chr_eqb Ascii.eqb Bool.eqb andb].
  rewrite (drop_space_stop w2 d _ H2 Hds).
  match goal with
  | |- context [take_while is_digit (d :: digits ++ ","%char :: ?r)] =>
      change (d :: digits ++ ","%char :: r)
        with ((d :: digits) ++ ","%char :: r);
      destruct (take_while_stop is_digit (d :: digits) ","%char r
                  Had eq_refl) as [-> ->]
  end.
  cbn [lit chr_eqb Ascii.eqb Bool.eqb andb].
  rewrite (drop_space_stop w3 "n"%char _ H3 eq_refl).
  cbn [lit chr_eqb Ascii.eqb Bool.eqb andb].
  rewrite (drop_space_stop w4 "="%char _ H4 eq_refl).
  cbn [lit chr_eqb Ascii.eqb Bool.eqb andb].
  rewrite (drop_space_stop w5 dq _ H5 eq_refl).
  change (chr_eqb dq dq) with true. cbv iota.
  change (n ++ [dq; "}"%char]) with (n ++ dq :: ["}"%char]).
  destruct (take_while_stop (fun c => negb (is_quote c)) n dq ["}"%char]
              Hqn eq_refl) as [-> ->].
  destruct n as [|c n]; [contradiction|]. reflexivity.
Qed.

Lemma inventory_record_decodes (w1 w2 w3 w4 w5 digits n : str) :
  all_space w1 = true -> all_space w2 = true -> all_space w3 = true ->
  all_space w4 = true -> all_space w5 = true ->
  digits <> [] -> all_digit digits = true ->
  n <> [] -> forallb (fun c => negb (is_quote c)) n = true ->
  _parse_inventory (inventory_record w1 w2 w3 w4 w5 digits n)
  = [mk_InventoryItem n (int_of_digits digits)].
Proof.
  intros H1 H2 H3 H4 H5 Hd Had Hn Hqn. unfold _parse_inventory.
  rewrite (findall_whole inventory_re _
             (inventory_re_hit w1 w2 w3 w4 w5 H1 H2 H3 H4 H5 Hd Had Hn Hqn)
             eq_refl).
  reflexivity.
Qed.

End InventoryFacts.

(** ** The transport *)

Section TransportFacts.
Import RCONWrapper.
Context {C : Channel}.

(** C10. On a transport whose connection handle is already set,
    [connect] returns without error, opens no new session (the remote
    side is not touched) and leaves the handle and the host, port
    and password as they were. *)
Theorem connect_when_connected (h : str) (p : Z) (pw : str) (c : client)
        (r : remote) :
  connect (mk h p pw (Some c), r) = (Ok tt, (mk h p pw (Some c), r)).
Proof. reflexivity. Qed.

(** C7. When the channel fails during [send_command] on a connected
    transport, the call raises the connection-lost error and leaves
    the handle cleared; the remote side is in the state the one
    failed delivery left it in (nothing is sent again), and a further
    [send_command] is refused without reaching the channel. *)
Theorem send_failure_disconnects (self : t) (c : client) (command : str)
        (r r' : remote) (e : exn) :
  _client self = Some c ->
  client_send c command r = (Raise e, r') ->
  send_command command (self, r)
  = (Raise (ConnectionError (py "Connection lost: " ++ exn_msg e)),
     (set_client self None, r'))
  /\ connected (set_client self None) = false
  /\ forall next,
      send_command next (set_client self None, r')
      = (Raise (ConnectionError (py "Not connected to server")),
         (set_client self None, r')).
Proof.
  intros Hc Hs. unfold send_command. rewrite Hc, Hs.
  repeat split; reflexivity.
Qed.

End TransportFacts.

Lemma send_failure_disconnects_witness :
  RCONWrapper.send_command (py "/version") (Scripted.connected_to [])
  = (Raise (RCONWrapper.ConnectionError (py "Connection lost: connection reset")),
     (RCONWrapper.mk (py "localhost") 27015 (py "test123") None,
      Scripted.mk_remote [] [py "/version"] 0)).
Proof.
  exact (proj1 (@send_failure_disconnects Scripted.channel
                  (fst (Scripted.connected_to [])) tt (py "/version")
                  (snd (Scripted.connected_to []))
                  (Scripted.mk_remote [] [py "/version"] 0)
                  Scripted.link_error eq_refl eq_refl)).
Defined.

(** ** Listing entities *)

Section ListEntitiesFacts.
Import RCONWrapper FactorioTools.
Context {F : Floats} {C : Channel}.

Lemma list_entities_sends (entity_type : str) (limit : Z) (self : t)
      (c : client) (r : remote) :
  _client self = Some c ->
  list_entities entity_type limit (self, r)
  = match client_send c (list_entities_command entity_type limit) r with
    | (Ok reply, r') =>
        match reply with
        | Some ((_ :: _) as text) =>
            if _is_lua_error text
            then (Raise (CommandError (py "Lua error: " ++ text)), (self, r'))
            else (_parse_entity_list text, (self, r'))
        | _ => (Ok [], (self, r'))
        end
    | (Raise e, r') =>
        (Raise (ConnectionError (py "Connection lost: " ++ exn_msg e)),
         (set_client self None, r'))
    end.
Proof.
  intros Hc.
  unfold list_entities, query_lua_table, execute_lua, mbind, send_command.
  rewrite Hc.
  change (py "/c " ++ py "rcon.print(serpent.line("
            ++ replace_newlines (strip (list_entities_lua entity_type limit))
            ++ py "))")
    with (list_entities_command entity_type limit).
  destruct (client_send c (list_entities_command entity_type limit) r)
    as [[[[|ch text]|]|e] r']; try reflexivity.
  destruct (_is_lua_error (ch :: text)); reflexivity.
Qed.

(** C8. When the reply to the entity listing stands for no entity
    (no reply, an empty reply, or the empty table [{}]),
    [list_entities] returns the empty list: a value, not an error,
    and with the connection as it was. *)
Theorem list_entities_empty_reply (entity_type : str) (limit : Z)
        (self : t) (c : client) (r r' : remote) (reply : option str) :
  _client self = Some c ->
  client_send c (list_entities_command entity_type limit) r
  = (Ok reply, r') ->
  reply = None \/ reply = Some [] \/ reply = Some (py "{}") ->
  list_entities entity_type limit (self, r) = (Ok [], (self, r')).
Proof.
  intros Hc Hs Hr. rewrite (list_entities_sends entity_type limit self r Hc), Hs.
  destruct Hr as [->|[->| ->]]; reflexivity.
Qed.

End ListEntitiesFacts.

Lemma list_entities_empty_reply_witness :
  FactorioTools.list_entities (py "container") 10
    (Scripted.connected_to [Ok (Some (py "{}"))])
  = (Ok [],
     (fst (Scripted.connected_to []),
      Scripted.mk_remote []
        [list_entities_command (py "container") 10] 0)).
Proof.
  exact (@list_entities_empty_reply decimal_floats Scripted.channel
           (py "container") 10 (fst (Scripted.connected_to [])) tt
           (snd (Scripted.connected_to [Ok (Some (py "{}"))]))
           (Scripted.mk_remote []
              [list_entities_command (py "container") 10] 0)
           (Some (py "{}")) eq_refl eq_refl
           (or_intror (or_intror eq_refl))).
Defined.

Example list_entities_command_text :
  list_entities_command (py "tree") 10
  = py "/c rcon.print(serpent.line((function()     local entities = game.surfaces[1].find_entities_filtered{type="
      ++ [dq] ++ py "tree" ++ [dq]
      ++ py "}     local result = {}     local count = 0     for _, e in pairs(entities) do         if count >= 10 then break end         table.insert(result, {name=e.name, x=e.position.x, y=e.position.y})         count = count + 1     end     return result end)()))".
Proof. reflexivity. Qed.

(** ** The command encoder *)

Section EncoderFacts.
Import FactorioTools.

Lemma lua_quoted_safe (v rest : str) :
  literal_safe v = true -> lua_quoted (v ++ dq :: rest) = Some (v, rest).
Proof.
  induction v as [|c v IH]; intros Hv; [reflexivity|].
  simpl in Hv. apply andb_true_iff in Hv. destruct Hv as [Hc Hv].
  apply andb_true_iff in Hc. destruct Hc as [Hc Hn].
  apply andb_true_iff in Hc. destruct Hc as [Hq Hb].
  apply negb_true_iff in Hq, Hb, Hn.
  cbn [app lua_quoted]. rewrite Hq, Hb, Hn, (IH Hv). reflexivity.
Qed.

Lemma literal_at_safe (prefix v rest : str) :
  literal_safe v = true ->
  literal_at prefix (prefix ++ v ++ dq :: rest) = Some (v, rest).
Proof.
  intros Hv. unfold literal_at. rewrite lit_app. now apply lua_quoted_safe.
Qed.

(** C2, as the code has it.  The encoder neither validates nor
    escapes a string parameter: it is put as it is between double
    quotes.  A value without double quote, backslash and line break
    cannot end the literal it is put in: the literal that opens at
    its place in the expression holds exactly the value, and the
    expression goes on after it as the template has it. *)
Theorem encoder_literal_holds_safe_value (v x y count : str) :
  literal_safe v = true ->
  literal_at (py "#game.surfaces[1].find_entities_filtered{name=" ++ [dq])
    (count_by_name_lua v) = Some (v, py "}")
  /\ literal_at (py "#game.surfaces[1].find_entities_filtered{type=" ++ [dq])
       (count_by_type_lua v) = Some (v, py "}")
  /\ literal_at (py "game.connected_players[1].begin_crafting{recipe=" ++ [dq])
       (craft_item_lua v count) = Some (v, py ", count=" ++ count ++ py "}")
  /\ literal_at (py "game.surfaces[1].can_place_entity{name=" ++ [dq])
       (can_place_lua v x y)
     = Some (v, py ", position={" ++ x ++ py "," ++ y ++ py "}, force="
                 ++ [dq] ++ py "player" ++ [dq] ++ py "}")
  /\ literal_at (py "game.surfaces[1].create_entity{name=" ++ [dq])
       (create_entity_lua v x y)
     = Some (v, py ", position={" ++ x ++ py "," ++ y ++ py "}, force="
                 ++ [dq] ++ py "player" ++ [dq] ++ py "}").
Proof.
  intros Hv.
  unfold count_by_name_lua, count_by_type_lua, craft_item_lua,
    can_place_lua, create_entity_lua.
  repeat split.
  - rewrite app_assoc. exact (literal_at_safe _ v (py "}") Hv).
  - rewrite app_assoc. exact (literal_at_safe _ v (py "}") Hv).
  - rewrite app_assoc. exact (literal_at_safe _ v _ Hv).
  - rewrite app_assoc. exact (literal_at_safe _ v _ Hv).
  - rewrite app_assoc. exact (literal_at_safe _ v _ Hv).
Qed.

End EncoderFacts.

Lemma encoder_literal_holds_safe_value_witness :
  literal_at (py "#game.surfaces[1].find_entities_filtered{name=" ++ [dq])
    (FactorioTools.count_by_name_lua (py "iron-chest"))
  = Some (py "iron-chest", py "}").
Proof.
  exact (proj1 (@encoder_literal_holds_safe_value (py "iron-chest")
                  (py "1.5") (py "-2") (py "1") eq_refl)).
Defined.

(** C2, as stated, fails: a value with a double quote ends the
    literal it is put in, and what follows the quote reaches the
    remote process as script text. *)
Lemma encoder_injection_counterexample :
  let v := py "x" ++ [dq] ++ py "} game.print(1) --" in
  literal_safe v = false
  /\ literal_at (py "#game.surfaces[1].find_entities_filtered{name=" ++ [dq])
       (FactorioTools.count_by_name_lua v)
     = Some (py "x", py "} game.print(1) --" ++ [dq] ++ py "}")
  /\ Scripted.received
       (snd (snd (FactorioTools.count_entities v
                    (Scripted.connected_to [Ok (Some (py "3"))]))))
     = [py "/c rcon.print(#game.surfaces[1].find_entities_filtered{name="
          ++ [dq] ++ py "x" ++ [dq] ++ py "} game.print(1) --" ++ [dq]
          ++ py "})"].
Proof. repeat split; reflexivity. Qed.

(** ** The dispatcher *)

Section DispatcherFacts.
Import FactorioAgent.
Context {F : Floats} {P : Python} {T : Facade}.

Lemma error_msg_prefix (e : exn) :
  starts_with (py "Error:") (error_msg e) = true.
Proof. reflexivity. Qed.

Lemma execute_tool_catches (name : str) (args : list (str * value))
      (w w' : game) (e : exn) :
  _call_tool name args w = (Raise e, w') ->
  _execute_tool name args w = (error_msg e, w').
Proof. intros E. unfold _execute_tool. now rewrite E. Qed.

Lemma execute_tool_catches_format (name : str) (args : list (str * value))
      (w w' : game) (v : value) (e : exn) :
  _call_tool name args w = (Ok v, w') -> _format_result v = Raise e ->
  _execute_tool name args w = (error_msg e, w').
Proof. intros E E'. unfold _execute_tool. now rewrite E, E'. Qed.

Lemma arg_item_found (args : list (str * value)) (key : str) (v : value)
      (w : game) :
  dict_get args key = Some v -> arg_item args key w = (Ok v, w).
Proof. intros E. unfold arg_item. now rewrite E. Qed.

Lemma arg_item_missing (args : list (str * value)) (key : str) (w : game) :
  dict_get args key = None -> arg_item args key w = (Raise (KeyError key), w).
Proof. intros E. unfold arg_item. now rewrite E. Qed.

Ltac string_chars s :=
  let t := eval cbn [py list_ascii_of_string] in (py s) in exact t.

Ltac have_arg E w :=
  let Hf := fresh in
  pose proof (arg_item_found _ _ w E) as Hf;
  cbn [py list_ascii_of_string] in Hf; rewrite Hf; clear Hf.

Ltac lacks_arg E w :=
  let Hf := fresh in
  pose proof (arg_item_missing _ _ w E) as Hf;
  cbn [py list_ascii_of_string] in Hf; rewrite Hf; clear Hf.

(** A handler that reads its arguments by subscript raises
    [KeyError] at the first key that is missing, before it touches
    the game. *)
Lemma call_tool_missing (name : str) (keys : list str)
      (args : list (str * value)) (k : str) (w : game) :
  In (name, keys) subscripted_arguments ->
  first_missing keys args = Some k ->
  _call_tool name args w = (Raise (KeyError k), w).
Proof.
  intros Hin Hk. unfold subscripted_arguments in Hin. cbn [In] in Hin.
  destruct Hin as [E|[E|[E|[E|[]]]]]; injection E as <- <-;
    cbn [first_missing py list_ascii_of_string] in Hk; unfold _call_tool;
    cbn [str_eqb py list_ascii_of_string chr_eqb Ascii.eqb Bool.eqb andb];
    unfold mbind.
  - destruct (dict_get args ["x"%char]) as [vx|] eqn:Ex.
    + have_arg Ex w.
      destruct (dict_get args ["y"%char]) as [vy|] eqn:Ey; [discriminate|].
      injection Hk as <-. now lacks_arg Ey w.
    + injection Hk as <-. now lacks_arg Ex w.
  - destruct (dict_get args ltac:(string_chars "item_name"%string)) as [vn|] eqn:En;
      [discriminate|].
    injection Hk as <-. now lacks_arg En w.
  - destruct (dict_get args ltac:(string_chars "name"%string)) as [vn|] eqn:En.
    + have_arg En w.
      destruct (dict_get args ["x"%char]) as [vx|] eqn:Ex.
      * have_arg Ex w.
        destruct (dict_get args ["y"%char]) as [vy|] eqn:Ey; [discriminate|].
        injection Hk as <-. now lacks_arg Ey w.
      * injection Hk as <-. now lacks_arg Ex w.
    + injection Hk as <-. now lacks_arg En w.
  - destruct (dict_get args ["x"%char]) as [vx|] eqn:Ex.
    + have_arg Ex w.
      destruct (dict_get args ["y"%char]) as [vy|] eqn:Ey; [discriminate|].
      injection Hk as <-. now lacks_arg Ey w.
    + injection Hk as <-. now lacks_arg Ex w.
Qed.

(** C4, as the code has it.  For the tools whose handler reads its
    arguments by subscript (get_entity_inventory, craft_item,
    place_entity, remove_entity), a call that lacks one of them
    returns the text [Error: KeyError: 'key'] for the first missing
    key and leaves the game untouched; and whatever the tool and its
    arguments, an exception raised by the operation or by the
    formatting of its result comes back as the text
    [Error: kind: message], never as an exception. *)
Theorem dispatch_turns_errors_into_results
        (name : str) (keys : list str) (args : list (str * value))
        (k : str) (w : game) :
  In (name, keys) subscripted_arguments ->
  first_missing keys args = Some k ->
  _execute_tool name args w
  = (py "Error: KeyError: '" ++ k ++ py "'", w)
  /\ starts_with (py "Error:") (fst (_execute_tool name args w)) = true
  /\ (forall name' args' w1 w2 e,
         _call_tool name' args' w1 = (Raise e, w2) ->
         _execute_tool name' args' w1
         = (py "Error: " ++ exn_kind e ++ py ": " ++ exn_msg e, w2))
  /\ (forall name' args' w1 w2 v e,
         _call_tool name' args' w1 = (Ok v, w2) ->
         _format_result v = Raise e ->
         _execute_tool name' args' w1
         = (py "Error: " ++ exn_kind e ++ py ": " ++ exn_msg e, w2)).
Proof.
  intros Hin Hk.
  pose proof (@execute_tool_catches name args w w (KeyError k)
                (@call_tool_missing name keys args k w Hin Hk)) as E.
  repeat split.
  - exact E.
  - now rewrite E.
  - intros name' args' w1 w2 e. apply execute_tool_catches.
  - intros name' args' w1 w2 v e. apply execute_tool_catches_format.
Qed.

End DispatcherFacts.

Lemma dispatch_turns_errors_into_results_witness :
  @FactorioAgent._execute_tool decimal_floats Scripted.python Scripted.facade (py "place_entity")
    [(py "name", VStr (py "iron-chest")); (py "y", VInt 2)]
    (Scripted.connected_to [])
  = (py "Error: KeyError: 'x'", Scripted.connected_to []).
Proof.
  exact (proj1 (@dispatch_turns_errors_into_results
                  decimal_floats Scripted.python Scripted.facade
                  (py "place_entity") [py "name"; py "x"; py "y"]
                  [(py "name", VStr (py "iron-chest")); (py "y", VInt 2)]
                  (py "x") (Scripted.connected_to [])
                  (or_intror (or_intror (or_introl eq_refl))) eq_refl)).
Defined.

(** C4, as stated, fails: [entity_type] is a required argument of
    count_entities, and a call without it is answered with the count
    of the default type, not with an error. *)
Lemma dispatch_default_counterexample :
  In (py "count_entities", [py "entity_type"]) required_arguments
  /\ first_missing [py "entity_type"] (@nil (str * value)) = Some (py "entity_type")
  /\ fst (@FactorioAgent._execute_tool decimal_floats Scripted.python Scripted.facade
            (py "count_entities") []
            (Scripted.connected_to [Ok (Some (py "5"))]))
     = py "5"
  /\ starts_with (py "Error:")
       (fst (@FactorioAgent._execute_tool decimal_floats Scripted.python Scripted.facade
            (py "count_entities") []
               (Scripted.connected_to [Ok (Some (py "5"))])))
     = false
  /\ Scripted.received
       (snd (snd (@FactorioAgent._execute_tool decimal_floats Scripted.python Scripted.facade
            (py "count_entities") []
                    (Scripted.connected_to [Ok (Some (py "5"))]))))
     = [py "/c rcon.print(#game.surfaces[1].find_entities_filtered{name="
          ++ [dq] ++ py "tree" ++ [dq] ++ py "})"].
Proof. repeat split; try reflexivity. simpl. now left. Qed.

(** ** The conversation loop *)

Section LoopFacts.
Import FactorioAgent.
Context {F : Floats} {P : Python} {T : Facade} {B : ChatBackend}.




(** Each tool call of a turn adds one message of role [tool], in the
    order of the calls. *)
Lemma run_tool_calls_messages (calls : list tool_call) (a : agent) :
  exists results,
    messages (run_tool_calls calls a)
    = messages a
        ++ map (fun res => mk_message (py "tool") (Some res) []) results
    /\ length results = length calls.
Proof.
  revert a. induction calls as [|c calls IH]; intros a.
  - exists []. cbn. now rewrite app_nil_r.
  - cbn [run_tool_calls].
    destruct (_execute_tool _ _ (world a)) as [res w].
    destruct (IH (mk_agent
                    (messages a ++ [mk_message (py "tool") (Some res) []])
                    w (model a) (turns a))) as [results [-> Hl]].
    exists (res :: results). cbn [messages map length].
    rewrite <- app_assoc. now rewrite Hl.
Qed.



(** When the loop returns, the history was trimmed after an
    assistant message was added. *)
Lemma chat_loop_returns_trimmed (config : Config) :
  forall n a reply a',
    chat_loop config n a = (Ok reply, a') ->
    exists more,
      messages a'
      = _trim_history config
          (messages a ++ more
             ++ [mk_message (py "assistant") (Some reply) []]).
Proof.
  induction n as [|n IH]; intros a reply a' E; cbn [chat_loop] in E.
  - injection E as <- <-. exists []. reflexivity.
  - destruct (llm_chat (messages a) (model a)) as [[response|e] b'];
      [|discriminate].
    destruct (recover_text_call _) as [[msg calls]|e]; [|discriminate].
    destruct calls as [|c calls].
    + injection E as <- <-. exists []. reflexivity.
    + apply IH in E. destruct E as [more E].
      destruct (run_tool_calls_messages (c :: calls)
                  (append_message
                     (mk_agent (messages a) (world a) b' (S (turns a))) msg))
        as [results [Hm _]].
      rewrite Hm in E. cbn [append_message set_messages messages] in E.
      exists ([msg]
                ++ map (fun res => mk_message (py "tool") (Some res) [])
                     results
                ++ more).
      rewrite E. f_equal. now rewrite <- !app_assoc.
Qed.

Lemma slice_from_last {A} (l : list A) (k : Z) :
  (0 < k <= Z.of_nat (length l))%Z ->
  length (slice_from l (- k)) = Z.to_nat k.
Proof.
  intros Hk. unfold slice_from.
  destruct (Z.ltb_spec (- k) 0) as [_|Hge]; [|lia].
  rewrite length_skipn. lia.
Qed.

(** With a cap of at least one, trimming keeps the first message and
    at most [cap] others. *)
Lemma trim_history_bound (config : Config) (first : message)
      (rest : list message) :
  (1 <= max_history_messages config)%Z ->
  exists kept,
    _trim_history config (first :: rest) = first :: kept
    /\ (Z.of_nat (length kept) <= max_history_messages config)%Z.
Proof.
  intros Hcap. unfold _trim_history.
  destruct (Z.leb_spec (Z.of_nat (length (first :: rest)) - 1)
              (max_history_messages config)) as [Hle|Hgt].
  - exists rest. split; [reflexivity|]. simpl length in Hle. lia.
  - exists (slice_from (first :: rest) (- max_history_messages config)).
    split; [reflexivity|].
    rewrite slice_from_last; lia.
Qed.

(** With a cap of zero the slice [messages[-0:]] is the whole list:
    nothing is dropped and the first message is added again. *)
Lemma trim_history_zero (config : Config) (ms : list message) :
  max_history_messages config = 0%Z -> 2 <= length ms ->
  _trim_history config ms = firstn 1 ms ++ ms.
Proof.
  intros Hcap Hlen. unfold _trim_history. rewrite Hcap.
  destruct (Z.leb_spec (Z.of_nat (length ms) - 1) 0) as [Hle|_]; [lia|].
  reflexivity.
Qed.

(** The bound of the history, where it holds: with a cap of at least
    one, every return of [chat] leaves the first message in place and
    at most [cap] messages after it. *)
Lemma chat_history_bound (config : Config) (user_message : str) (a : agent)
      (first : message) (rest : list message) (reply : str) (a' : agent) :
  (1 <= max_history_messages config)%Z ->
  messages a = first :: rest ->
  chat config user_message a = (Ok reply, a') ->
  exists kept,
    messages a' = first :: kept
    /\ (Z.of_nat (length kept) <= max_history_messages config)%Z.
Proof.
  intros Hcap Hm E. unfold chat in E.
  destruct (on_world _get_game_state a) as [state a1] eqn:Eg.
  assert (Hm1 : messages a1 = first :: rest).
  { unfold on_world in Eg. destruct (_get_game_state (world a)).
    injection Eg as _ <-. exact Hm. }
  apply chat_loop_returns_trimmed in E. destruct E as [more E].
  cbn [append_message set_messages messages] in E. rewrite Hm1 in E.
  rewrite E. cbn [app]. now apply trim_history_bound.
Qed.

(** The text form of a tool call is recovered on every turn. *)
Lemma recover_found (msg : message) (text func_name args_str : str)
      (args : list (str * value)) :
  content msg = Some text ->
  re.search text_call_re text = Some (func_name, args_str) ->
  json_loads_object args_str = Ok args ->
  recover_text_call msg
  = Ok (mk_message (py "assistant") (Some [])
          (tool_calls msg ++ [mk_call (Some func_name) (Some args)]),
        tool_calls msg ++ [mk_call (Some func_name) (Some args)]).
Proof.
  intros Ec Es Ej. unfold recover_text_call, _parse_text_tool_call.
  now rewrite Ec, Es, Ej.
Qed.

(** C9. On every turn the content of the answer is searched for the
    text form [name[ARGS]{...}] of a tool call, whether or not the
    answer carries structured calls.  When the form is found and its
    body reads as a JSON object, one call with that name and those
    arguments is added after the structured calls, the content is
    cleared, and the loop goes on with the merged calls.  The content
    [mine_resource[ARGS]{"count": 5}] without structured calls gives
    the single call of mine_resource with count = 5. *)
Theorem text_tool_call_is_recovered
        (msg : message) (text func_name args_str : str)
        (args : list (str * value))
        (config : Config) (n : nat) (a : agent) (b' : backend) :
  content msg = Some text ->
  re.search text_call_re text = Some (func_name, args_str) ->
  json_loads_object args_str = Ok args ->
  llm_chat (messages a) (model a) = (Ok (Some msg), b') ->
  let call := mk_call (Some func_name) (Some args) in
  let merged := tool_calls msg ++ [call] in
  recover_text_call msg
  = Ok (mk_message (py "assistant") (Some []) merged, merged)
  /\ chat_loop config (S n) a
     = chat_loop config n
         (run_tool_calls merged
            (append_message
               (mk_agent (messages a) (world a) b' (S (turns a)))
               (mk_message (py "assistant") (Some []) merged)))
  /\ re.search text_call_re (q "mine_resource[ARGS]{'count': 5}")
     = Some (py "mine_resource", q "{'count': 5}").
Proof.
  intros Ec Es Ej El call merged.
  pose proof (recover_found msg Ec Es Ej) as Er. fold call merged in Er.
  repeat split.
  - exact Er.
  - cbn [chat_loop]. rewrite El, Er.
    subst merged. destruct (tool_calls msg); reflexivity.
Qed.

End LoopFacts.

(** ** The loop on examples *)

Section LoopExamples.
Import FactorioAgent.



(** The same with a content that is null, as backends send it beside
    structured calls: [re.search] raises [TypeError]. *)
Example chat_on_a_null_content :
  let nulls := Scripted.insisting None in
  fst (@chat decimal_floats Scripted.python Scripted.facade nulls
         (mk_Config 3 20) (py "mine everything")
         (Sample.fresh nulls tt []))
  = Raise not_a_string.
Proof. reflexivity. Qed.

Lemma text_tool_call_is_recovered_witness :
  @recover_text_call decimal_floats Scripted.python
    (mk_message (py "assistant")
       (Some (q "mine_resource[ARGS]{'count': 5}")) [])
  = Ok (mk_message (py "assistant") (Some [])
          [mk_call (Some (py "mine_resource"))
             (Some [(py "count", VInt 5)])],
        [mk_call (Some (py "mine_resource")) (Some [(py "count", VInt 5)])]).
Proof.
  exact (proj1 (@text_tool_call_is_recovered decimal_floats Scripted.python
                  Scripted.facade Scripted.backend
                  (mk_message (py "assistant")
                     (Some (q "mine_resource[ARGS]{'count': 5}")) [])
                  (q "mine_resource[ARGS]{'count': 5}")
                  (py "mine_resource") (q "{'count': 5}")
                  [(py "count", VInt 5)] (mk_Config 5 20) 4
                  (Sample.fresh Scripted.backend
                     [Some (mk_message (py "assistant")
                              (Some (q "mine_resource[ARGS]{'count': 5}"))
                              [])] [])
                  [] eq_refl eq_refl eq_refl eq_refl)).
Defined.

(** A turn that carries a structured call and a call printed as text:
    both are run, the structured one first. *)
Example both_forms_in_one_turn :
  let answer :=
    mk_message (py "assistant") (Some (q "get_tick[ARGS]{}"))
      [mk_call (Some (py "count_entities"))
         (Some [(py "entity_type", VStr (py "tree"))])] in
  let a' :=
    snd (@chat decimal_floats Scripted.python Scripted.facade Scripted.backend
           (mk_Config 5 20) (py "how many trees?")
           (Sample.fresh Scripted.backend
              [Some answer; Sample.says (py "There are 7 trees.")]
              [Ok (Some (py "7")); Ok (Some (py "120"))])) in
  map (fun m => (role m, content m)) (messages a')
  = [(py "system", Some Sample.prompt);
     (py "user", Some (py "[GAME STATE: unavailable]" ++ [ascii_of_nat 10]
                         ++ py "how many trees?"));
     (py "assistant", Some []);
     (py "tool", Some (py "7"));
     (py "tool", Some (py "120"));
     (py "assistant", Some (py "There are 7 trees."))].
Proof. reflexivity. Qed.

(** C6 fails for a cap of zero: [messages[-0:]] is the whole history,
    so trimming drops nothing and puts the system message in front
    once more.  After one exchange the history holds four messages,
    the first two of which are the system message. *)
Lemma history_cap_zero_is_not_kept :
  let a' :=
    snd (@chat decimal_floats Scripted.python Scripted.facade Scripted.backend
           (mk_Config 5 0) (py "hi")
           (Sample.fresh Scripted.backend [Sample.says (py "Hello.")] [])) in
  length (messages a') = 4
  /\ nth_error (messages a') 0 = Some (system_message Sample.prompt)
  /\ nth_error (messages a') 1 = Some (system_message Sample.prompt)
  /\ 1 + 0 < length (messages a').
Proof.
  repeat split.
  change (1 + 0 < 4). lia.
Qed.

End LoopExamples.

(** ** Records among their siblings, and the order of fields *)

Section SiblingFacts.
Import re Patterns FactorioTools.
Context {F : Floats}.

Lemma nonempty_ne (s : str) : nonempty s = true -> s <> [].
Proof. destruct s; [discriminate|]. intros _. discriminate. Qed.

Ltac unbundle :=
  repeat match goal with
    | Hb : all_spaces _ = true |- _ =>
        unfold all_spaces in Hb; cbn [forallb] in Hb
    | Hb : name_ok _ = true |- _ => unfold name_ok in Hb
    | Hb : number_ok _ = true |- _ => unfold number_ok in Hb
    | Hb : digits_ok _ = true |- _ => unfold digits_ok in Hb
    | Hb : quotable _ = true |- _ => unfold quotable in Hb
    | Hb : _ && _ = true |- _ =>
        apply andb_true_iff in Hb; destruct Hb
    | Hb : nonempty _ = true |- _ => apply nonempty_ne in Hb
    end.

Lemma arrange_is_block (o : order3) (s1 s2 a b c : str) :
  all_space s1 = true -> all_space s2 = true ->
  forallb not_rbrace a = true -> forallb not_rbrace b = true ->
  forallb not_rbrace c = true ->
  exists inner,
    arrange o s1 s2 a b c = py "{" ++ inner ++ py "}"
    /\ inner <> [] /\ forallb not_rbrace inner = true.
Proof.
  intros Hs1 Hs2 Ha Hb Hc.
  assert (Hgen : forall a b c,
             forallb not_rbrace a = true -> forallb not_rbrace b = true ->
             forallb not_rbrace c = true ->
             exists inner,
               record3 s1 s2 a b c = py "{" ++ inner ++ py "}"
               /\ inner <> [] /\ forallb not_rbrace inner = true).
  { clear a b c Ha Hb Hc. intros a b c Ha Hb Hc.
    exists (a ++ ","%char :: s1 ++ b ++ ","%char :: s2 ++ c).
    split; [apply record3_shape|]. split.
    - intros E. apply app_eq_nil in E. destruct E as [_ E]. discriminate.
    - rewrite forallb_app. simpl. rewrite !forallb_app. simpl.
      rewrite forallb_app.
      now rewrite Ha, Hb, Hc, (forallb_impl _ _ _ space_not_rbrace Hs1),
        (forallb_impl _ _ _ space_not_rbrace Hs2). }
  destruct o; unfold arrange; apply Hgen; assumption.
Qed.

Lemma search_after_opens {G} (m : matcher G) (k : nat) (s : str) :
  (forall t, m ("{"%char :: t) = None) ->
  search m (repeat "{"%char k ++ s) = search m s.
Proof.
  intros Hm. induction k as [|k IH]; [reflexivity|].
  cbn [repeat app]. rewrite (search_cons_None m _ _ (Hm _)). exact IH.
Qed.

Lemma entity_of_block_opens (k : nat) (block : str)
      (acc : list EntityInfo) :
  entity_of_block (repeat "{"%char k ++ block) acc
  = entity_of_block block acc.
Proof.
  unfold entity_of_block.
  now rewrite !search_after_opens by (intros t; reflexivity).
Qed.


Lemma opens_block (k : nat) (inner : str) :
  repeat "{"%char k ++ py "{" ++ inner ++ py "}"
  = py "{" ++ (repeat "{"%char k ++ inner) ++ py "}".
Proof.
  change (py "{" ++ inner ++ py "}") with (["{"%char] ++ inner ++ py "}").
  rewrite app_assoc, <- repeat_cons. cbn [app].
  now rewrite <- app_assoc.
Qed.

Lemma opens_not_rbrace (k : nat) (inner : str) :
  forallb not_rbrace inner = true ->
  forallb not_rbrace (repeat "{"%char k ++ inner) = true.
Proof.
  intros Hin. induction k as [|k IH]; [exact Hin|].
  cbn [repeat app forallb]. now rewrite IH.
Qed.

(** Text that ends a record, and the separator after it, leave no
    block open. *)
Lemma closed_after_record (s sep : str) :
  existsb is_lbrace sep = false ->
  closed (s ++ "}"%char :: sep) = true.
Proof.
  intros Hsep.
  assert (Hc : closed sep = true).
  { induction sep as [|c sep IH]; [reflexivity|]. simpl in *.
    apply orb_false_iff in Hsep. destruct Hsep as [-> Hsep].
    now apply IH. }
  induction s as [|c s IH]; simpl.
  - exact Hc.
  - rewrite IH, andb_true_r. destruct (is_lbrace c); [|reflexivity].
    rewrite existsb_app. simpl. apply orb_true_r.
Qed.


(** C3, as the code has it.  An entity record is decoded to the same
    entity in each of the six orders of its fields and with any
    whitespace around the equals signs and after the commas; an
    inventory record is decoded when [count] comes before [name], as
    the serializer writes it, with any whitespace around the equals
    signs and after the comma. *)
Theorem entity_fields_in_any_order
        (o o' : order3)
        (s1 s2 w1 w2 w3 w4 w5 w6 s1' s2' w1' w2' w3' w4' w5' w6' : str)
        (n xs ys : str) (v1 v2 v3 v4 v5 digits item : str) :
  all_spaces [s1; s2; w1; w2; w3; w4; w5; w6] = true ->
  all_spaces [s1'; s2'; w1'; w2'; w3'; w4'; w5'; w6'] = true ->
  name_ok n = true -> number_ok xs = true -> number_ok ys = true ->
  all_spaces [v1; v2; v3; v4; v5] = true ->
  digits_ok digits = true -> quotable item = true ->
  _parse_entity_list
    (arrange o s1 s2 (name_field w1 w2 n) (x_field w3 w4 xs)
       (y_field w5 w6 ys))
  = _parse_entity_list
      (arrange o' s1' s2' (name_field w1' w2' n) (x_field w3' w4' xs)
         (y_field w5' w6' ys))
  /\ _parse_entity_list
       (arrange o s1 s2 (name_field w1 w2 n) (x_field w3 w4 xs)
          (y_field w5 w6 ys))
     = (fx <- py_float xs ;; fy <- py_float ys ;;
        Ok [mk_EntityInfo n fx fy])
  /\ _parse_inventory (inventory_record v1 v2 v3 v4 v5 digits item)
     = [mk_InventoryItem item (int_of_digits digits)].
Proof.
  intros Hsp Hsp' Hn Hx Hy Hv Hd Hi. unbundle.
  rewrite !entity_record_alone by assumption.
  repeat split.
  now apply inventory_record_decodes.
Qed.

End SiblingFacts.

Section SiblingExamples.
Import re Patterns FactorioTools.


Lemma entity_fields_in_any_order_witness :
  _parse_entity_list (q "{name = 'iron-chest', x = 1.5, y = -2}")
  = _parse_entity_list (q "{y=-2,  x =1.5,name= 'iron-chest'}")
  /\ _parse_entity_list (q "{name = 'iron-chest', x = 1.5, y = -2}")
     = Ok [mk_EntityInfo (py "iron-chest") (15%Z, 1) ((-2)%Z, 0)]
  /\ _parse_inventory (q "{count = 12, name = 'coal'}")
     = [mk_InventoryItem (py "coal") 12].
Proof.
  exact (@entity_fields_in_any_order decimal_floats O123 O321
           (py " ") (py " ") (py " ") (py " ") (py " ") (py " ")
           (py " ") (py " ")
           [] (py "  ") [] (py " ") (py " ") [] [] []
           (py "iron-chest") (py "1.5") (py "-2")
           (py " ") (py " ") (py " ") (py " ") (py " ")
           (py "12") (py "coal")
           eq_refl eq_refl eq_refl eq_refl eq_refl eq_refl eq_refl eq_refl).
Defined.

(** The first record of a table, right after the opening brace of
    the table, with a brace in the name of the second. *)
Example first_record_is_decoded :
  _parse_entity_list
    (q "{{name = 'c', x = 3, y = 4}, {name = 'a}b', x = 1, y = 2}}")
  = Ok [mk_EntityInfo (py "c") (3%Z, 0) (4%Z, 0)]
  /\ _parse_entity_list
       (q "{{name = 'c', x = 3, y = 4}, {name = 'a{b', x = 1, y = 2}}")
     = Ok [mk_EntityInfo (py "c") (3%Z, 0) (4%Z, 0);
           mk_EntityInfo (q "a{b") (1%Z, 0) (2%Z, 0)].
Proof. split; reflexivity. Qed.

(** The record that carries the closing brace is itself cut at it. *)
Example braced_record_is_cut :
  findall block_re (q "{name = 'a}b', x = 1, y = 2}") = [q "{name = 'a}"]
  /\ _parse_entity_list (q "{name = 'a}b', x = 1, y = 2}") = Ok [].
Proof. split; reflexivity. Qed.

(** A name that holds an equals sign is outside the order
    independence of entity records: the pattern of [x] finds its
    first match inside the name when the name comes first. *)
Example name_with_equals_sign :
  _parse_entity_list (q "{name = 'x=9', x = 1, y = 2}")
  = Ok [mk_EntityInfo (py "x=9") (9%Z, 0) (2%Z, 0)]
  /\ _parse_entity_list (q "{x = 1, y = 2, name = 'x=9'}")
     = Ok [mk_EntityInfo (py "x=9") (1%Z, 0) (2%Z, 0)].
Proof. split; reflexivity. Qed.

(** C3, as stated, fails for inventory replies: the pattern wants
    [count] before [name], and a record with the same pairs in the
    other order is passed over. *)
Lemma inventory_order_counterexample :
  _parse_inventory (q "{count = 12, name = 'coal'}")
  = [mk_InventoryItem (py "coal") 12]
  /\ _parse_inventory (q "{name = 'coal', count = 12}") = []
  /\ _parse_inventory (q "{count = 12, name = 'coal'}")
     <> _parse_inventory (q "{name = 'coal', count = 12}").
Proof. repeat split. discriminate. Qed.

End SiblingExamples.

(** * Further properties of the code *)

(** ** The transport, continued *)

Section TransportMore.
Import RCONWrapper.
Context {C : Channel}.

(** X1. [disconnect] always succeeds, also when closing the session
    fails; it leaves the handle cleared, and a second [disconnect]
    changes nothing and does not reach the channel. *)
Theorem disconnect_always_succeeds (s : state) :
  fst (disconnect s) = Ok tt
  /\ connected (fst (snd (disconnect s))) = false
  /\ disconnect (snd (disconnect s)) = (Ok tt, snd (disconnect s)).
Proof.
  destruct s as [self r]. unfold disconnect.
  destruct (_client self) as [c|] eqn:Ec.
  - destruct (client_close c r) as [res r']. repeat split.
  - cbn [fst snd]. unfold connected. rewrite Ec. repeat split.
Qed.

Lemma search_app_found {G} (m : re.matcher G) (pre s : str) (g : G)
      (rest : str) :
  m s = Some (g, rest) -> exists g', re.search m (pre ++ s) = Some g'.
Proof.
  intros E. induction pre as [|c pre IH].
  - exists g. now apply search_here with rest.
  - cbn [app re.search].
    destruct (m (c :: pre ++ s)) as [[g' r']|]; [now exists g'|exact IH].
Qed.

Lemma lit_ignorecase_hit (pattern word post : str) :
  map lower word = pattern ->
  lit_ignorecase pattern (word ++ post)
  = Some (tt, skipn (length pattern) (word ++ post)).
Proof.
  intros <-. unfold lit_ignorecase. now rewrite map_app, lit_app.
Qed.

Lemma is_lua_error_found (pattern pre word post : str) :
  In pattern error_patterns -> map lower word = pattern ->
  _is_lua_error (pre ++ word ++ post) = true.
Proof.
  intros Hin Hw. unfold _is_lua_error. apply existsb_exists.
  exists pattern. split; [exact Hin|].
  destruct (@search_app_found _ (lit_ignorecase pattern) pre _ _ _
              (@lit_ignorecase_hit pattern word post Hw)) as [g ->].
  reflexivity.
Qed.

(** X2. A reply that holds one of the words [error], [attempt to],
    [expected] or [syntax error], in any mix of upper and lower case
    and anywhere in the text, makes [execute_lua] raise
    [CommandError] with the reply in its message; unlike a failure of
    the channel, this leaves the connection up. *)
Theorem execute_lua_flags_error_words
        (self : t) (c : client) (r r' : remote) (lua_code : str)
        (pattern pre word post : str) :
  _client self = Some c ->
  In pattern error_patterns -> map lower word = pattern ->
  client_send c (py "/c " ++ lua_code) r
  = (Ok (Some (pre ++ word ++ post)), r') ->
  execute_lua lua_code (self, r)
  = (Raise (CommandError (py "Lua error: " ++ pre ++ word ++ post)),
     (self, r'))
  /\ connected self = true.
Proof.
  intros Hc Hin Hw Hs.
  pose proof (@is_lua_error_found pattern pre word post Hin Hw) as He.
  assert (Hne : pre ++ word ++ post <> []).
  { intros E. apply app_eq_nil in E. destruct E as [_ E].
    apply app_eq_nil in E. destruct E as [E _]. subst word.
    cbn in Hw. subst pattern. cbn in Hin.
    destruct Hin as [E|[E|[E|[E|[]]]]]; discriminate. }
  unfold execute_lua, mbind, send_command, connected. rewrite Hc, Hs.
  destruct (pre ++ word ++ post) as [|ch text] eqn:Et; [contradiction|].
  rewrite He. split; reflexivity.
Qed.

Lemma letterless_head (pattern : str) (c : ascii) (s : str) :
  In pattern error_patterns -> letterless c = true ->
  lit_ignorecase pattern (c :: s) = None.
Proof.
  intros Hin Hc. unfold lit_ignorecase.
  assert (E : re.lit pattern (map lower (c :: s)) = None).
  { cbn [map]. cbn in Hin.
    destruct Hin as [E|[E|[E|[E|[]]]]]; subst pattern;
      cbn [re.lit py list_ascii_of_string];
      revert Hc; clear;
      destruct c as [[] [] [] [] [] [] [] []]; vm_compute;
      intros Hc; try reflexivity; discriminate. }
  now rewrite E.
Qed.

Lemma letterless_search (pattern : str) (s : str) :
  In pattern error_patterns -> forallb letterless s = true ->
  re.search (lit_ignorecase pattern) s = None.
Proof.
  intros Hin. induction s as [|c s IH]; intros Hs.
  - cbn in Hin. destruct Hin as [E|[E|[E|[E|[]]]]]; subst pattern;
      reflexivity.
  - cbn [forallb] in Hs. apply andb_true_iff in Hs. destruct Hs as [Hc Hs].
    rewrite (search_cons_None _ c s (@letterless_head pattern c s Hin Hc)).
    exact (IH Hs).
Qed.

Lemma no_error_without_letters (response : str) :
  forallb letterless response = true -> _is_lua_error response = false.
Proof.
  intros Hs. unfold _is_lua_error.
  destruct (existsb _ error_patterns) eqn:E; [|reflexivity].
  apply existsb_exists in E. destruct E as [pattern [Hin E]].
  now rewrite (@letterless_search pattern response Hin Hs) in E.
Qed.

(** X3. A reply without letters, such as a number or an empty table,
    is never taken for an error of the remote script: [execute_lua]
    returns it as it is. *)
Theorem letterless_reply_is_no_error
        (self : t) (c : client) (r r' : remote) (lua_code : str)
        (ch : ascii) (text : str) :
  _client self = Some c ->
  forallb letterless (ch :: text) = true ->
  client_send c (py "/c " ++ lua_code) r = (Ok (Some (ch :: text)), r') ->
  _is_lua_error (ch :: text) = false
  /\ execute_lua lua_code (self, r) = (Ok (Some (ch :: text)), (self, r')).
Proof.
  intros Hc Ht Hs.
  pose proof (no_error_without_letters (ch :: text) Ht) as He.
  split; [exact He|].
  unfold execute_lua, mbind, send_command. now rewrite Hc, Hs, He.
Qed.

End TransportMore.

Lemma execute_lua_flags_error_words_witness :
  RCONWrapper.execute_lua (py "game.tick()")
    (Scripted.connected_to
       [Ok (Some (py "Cannot execute command. Error: attempt to call field"))])
  = (Raise (RCONWrapper.CommandError
              (py "Lua error: Cannot execute command. Error: attempt to call field")),
     (fst (Scripted.connected_to []),
      Scripted.mk_remote [] [py "/c game.tick()"] 0)).
Proof.
  exact (proj1 (@execute_lua_flags_error_words Scripted.channel
                  (fst (Scripted.connected_to [])) tt
                  (snd (Scripted.connected_to
                          [Ok (Some (py "Cannot execute command. Error: attempt to call field"))]))
                  (Scripted.mk_remote [] [py "/c game.tick()"] 0)
                  (py "game.tick()") (py "error")
                  (py "Cannot execute command. ") (py "Error")
                  (py ": attempt to call field")
                  eq_refl (or_introl eq_refl) eq_refl eq_refl)).
Defined.

Lemma letterless_reply_is_no_error_witness :
  RCONWrapper.execute_lua (py "rcon.print(game.tick)")
    (Scripted.connected_to [Ok (Some (py "54321"))])
  = (Ok (Some (py "54321")),
     (fst (Scripted.connected_to []),
      Scripted.mk_remote [] [py "/c rcon.print(game.tick)"] 0)).
Proof.
  exact (proj2 (@letterless_reply_is_no_error Scripted.channel
                  (fst (Scripted.connected_to [])) tt
                  (snd (Scripted.connected_to [Ok (Some (py "54321"))]))
                  (Scripted.mk_remote [] [py "/c rcon.print(game.tick)"] 0)
                  (py "rcon.print(game.tick)") "5"%char (py "4321")
                  eq_refl eq_refl eq_refl)).
Defined.

(** ** Reconnecting *)

Section ReconnectFacts.
Import RCONWrapper FactorioTools.
Context {C : Channel}.

Lemma disconnect_clears (s : state) :
  connected (fst (snd (disconnect s))) = false.
Proof.
  destruct s as [self r]. unfold disconnect.
  destruct (_client self) as [c|] eqn:Ec.
  - now destruct (client_close c r).
  - cbn. unfold connected. now rewrite Ec.
Qed.

Lemma connect_from_disconnected (s : state) :
  connected (fst s) = false ->
  match connect s with
  | (Ok _, s') => connected (fst s') = true
  | (Raise _, s') => connected (fst s') = false
  end.
Proof.
  destruct s as [self r]. unfold connected, connect. cbn [fst].
  destruct (_client self) eqn:Ec; [discriminate|]. intros _.
  destruct (client_new _ _ _ r) as [[c|e] r']; cbn; [reflexivity|].
  now rewrite Ec.
Qed.

Lemma reconnect_loop_outcome (slept : result unit) :
  forall attempts s,
    1 <= attempts \/ connected (fst s) = false ->
    fst (reconnect_loop attempts slept s)
    = Ok (connected (fst (snd (reconnect_loop attempts slept s))))
    /\ (forall e, slept = Raise e ->
                  fst (reconnect_loop attempts slept s) = Ok false).
Proof.
  induction attempts as [|k IH]; intros s Hs.
  - destruct Hs as [Hs|Hs]; [lia|]. cbn. rewrite Hs. split; reflexivity.
  - cbn [reconnect_loop].
    pose proof (disconnect_clears s) as Hd.
    destruct (disconnect s) as [res s1]. cbn [fst snd] in Hd.
    destruct slept as [u|e0].
    + pose proof (connect_from_disconnected s1 Hd) as Hc.
      destruct (connect s1) as [[u'|e] s2].
      * cbn. rewrite Hc. split; [reflexivity|]. intros e; discriminate.
      * destruct (IH s2 (or_intror Hc)) as [IH1 _]. split; [exact IH1|].
        intros e'; discriminate.
    + destruct (IH s1 (or_intror Hd)) as [IH1 IH2]. split; [exact IH1|].
      intros e _. exact (IH2 e0 eq_refl).
Qed.

(** X4. [reconnect] with at least one attempt never raises: it
    returns whether the transport is connected when it ends.  When
    the pause between the attempts fails, no attempt to connect is
    made and the answer is [False]. *)
Theorem reconnect_reports_the_connection
        (max_attempts : Z) (slept : result unit) (s : state) :
  (1 <= max_attempts)%Z ->
  fst (reconnect max_attempts slept s)
  = Ok (connected (fst (snd (reconnect max_attempts slept s))))
  /\ (forall e, slept = Raise e ->
                fst (reconnect max_attempts slept s) = Ok false).
Proof.
  intros Hm. unfold reconnect. apply reconnect_loop_outcome. left. lia.
Qed.

End ReconnectFacts.

Section ReconnectScripted.
Import RCONWrapper FactorioTools.

Lemma reconnect_loop_refusals (self : @t Scripted.channel)
      (outcomes : list (result (option str))) (received : list str) :
  _client self = None ->
  forall attempts refusals,
    reconnect_loop attempts (Ok tt)
      (self, Scripted.mk_remote outcomes received refusals)
    = (Ok (refusals <? attempts),
       (if refusals <? attempts then set_client self (Some tt) else self,
        Scripted.mk_remote outcomes received (refusals - attempts))).
Proof.
  intros Hc. destruct self as [h p pw cl]. cbn in Hc. subst cl.
  induction attempts as [|m IH]; intros k.
  - cbn. now rewrite Nat.sub_0_r.
  - cbn [reconnect_loop]. unfold disconnect, connect.
    cbn [_client host port password set_client].
    destruct k as [|k]; cbn [client_new Scripted.channel Scripted.refusals
                               Scripted.outcomes Scripted.received].
    + reflexivity.
    + exact (IH k).
Qed.

(** X5. Against a server that refuses the first [refusals] attempts
    to connect, [reconnect] with [n + 1] attempts succeeds exactly
    when [refusals <= n]; it stops at the first attempt that is
    accepted and otherwise uses all its attempts. *)
Theorem reconnect_against_refusals
        (self : @t Scripted.channel)
        (outcomes : list (result (option str))) (received : list str)
        (refusals n : nat) :
  reconnect (Z.of_nat (S n)) (Ok tt)
    (self, Scripted.mk_remote outcomes received refusals)
  = (Ok (refusals <=? n),
     (set_client self (if refusals <=? n then Some tt else None),
      Scripted.mk_remote outcomes received (refusals - S n))).
Proof.
  unfold reconnect. rewrite Nat2Z.id. cbn [reconnect_loop].
  assert (Ed : disconnect (self, Scripted.mk_remote outcomes received refusals)
               = (Ok tt, (set_client self None,
                          Scripted.mk_remote outcomes received refusals))).
  { unfold disconnect. destruct self as [h p pw [c|]]; reflexivity. }
  rewrite Ed. unfold connect. cbn [_client set_client].
  destruct refusals as [|k]; cbn [client_new Scripted.channel Scripted.refusals
                                    Scripted.outcomes Scripted.received].
  - reflexivity.
  - pose proof (@reconnect_loop_refusals (set_client self None) outcomes
                  received eq_refl n k) as E.
    change (S k <=? n) with (k <? n). change (S k - S n) with (k - n).
    destruct (k <? n); exact E.
Qed.

End ReconnectScripted.

Lemma reconnect_reports_the_connection_witness :
  fst (FactorioTools.reconnect 3 (Ok tt)
         (fst (Scripted.connected_to []), Scripted.mk_remote [] [] 2))
  = Ok true.
Proof.
  exact (proj1 (@reconnect_reports_the_connection Scripted.channel 3 (Ok tt)
                  (fst (Scripted.connected_to []), Scripted.mk_remote [] [] 2)
                  ltac:(lia))).
Defined.

(** ** Queries of the tools *)

Section QueryFacts.
Import RCONWrapper FactorioTools.
Context {C : Channel}.

Lemma forallb_rev (p : ascii -> bool) (s : str) :
  forallb p (rev s) = forallb p s.
Proof.
  induction s as [|c s IH]; [reflexivity|]. cbn [rev forallb].
  rewrite forallb_app, IH. cbn. rewrite andb_true_r. apply andb_comm.
Qed.

Lemma drop_while_none (p : ascii -> bool) (s : str) :
  forallb (fun c => negb (p c)) s = true -> re.drop_while p s = s.
Proof.
  destruct s as [|c s]; [reflexivity|]. cbn. intros Hs.
  apply andb_true_iff in Hs. destruct Hs as [Hc _].
  apply negb_true_iff in Hc. now rewrite Hc.
Qed.

Lemma digit_not_int_space (c : ascii) :
  is_digit c = true -> is_int_space c = false.
Proof.
  destruct c as [[] [] [] [] [] [] [] []]; vm_compute;
    try reflexivity; discriminate.
Qed.

Lemma drop_while_all_app (p : ascii -> bool) (w s : str) :
  forallb p w = true -> re.drop_while p (w ++ s) = re.drop_while p s.
Proof.
  induction w as [|c w IH]; [reflexivity|]. cbn [forallb app re.drop_while].
  intros Hw. apply andb_true_iff in Hw. destruct Hw as [-> Hw]. now apply IH.
Qed.

(** White space around a text that holds none is stripped. *)
Lemma int_strip_padded (w1 d w2 : str) :
  forallb is_int_space w1 = true -> forallb is_int_space w2 = true ->
  forallb (fun c => negb (is_int_space c)) d = true ->
  int_strip (w1 ++ d ++ w2) = d.
Proof.
  intros H1 H2 Hd. unfold int_strip.
  rewrite (drop_while_all_app is_int_space w1 (d ++ w2) H1).
  destruct d as [|c d].
  - cbn [app]. rewrite <- (app_nil_r w2).
    rewrite (drop_while_all_app is_int_space w2 [] H2). reflexivity.
  - assert (E : re.drop_while is_int_space ((c :: d) ++ w2) = (c :: d) ++ w2).
    { cbn [forallb] in Hd. apply andb_true_iff in Hd. destruct Hd as [Hc _].
      apply negb_true_iff in Hc. cbn [app re.drop_while]. now rewrite Hc. }
    rewrite E, rev_app_distr.
    rewrite drop_while_all_app by now rewrite forallb_rev.
    rewrite drop_while_none, rev_involutive; [reflexivity|].
    now rewrite forallb_rev.
Qed.

Lemma digits_not_int_space (d : str) :
  all_digit d = true -> forallb (fun c => negb (is_int_space c)) d = true.
Proof.
  apply forallb_impl. intros c Hc. now rewrite digit_not_int_space.
Qed.

Lemma int_digits_all (s : str) :
  all_digit s = true ->
  forall acc,
    int_digits s acc true
    = Some (fold_left (fun a c => (10 * a + digit_val c)%Z) s acc).
Proof.
  induction s as [|c s IH]; intros Hs acc; [reflexivity|].
  cbn in Hs. apply andb_true_iff in Hs. destruct Hs as [Hc Hs].
  cbn [int_digits fold_left]. rewrite Hc. now apply IH.
Qed.

Lemma digit_no_sign (c : ascii) :
  is_digit c = true -> chr_eqb c "-" = false /\ chr_eqb c "+" = false.
Proof.
  destruct c as [[] [] [] [] [] [] [] []]; vm_compute;
    try (split; reflexivity); discriminate.
Qed.

(** [int] reads digits, with or without white space around them,
    as the number they write. *)
Lemma py_int_padded (w1 s w2 : str) :
  forallb is_int_space w1 = true -> forallb is_int_space w2 = true ->
  digits_ok s = true -> py_int (w1 ++ s ++ w2) = Ok (int_of_digits s).
Proof.
  unfold digits_ok. intros H1 H2 Hs. apply andb_true_iff in Hs.
  destruct Hs as [Hne Hs]. unfold py_int.
  rewrite (int_strip_padded w1 s w2 H1 H2 (digits_not_int_space s Hs)).
  destruct s as [|c s]; [discriminate|].
  pose proof Hs as Hs'. cbn in Hs'. apply andb_true_iff in Hs'.
  destruct Hs' as [Hc Hs'].
  destruct (digit_no_sign c Hc) as [-> ->].
  cbn [int_digits]. rewrite Hc.
  rewrite (int_digits_all s Hs'). reflexivity.
Qed.

Lemma py_int_digits (s : str) :
  digits_ok s = true -> py_int s = Ok (int_of_digits s).
Proof.
  intros Hs. rewrite <- (app_nil_r s) at 1.
  exact (py_int_padded [] s [] eq_refl eq_refl Hs).
Qed.






Lemma digit_letterless (c : ascii) : is_digit c = true -> letterless c = true.
Proof.
  destruct c as [[] [] [] [] [] [] [] []]; vm_compute;
    try reflexivity; discriminate.
Qed.

(** A query answered with a text of digits returns the text. *)
Lemma query_lua_digits (self : t) (c : client) (r r' : remote)
      (lua_expression text : str) :
  _client self = Some c -> digits_ok text = true ->
  client_send c (query_command lua_expression) r = (Ok (Some text), r') ->
  query_lua lua_expression (self, r) = (Ok (Some text), (self, r')).
Proof.
  intros Hc Ht Hs. unfold query_lua, execute_lua, mbind, send_command.
  rewrite Hc.
  change (py "/c " ++ py "rcon.print(" ++ lua_expression ++ py ")")
    with (query_command lua_expression).
  rewrite Hs. unfold digits_ok in Ht. apply andb_true_iff in Ht.
  destruct Ht as [Hne Ht]. destruct text as [|ch text]; [discriminate|].
  rewrite (no_error_without_letters (ch :: text)); [reflexivity|].
  exact (forallb_impl _ _ _ digit_letterless Ht).
Qed.

(** X6. [count_entities] asks for the entities of that name first.
    A positive count is returned at once, with no second command;
    otherwise the entities of that type are counted and that count
    is returned. *)
Theorem count_entities_name_then_type
        (self : t) (c : client) (r r1 : remote) (entity_type by_name : str) :
  _client self = Some c -> digits_ok by_name = true ->
  client_send c (query_command (count_by_name_lua entity_type)) r
  = (Ok (Some by_name), r1) ->
  ((0 < int_of_digits by_name)%Z ->
   count_entities entity_type (self, r)
   = (Ok (int_of_digits by_name), (self, r1)))
  /\ ((int_of_digits by_name <= 0)%Z ->
      forall by_type r2,
        digits_ok by_type = true ->
        client_send c (query_command (count_by_type_lua entity_type)) r1
        = (Ok (Some by_type), r2) ->
        count_entities entity_type (self, r)
        = (Ok (int_of_digits by_type), (self, r2))).
Proof.
  intros Hc Hn Hs. unfold count_entities, mbind.
  rewrite (query_lua_digits self r _ Hc Hn Hs).
  unfold lift. rewrite (py_int_digits by_name Hn). split.
  - intros Hpos. apply Z.ltb_lt in Hpos. now rewrite Hpos.
  - intros Hle by_type r2 Ht Hs2.
    destruct (Z.ltb_spec 0 (int_of_digits by_name)) as [Hlt|_]; [lia|].
    rewrite (query_lua_digits self r1 _ Hc Ht Hs2).
    now rewrite (py_int_digits by_type Ht).
Qed.



End QueryFacts.

Section QueryExamples.
Import RCONWrapper FactorioTools.

Lemma count_entities_name_then_type_witness :
  @count_entities Scripted.channel (py "tree")
    (Scripted.connected_to [Ok (Some (py "0")); Ok (Some (py "812"))])
  = (Ok 812%Z,
     (fst (Scripted.connected_to []),
      Scripted.mk_remote []
        [query_command (count_by_name_lua (py "tree"));
         query_command (count_by_type_lua (py "tree"))] 0)).
Proof.
  refine (proj2 (@count_entities_name_then_type Scripted.channel
                   (fst (Scripted.connected_to [])) tt
                   (snd (Scripted.connected_to
                           [Ok (Some (py "0")); Ok (Some (py "812"))]))
                   (Scripted.mk_remote [Ok (Some (py "812"))]
                      [query_command (count_by_name_lua (py "tree"))] 0)
                   (py "tree") (py "0") eq_refl eq_refl eq_refl)
                _ (py "812") _ eq_refl eq_refl).
  vm_compute. discriminate.
Defined.



(** A reply that is no integer: no exception, and nothing crafted. *)
Example craft_item_on_a_decimal :
  fst (@craft_item Scripted.channel (py "iron-gear-wheel") (py "2")
         (Scripted.connected_to [Ok (Some (py "2.5"))]))
  = Ok false.
Proof. reflexivity. Qed.

End QueryExamples.

(** ** The dispatcher and the loop, continued *)

Section AgentMore.
Import FactorioAgent.
Context {F : Floats} {P : Python} {T : Facade} {B : ChatBackend}.

(** X9. A tool name that is none of the sixteen the dispatcher
    knows is answered with the text [Error: ValueError: Unknown tool:
    name], whatever the arguments, and the game is not touched. *)
Theorem unknown_tool_is_reported (name : str) (args : list (str * value))
        (w : game) :
  existsb (str_eqb name) dispatched_names = false ->
  _execute_tool name args w
  = (py "Error: ValueError: Unknown tool: " ++ name, w).
Proof.
  intros Hn. unfold dispatched_names in Hn. cbn [existsb] in Hn.
  repeat match type of Hn with
         | _ || _ = false =>
             let E := fresh "E" in
             apply orb_false_iff in Hn; destruct Hn as [E Hn]
         end.
  unfold _execute_tool, _call_tool.
  rewrite E, E0, E1, E2, E3, E4, E5, E6, E7, E8, E9, E10, E11, E12, E13,
    E14.
  reflexivity.
Qed.

Lemma chat_unfold (config : Config) (user_message : str) (a : agent) :
  chat config user_message a
  = chat_loop config (Z.to_nat (max_tool_iterations config))
      (with_user_message a user_message).
Proof.
  unfold chat, with_user_message.
  destruct (on_world _get_game_state a) as [state a1]. reflexivity.
Qed.

Lemma with_user_message_keeps (a : agent) (user_message : str) :
  exists text,
    messages (with_user_message a user_message)
    = messages a ++ [mk_message (py "user") (Some text) []]
    /\ turns (with_user_message a user_message) = turns a
    /\ model (with_user_message a user_message) = model a.
Proof.
  unfold with_user_message, on_world.
  destruct (_get_game_state (world a)) as [state w].
  eexists. repeat split.
Qed.

(** X10. When the backend answers with content and no tool call, in
    structured or in text form, [chat] ends the turn after that one
    call of the backend: it returns the content, or the fixed apology
    when the content is empty or blank, adds it to the history as the
    assistant message and trims the history. *)
Theorem plain_answer_ends_the_turn
        (config : Config) (user_message : str) (a : agent)
        (msg : message) (text : str) (b' : backend) :
  (1 <= max_tool_iterations config)%Z ->
  llm_chat (messages (with_user_message a user_message)) (model a)
  = (Ok (Some msg), b') ->
  tool_calls msg = [] ->
  content msg = Some text ->
  re.search text_call_re text = None ->
  let reply := match strip text with
               | [] => apology
               | _ :: _ => text
               end in
  fst (chat config user_message a) = Ok reply
  /\ messages (snd (chat config user_message a))
     = _trim_history config
         (messages (with_user_message a user_message)
            ++ [mk_message (py "assistant") (Some reply) []])
  /\ turns (snd (chat config user_message a)) = S (turns a)
  /\ world (snd (chat config user_message a))
     = world (with_user_message a user_message).
Proof.
  intros Hn Hl Hc Ht Hs reply. rewrite chat_unfold.
  destruct (with_user_message_keeps a user_message) as [utext [_ [Hu Hm]]].
  destruct (Z.to_nat (max_tool_iterations config)) as [|n] eqn:En; [lia|].
  cbn [chat_loop]. rewrite Hm, Hl.
  unfold recover_text_call, _parse_text_tool_call. rewrite Ht, Hs.
  cbn [bind]. rewrite Hc. unfold answer_text. rewrite Ht.
  subst reply. destruct (strip text); cbn; rewrite Hu; repeat split.
Qed.

Lemma parse_raises (content : option str) (e : exn) :
  _parse_text_tool_call content = Raise e ->
  forall m, FactorioAgent.content m = content -> raised_by_answer m e.
Proof.
  unfold _parse_text_tool_call. intros E m Hm.
  destruct content as [text|].
  - right. destruct (re.search text_call_re text) as [[func_name args_str]|]
      eqn:Es; [|discriminate].
    destruct (json_loads_object args_str) as [args|e0] eqn:Ej;
      [discriminate|].
    destruct (str_eqb (exn_kind e0) (py "JSONDecodeError")) eqn:Ek;
      [discriminate|].
    injection E as <-. now exists text, func_name, args_str.
  - left. injection E as <-. now split.
Qed.

(** The loop raises where the backend raises and where the reading
    of its answer does, and nowhere else. *)
Lemma chat_loop_raises (config : Config) :
  forall n a e a',
    chat_loop config n a = (Raise e, a') ->
    ((exists history b b', llm_chat history b = (Raise e, b'))
     \/ (exists history b m b',
           llm_chat history b = (Ok (Some m), b') /\ raised_by_answer m e))
    /\ exists more, messages a' = messages a ++ more.
Proof.
  induction n as [|n IH]; intros a e a' E; cbn [chat_loop] in E;
    [discriminate|].
  destruct (llm_chat (messages a) (model a)) as [[response|e0] b'] eqn:El.
  - destruct (recover_text_call _) as [[msg calls]|e0] eqn:Er.
    + destruct calls as [|c calls]; [discriminate|].
      apply IH in E. destruct E as [Hb [more Hm]]. split; [exact Hb|].
      destruct (run_tool_calls_messages (c :: calls)
                  (append_message
                     (mk_agent (messages a) (world a) b' (S (turns a))) msg))
        as [results [Hr _]].
      rewrite Hr in Hm. cbn [append_message set_messages messages] in Hm.
      eexists. rewrite Hm, <- !app_assoc. reflexivity.
    + injection E as <- <-. split.
      * right. unfold recover_text_call in Er.
        destruct response as [m|].
        -- exists (messages a), (model a), m, b'. split; [exact El|].
           destruct (_parse_text_tool_call (content m)) as [parsed|e1] eqn:Ep.
           ++ cbn [bind] in Er. destruct parsed; discriminate.
           ++ cbn [bind] in Er. injection Er as <-.
              exact (parse_raises Ep m eq_refl).
        -- cbn in Er. discriminate.
      * exists []. cbn. now rewrite app_nil_r.
  - injection E as <- <-. split.
    + left. now exists (messages a), (model a), b'.
    + exists []. cbn. now rewrite app_nil_r.
Qed.



Lemma chat_keeps_first (config : Config) (user_message : str) (a : agent)
      (first : message) (rest : list message) :
  (1 <= max_history_messages config)%Z ->
  messages a = first :: rest ->
  exists rest', messages (snd (chat config user_message a)) = first :: rest'.
Proof.
  intros Hcap Hm.
  destruct (chat config user_message a) as [[reply|e] a'] eqn:E.
  - destruct (chat_history_bound config user_message a Hcap Hm E)
      as [kept [Hk _]].
    now exists kept.
  - rewrite chat_unfold in E. apply chat_loop_raises in E.
    destruct E as [_ [more Hmore]].
    destruct (with_user_message_keeps a user_message) as [text [Ht _]].
    cbn [snd]. rewrite Hmore, Ht, Hm. eexists. reflexivity.
Qed.

Lemma reachable_first (config : Config) (first : message) (a : agent) :
  (1 <= max_history_messages config)%Z ->
  reachable config first a -> exists rest, messages a = first :: rest.
Proof.
  intros Hcap Hr. induction Hr as [a rest Hm|a u Hr [rest IH]].
  - now exists rest.
  - exact (chat_keeps_first config u a Hcap IH).
Qed.

(** X13. With a cap of at least one message, the history is bounded
    throughout a session: after any number of calls of [chat],
    returned or failed, every call that returns leaves the first
    message in place, once, followed by at most
    [max_history_messages] messages. *)
Theorem history_is_bounded_in_a_session
        (config : Config) (first : message) (a a' : agent)
        (user_message reply : str) :
  (1 <= max_history_messages config)%Z ->
  reachable config first a ->
  chat config user_message a = (Ok reply, a') ->
  exists kept,
    messages a' = first :: kept
    /\ (Z.of_nat (length kept) <= max_history_messages config)%Z.
Proof.
  intros Hcap Hr E.
  destruct (reachable_first Hcap Hr) as [rest Hm].
  exact (chat_history_bound config user_message a Hcap Hm E).
Qed.

(** X14. With a cap of at least one, trimming a history that is too
    long keeps the first message and the [cap] most recent ones, in
    their order; a history within the cap is left as it is, and
    trimming twice is trimming once. *)
Theorem trim_keeps_the_most_recent
        (config : Config) (first : message) (rest : list message) :
  (1 <= max_history_messages config)%Z ->
  let cap := Z.to_nat (max_history_messages config) in
  _trim_history config (first :: rest)
  = first :: skipn (length rest - cap) rest
  /\ _trim_history config (_trim_history config (first :: rest))
     = _trim_history config (first :: rest).
Proof.
  intros Hcap cap.
  assert (Ht : forall l,
             _trim_history config (first :: l)
             = first :: skipn (length l - cap) l).
  { intros l. unfold _trim_history, slice_from. cbn [length firstn app].
    destruct (Z.leb_spec (Z.of_nat (S (length l)) - 1)
                (max_history_messages config)) as [Hle|Hgt].
    - replace (length l - cap) with 0 by lia. reflexivity.
    - destruct (Z.ltb_spec (- max_history_messages config) 0) as [_|Hge];
        [|lia].
      f_equal.
      replace (Z.to_nat (Z.of_nat (S (length l))
                         + - max_history_messages config))
        with (S (length l - cap)) by lia.
      reflexivity. }
  split; [apply Ht|]. rewrite !Ht. f_equal.
  rewrite length_skipn.
  replace (length rest - (length rest - cap) - cap) with 0 by lia.
  reflexivity.
Qed.

Lemma take_while_word_stop (name : str) (c : ascii) (rest : str) :
  forallb is_word name = true -> is_word c = false ->
  re.take_while is_word (name ++ c :: rest) = name
  /\ re.drop_while is_word (name ++ c :: rest) = c :: rest.
Proof. apply take_while_stop. Qed.

(** X15. A tool call printed as [name[ARGS]{body}] is found whatever
    its name (of word characters) and its body (without closing
    brace), after any text that holds no word character and before
    any text: the search gives the name and the body between its
    braces. *)
Theorem text_call_is_found (pre name body post : str) :
  forallb (fun c => negb (is_word c)) pre = true ->
  nonempty name = true -> forallb is_word name = true ->
  forallb not_rbrace body = true ->
  re.search text_call_re
    (pre ++ name ++ py "[ARGS]{" ++ body ++ py "}" ++ post)
  = Some (name, py "{" ++ body ++ py "}").
Proof.
  intros Hpre Hne Hname Hbody.
  assert (Hhit : text_call_re (name ++ py "[ARGS]{" ++ body ++ py "}" ++ post)
                 = Some ((name, py "{" ++ body ++ py "}"), post)).
  { unfold text_call_re.
    change (py "[ARGS]{" ++ body ++ py "}" ++ post)
      with ("["%char :: py "ARGS]{" ++ body ++ py "}" ++ post).
    destruct (take_while_word_stop name "["%char
                (py "ARGS]{" ++ body ++ py "}" ++ post) Hname eq_refl)
      as [-> ->].
    destruct name as [|c name]; [discriminate|].
    change ("["%char :: py "ARGS]{" ++ body ++ py "}" ++ post)
      with (py "[ARGS]" ++ "{"%char :: body ++ "}"%char :: post).
    rewrite lit_app. change (is_lbrace "{") with true. cbv iota.
    destruct (take_while_stop not_rbrace body "}"%char post Hbody eq_refl)
      as [-> ->].
    reflexivity. }
  induction pre as [|c pre IH].
  - exact (search_here _ _ Hhit).
  - cbn [forallb] in Hpre. apply andb_true_iff in Hpre.
    destruct Hpre as [Hc Hpre]. apply negb_true_iff in Hc.
    cbn [app]. rewrite search_cons_None; [exact (IH Hpre)|].
    unfold text_call_re. cbn [re.take_while]. now rewrite Hc.
Qed.

End AgentMore.

Section AgentMoreExamples.
Import FactorioAgent.

Lemma unknown_tool_is_reported_witness :
  @_execute_tool decimal_floats Scripted.python Scripted.facade
    (py "launch_rocket") [] (Scripted.connected_to [])
  = (py "Error: ValueError: Unknown tool: launch_rocket",
     Scripted.connected_to []).
Proof.
  exact (@unknown_tool_is_reported decimal_floats Scripted.python
           Scripted.facade (py "launch_rocket") []
           (Scripted.connected_to []) eq_refl).
Defined.

Lemma plain_answer_ends_the_turn_witness :
  fst (@chat decimal_floats Scripted.python Scripted.facade Scripted.backend
         (mk_Config 5 20) (py "hello")
         (Sample.fresh Scripted.backend [Sample.says (py "   ")] []))
  = Ok apology.
Proof.
  refine (proj1 (@plain_answer_ends_the_turn decimal_floats Scripted.python
                   Scripted.facade Scripted.backend (mk_Config 5 20)
                   (py "hello")
                   (Sample.fresh Scripted.backend [Sample.says (py "   ")] [])
                   (mk_message (py "assistant") (Some (py "   ")) [])
                   (py "   ") [] _ _ _ _ _)).
  - cbn. lia.
  - reflexivity.
  - reflexivity.
  - reflexivity.
  - reflexivity.
Defined.


(** The exception of a backend that fails leaves [chat] as it is. *)
Example chat_on_a_timeout :
  fst (@chat decimal_floats Scripted.python Scripted.facade Scripted.backend
         (mk_Config 5 20) (py "hello") (Sample.fresh Scripted.backend [] []))
  = Raise (mk_exn (py "RuntimeError")
             (py "Ollama request timed out after 120s")).
Proof. reflexivity. Qed.

Lemma history_is_bounded_in_a_session_witness :
  let config := mk_Config 5 2 in
  let a :=
    snd (@chat decimal_floats Scripted.python Scripted.facade Scripted.backend
           config (py "first")
           (Sample.fresh Scripted.backend
              [Sample.says (py "one"); Sample.says (py "two")] [])) in
  exists kept,
    messages (snd (@chat decimal_floats Scripted.python Scripted.facade
                     Scripted.backend config (py "second") a))
    = system_message Sample.prompt :: kept
    /\ (Z.of_nat (length kept) <= 2)%Z.
Proof.
  intros config a.
  refine (@history_is_bounded_in_a_session decimal_floats Scripted.python
            Scripted.facade Scripted.backend config
            (system_message Sample.prompt) a _ (py "second") (py "two")
            _ _ _).
  - cbn. lia.
  - apply reach_chat. eapply reach_start. reflexivity.
  - reflexivity.
Defined.

Lemma trim_keeps_the_most_recent_witness :
  let m := fun text =>
             @mk_message decimal_floats (py "user") (Some text) [] in
  _trim_history (mk_Config 5 2)
    [system_message Sample.prompt; m (py "a"); m (py "b"); m (py "c")]
  = [system_message Sample.prompt; m (py "b"); m (py "c")].
Proof.
  intros m.
  refine (proj1 (trim_keeps_the_most_recent (F := decimal_floats)
                   (mk_Config 5 2)
                   (system_message Sample.prompt)
                   [m (py "a"); m (py "b"); m (py "c")] _)).
  cbn. lia.
Defined.

Lemma text_call_is_found_witness :
  re.search text_call_re (q "> get_tick[ARGS]{} and more")
  = Some (py "get_tick", py "{}").
Proof.
  exact (@text_call_is_found (py "> ") (py "get_tick") [] (py " and more")
           eq_refl eq_refl eq_refl eq_refl).
Defined.

End AgentMoreExamples.

(** ** The history file of the prompt *)

Section HistoryFileFacts.
Import Chat.

(** X16. Trimming the history file keeps the last [max_entries]
    lines, in their order, and drops the oldest ones; a file within
    the limit, and any file when the limit is zero or negative, is
    left as it is. *)
Theorem history_file_keeps_the_last_entries
        (lines : list str) (max_entries : Z) :
  exists dropped kept,
    trim_history_file (Some lines) max_entries = Some kept
    /\ lines = dropped ++ kept
    /\ length kept
       = if (max_entries <=? 0)%Z then length lines
         else Nat.min (length lines) (Z.to_nat max_entries).
Proof.
  unfold trim_history_file.
  destruct (Z.leb_spec max_entries 0) as [Hle|Hgt].
  - exists [], lines. repeat split.
  - destruct (Z.ltb_spec max_entries (Z.of_nat (length lines)))
      as [Hlt|Hge].
    + unfold FactorioAgent.slice_from.
      destruct (Z.ltb_spec (- max_entries) 0) as [_|Hneg]; [|lia].
      exists (firstn (Z.to_nat (Z.of_nat (length lines) + - max_entries))
                lines).
      eexists. split; [reflexivity|]. split.
      * symmetry. apply firstn_skipn.
      * rewrite length_skipn. lia.
    + exists [], lines. repeat split. lia.
Qed.

End HistoryFileFacts.

(** ** The game state line and the resource totals *)

Section StateFacts.
Import FactorioAgent.
Context {F : Floats} {P : Python} {T : Facade}.

(** X17. Reading the game state never raises: when the position or
    the tick cannot be read, the state line says [unavailable], and
    in either case it opens with the words [GAME STATE]. *)
Theorem game_state_never_raises (w : game) :
  exists rest,
    fst (_get_game_state w) = Ok (py "[GAME STATE: " ++ rest)
    /\ (forall e w', get_player_position w = (Raise e, w') ->
        rest = py "unavailable]")
    /\ (forall pos w1 e w2,
           get_player_position w = (Ok pos, w1) ->
           get_tick w1 = (Raise e, w2) ->
           rest = py "unavailable]").
Proof.
  unfold _get_game_state, try_except, mbind.
  destruct (get_player_position w) as [[pos|e] w1].
  - destruct (get_tick w1) as [[tick|e] w2] eqn:Et.
    + eexists. split; [reflexivity|]. split; [intros; discriminate|].
      intros pos' w1' e w2' E Et'. injection E as <- <-.
      rewrite Et in Et'. discriminate.
    + exists (py "unavailable]"). split; [reflexivity|].
      split; intros; reflexivity.
  - exists (py "unavailable]"). split; [reflexivity|].
    split; intros; [reflexivity|discriminate].
Qed.

End StateFacts.

Section SortFacts.
Context {A : Type} (key : A -> Z).
Import FactorioTools.

Lemma insert_desc_perm (a : A) (l : list A) :
  Permutation (a :: l) (insert_desc key a l).
Proof.
  induction l as [|b l IH]; cbn [insert_desc]; [reflexivity|].
  destruct (key a <? key b)%Z; [|reflexivity].
  rewrite perm_swap. now apply perm_skip.
Qed.

Lemma sort_desc_perm (l : list A) : Permutation l (sort_desc key l).
Proof.
  induction l as [|a l IH]; cbn; [constructor|].
  rewrite <- insert_desc_perm. now apply perm_skip.
Qed.

Lemma insert_desc_hd (a c : A) (l : list A) :
  descending key c a -> HdRel (descending key) c l ->
  HdRel (descending key) c (insert_desc key a l).
Proof.
  intros Hca Hl. destruct l as [|b l]; cbn [insert_desc].
  - now constructor.
  - destruct (key a <? key b)%Z; constructor; [|exact Hca].
    now inversion Hl.
Qed.

Lemma insert_desc_sorted (a : A) (l : list A) :
  Sorted (descending key) l ->
  Sorted (descending key) (insert_desc key a l).
Proof.
  induction l as [|b l IH]; intros Hs; cbn [insert_desc].
  - repeat constructor.
  - inversion Hs as [|b' l' Hl Hb]; subst.
    destruct (Z.ltb_spec (key a) (key b)) as [Hlt|Hge].
    + constructor; [now apply IH|].
      apply insert_desc_hd; [unfold descending; lia|exact Hb].
    + constructor; [exact Hs|]. constructor. exact Hge.
Qed.

Lemma sort_desc_sorted (l : list A) : Sorted (descending key) (sort_desc key l).
Proof.
  induction l as [|a l IH]; cbn; [constructor|].
  now apply insert_desc_sorted.
Qed.

End SortFacts.

Section ResourceFacts.
Import re Patterns FactorioTools.
Context {F : Floats}.

(** X18. When the decoder of resource totals returns, its result
    holds the entries decoded from the blocks of the reply, each
    once, arranged so that no entry has a smaller total than one that
    follows it. *)
Theorem resource_totals_are_sorted (serpent_output : str)
        (resources : list value) :
  _parse_resource_totals serpent_output = Ok resources ->
  Sorted (descending total_amount_of) resources
  /\ exists found,
      for_blocks resource_of_block (findall block_re serpent_output) []
      = Ok found
      /\ Permutation found resources.
Proof.
  unfold _parse_resource_totals. cbn zeta.
  destruct (for_blocks resource_of_block _ []) as [found|e]; cbn [bind];
    [|discriminate].
  intros E. injection E as <-. split.
  - apply sort_desc_sorted.
  - exists found. split; [reflexivity|apply sort_desc_perm].
Qed.

End ResourceFacts.

Section ResourceExamples.
Import FactorioTools.

Lemma resource_totals_are_sorted_witness :
  exists resources,
    @_parse_resource_totals decimal_floats
      (q "{{name = 'coal', total_amount = 50}, {name = 'iron-ore', total_amount = 900, tile_count = 12}, {name = 'stone'}}")
    = Ok resources
    /\ map total_amount_of resources = [900; 50]%Z
    /\ Sorted (descending total_amount_of) resources.
Proof.
  eexists. split; [reflexivity|]. split; [reflexivity|].
  refine (proj1 (@resource_totals_are_sorted decimal_floats
                   (q "{{name = 'coal', total_amount = 50}, {name = 'iron-ore', total_amount = 900, tile_count = 12}, {name = 'stone'}}")
                   _ _)).
  reflexivity.
Defined.

End ResourceExamples.

(** ** The position of the player *)

Section PositionFacts.
Import re Patterns RCONWrapper FactorioTools.
Context {F : Floats} {C : Channel}.

Lemma last_in_line_none {G} (m : matcher G) (t : str) :
  (forall a b, t = a ++ b -> m b = None) -> last_in_line m t = None.
Proof.
  induction t as [|c t IH]; intros Hm; cbn [last_in_line].
  - now apply (Hm [] []).
  - assert (Hc : m (c :: t) = None) by now apply (Hm [] (c :: t)).
    destruct (chr_eqb c nl); [exact Hc|].
    rewrite IH; [exact Hc|].
    intros a b ->. now apply (Hm (c :: a) b).
Qed.

Lemma last_in_line_found {G} (m : matcher G) (pre s : str) (found : G * str) :
  headless nl pre = true ->
  last_in_line m s = Some found -> last_in_line m (pre ++ s) = Some found.
Proof.
  intros Hpre Hs. induction pre as [|c pre IH]; [exact Hs|].
  cbn [headless forallb] in Hpre. apply andb_true_iff in Hpre.
  destruct Hpre as [Hc Hpre]. apply negb_true_iff in Hc.
  cbn [app last_in_line]. rewrite Hc. now rewrite (IH Hpre).
Qed.

Lemma number_re_headless (k : ascii) (key t : str) :
  headless k t = true ->
  forall a b, t = a ++ b -> number_field_re (k :: key) b = None.
Proof.
  intros Hh a b ->. destruct b as [|c b]; [reflexivity|].
  apply number_re_head. exact (headless_suffix _ _ _ _ Hh).
Qed.

Lemma position_re_head (c : ascii) (s : str) :
  chr_eqb c "x" = false -> position_re (c :: s) = None.
Proof.
  intros E. unfold position_re.
  change (py "x") with ["x"%char].
  now rewrite (@number_re_head "x"%char [] c s E).
Qed.

Lemma headless_silent_position (pre : str) :
  headless "x" pre = true -> silent position_re pre.
Proof.
  intros Hh a b s -> Hne. destruct b as [|c b]; [contradiction|].
  apply position_re_head. exact (headless_suffix _ _ _ _ Hh).
Qed.

Lemma search_none {G} (m : matcher G) (t : str) :
  silent m t -> m [] = None -> search m t = None.
Proof.
  intros Ht Hm. rewrite <- (app_nil_r t), (@search_silent _ m t [] Ht).
  cbn. now rewrite Hm.
Qed.

Lemma field_tail_headless (k : ascii) (w1 w2 v : str) :
  is_space k = false -> is_num_char k = false -> chr_eqb "=" k = false ->
  all_space w1 = true -> all_space w2 = true -> all_num v = true ->
  headless k (w1 ++ py "=" ++ w2 ++ v) = true.
Proof.
  intros Hs Hn He H1 H2 Hv.
  assert (Heq : headless k (py "=") = true).
  { unfold headless. cbn [py list_ascii_of_string forallb].
    now rewrite He. }
  rewrite !headless_app, Heq.
  rewrite (headless_class is_space k w1 Hs H1).
  rewrite (headless_class is_space k w2 Hs H2).
  now rewrite (headless_class is_num_char k v Hn Hv).
Qed.

Lemma position_re_found (w1 w2 w3 w4 xs ys mid post : str) (c d : ascii) :
  all_spaces [w1; w2; w3; w4] = true ->
  number_ok xs = true -> number_ok ys = true ->
  is_num_char c = false -> headless nl (c :: mid) = true ->
  is_num_char d = false -> headless "y" (d :: post) = true ->
  position_re (x_field w1 w2 xs ++ (c :: mid)
                 ++ y_field w3 w4 ys ++ d :: post)
  = Some ((xs, ys), d :: post).
Proof.
  intros Hw Hx Hy Hc Hmid Hd Hpost.
  cbn [all_spaces forallb] in Hw.
  apply andb_true_iff in Hw. destruct Hw as [H1 Hw].
  apply andb_true_iff in Hw. destruct Hw as [H2 Hw].
  apply andb_true_iff in Hw. destruct Hw as [H3 Hw].
  apply andb_true_iff in Hw. destruct Hw as [H4 _].
  apply andb_true_iff in Hx. destruct Hx as [Hxn Hx].
  apply andb_true_iff in Hy. destruct Hy as [Hyn Hy].
  unfold position_re, x_field.
  change ((c :: mid) ++ y_field w3 w4 ys ++ d :: post)
    with (c :: mid ++ y_field w3 w4 ys ++ d :: post).
  rewrite (@number_hit (py "x") w1 w2 xs c _ H1 H2 (nonempty_ne Hxn) Hx Hc).
  change (c :: mid ++ y_field w3 w4 ys ++ d :: post)
    with ((c :: mid) ++ y_field w3 w4 ys ++ d :: post).
  rewrite (@last_in_line_found _ (number_field_re (py "y")) (c :: mid)
             (y_field w3 w4 ys ++ d :: post) (ys, d :: post) Hmid);
    [reflexivity|].
  pose proof (@number_hit (py "y") w3 w4 ys d post H3 H4
                (nonempty_ne Hyn) Hy Hd) as Hhit.
  unfold y_field. unfold number_field in *.
  change (py "y" ++ w3 ++ py "=" ++ w4 ++ ys)
    with ("y"%char :: w3 ++ py "=" ++ w4 ++ ys) in *.
  rewrite <- app_comm_cons in *. cbn [last_in_line].
  change (chr_eqb "y" nl) with false. cbv iota.
  rewrite last_in_line_none; [exact Hhit|].
  apply (@number_re_headless "y"%char []).
  rewrite headless_app, Hpost, andb_true_r.
  now apply field_tail_headless.
Qed.

(** X19. A reply that holds an x field and, later on the same line,
    a y field gives the position with these two numbers: the text
    before the x field holds no [x], the numbers end at a character
    that is not part of a number, and no [y] follows the y field. *)
Theorem player_position_is_decoded
        (s s' : state) (pre w1 w2 w3 w4 xs ys mid post : str) (c d : ascii) :
  query_lua_table (py "game.connected_players[1].position") s
  = (Ok (Some (pre ++ x_field w1 w2 xs ++ (c :: mid)
                 ++ y_field w3 w4 ys ++ d :: post)), s') ->
  headless "x" pre = true ->
  all_spaces [w1; w2; w3; w4] = true ->
  number_ok xs = true -> number_ok ys = true ->
  is_num_char c = false -> headless nl (c :: mid) = true ->
  is_num_char d = false -> headless "y" (d :: post) = true ->
  get_player_position s
  = (fx <- py_float xs ;;
     fy <- py_float ys ;;
     Ok (mk_Position (VFloat fx) (VFloat fy)), s').
Proof.
  intros Hq Hpre Hw Hx Hy Hc Hmid Hd Hpost.
  unfold get_player_position, mbind. rewrite Hq.
  rewrite (@search_silent _ position_re pre _
             (@headless_silent_position pre Hpre)).
  rewrite (@search_here _ position_re _ _ _
             (@position_re_found w1 w2 w3 w4 xs ys mid post c d
                Hw Hx Hy Hc Hmid Hd Hpost)).
  reflexivity.
Qed.

(** X20. The two fields are looked for in this order only.  A reply
    whose x field is followed by no [y], as when the y field comes
    first, gives the position (0, 0) and no error. *)
Theorem player_position_needs_x_before_y
        (s s' : state) (pre w1 w2 xs post : str) (d : ascii) :
  query_lua_table (py "game.connected_players[1].position") s
  = (Ok (Some (pre ++ x_field w1 w2 xs ++ d :: post)), s') ->
  headless "x" pre = true ->
  all_spaces [w1; w2] = true -> number_ok xs = true ->
  is_num_char d = false ->
  headless "x" (d :: post) = true -> headless "y" (d :: post) = true ->
  get_player_position s = (Ok (mk_Position (VInt 0) (VInt 0)), s').
Proof.
  intros Hq Hpre Hw Hx Hd Hpx Hpy.
  cbn [all_spaces forallb] in Hw.
  apply andb_true_iff in Hw. destruct Hw as [H1 Hw].
  apply andb_true_iff in Hw. destruct Hw as [H2 _].
  apply andb_true_iff in Hx. destruct Hx as [Hxn Hx].
  unfold get_player_position, mbind. rewrite Hq.
  rewrite (@search_silent _ position_re pre _
             (@headless_silent_position pre Hpre)).
  assert (Hhere : position_re (x_field w1 w2 xs ++ d :: post) = None).
  { unfold position_re, x_field.
    rewrite (@number_hit (py "x") w1 w2 xs d post H1 H2
               (nonempty_ne Hxn) Hx Hd).
    rewrite last_in_line_none; [reflexivity|].
    now apply (@number_re_headless "y"%char []). }
  unfold x_field, number_field in *.
  change (py "x" ++ w1 ++ py "=" ++ w2 ++ xs)
    with ("x"%char :: w1 ++ py "=" ++ w2 ++ xs) in *.
  rewrite <- app_comm_cons in *.
  rewrite (@search_cons_None _ position_re _ _ Hhere).
  rewrite search_none; [reflexivity| |reflexivity].
  apply headless_silent_position.
  rewrite headless_app, Hpx, andb_true_r.
  now apply field_tail_headless.
Qed.

End PositionFacts.

Section PositionExamples.
Import RCONWrapper FactorioTools.

Lemma player_position_is_decoded_witness :
  fst (@get_player_position decimal_floats Scripted.channel
         (Scripted.connected_to [Ok (Some (py "{x = 12.5, y = -3}"))]))
  = Ok (@mk_Position decimal_floats (VFloat (125%Z, 1)) (VFloat ((-3)%Z, 0))).
Proof.
  refine (f_equal fst
            (@player_position_is_decoded decimal_floats Scripted.channel
               (Scripted.connected_to [Ok (Some (py "{x = 12.5, y = -3}"))])
               _ (py "{") (py " ") (py " ") (py " ") (py " ")
               (py "12.5") (py "-3") (py " ") [] ","%char "}"%char
               _ _ _ _ _ _ _ _ _));
    reflexivity.
Defined.

Lemma player_position_needs_x_before_y_witness :
  fst (@get_player_position decimal_floats Scripted.channel
         (Scripted.connected_to [Ok (Some (py "{y = -3, x = 12.5}"))]))
  = Ok (@mk_Position decimal_floats (VInt 0) (VInt 0)).
Proof.
  refine (f_equal fst
            (@player_position_needs_x_before_y decimal_floats Scripted.channel
               (Scripted.connected_to [Ok (Some (py "{y = -3, x = 12.5}"))])
               _ (py "{y = -3, ") (py " ") (py " ")
               (py "12.5") [] "}"%char _ _ _ _ _ _ _));
    reflexivity.
Defined.

End PositionExamples.

(** ** Whole replies *)

Section TableFacts.
Import re Patterns FactorioTools.

Lemma join_cons (sep a : str) (l : list str) :
  FactorioAgent.join sep (a :: l) = a ++ concat (map (app sep) l).
Proof.
  revert a. induction l as [|b l IH]; intros a.
  - cbn. now rewrite app_nil_r.
  - change (FactorioAgent.join sep (a :: b :: l))
      with (a ++ sep ++ FactorioAgent.join sep (b :: l)).
    rewrite IH. cbn [map concat]. now rewrite <- app_assoc.
Qed.

Lemma findall_from_skip {G} (m : matcher G) (fuel : nat) (c : ascii)
      (t : str) :
  m (c :: t) = None ->
  findall_from m (S fuel) (c :: t) = findall_from m fuel t.
Proof. intros E. cbn [findall_from]. now rewrite E. Qed.

Lemma findall_from_hit {G} (m : matcher G) (fuel : nat) (s : str) (g : G)
      (r : str) :
  m s = Some (g, r) ->
  findall_from m (S fuel) s = g :: findall_from m fuel r.
Proof. intros E. cbn [findall_from]. now rewrite E. Qed.

Lemma inventory_re_head (c : ascii) (s : str) :
  chr_eqb "{" c = false -> inventory_re (c :: s) = None.
Proof.
  intros E. unfold inventory_re.
  change (py "{count") with ("{"%char :: py "count").
  cbn [lit]. now rewrite E.
Qed.

Lemma inventory_re_hit_app (w1 w2 w3 w4 w5 digits n rest : str) :
  all_space w1 = true -> all_space w2 = true -> all_space w3 = true ->
  all_space w4 = true -> all_space w5 = true ->
  digits <> [] -> all_digit digits = true ->
  n <> [] -> forallb (fun c => negb (is_quote c)) n = true ->
  inventory_re (inventory_record w1 w2 w3 w4 w5 digits n ++ rest)
  = Some ((digits, n), rest).
Proof.
  intros H1 H2 H3 H4 H5 Hd Had Hn Hqn.
  destruct digits as [|d digits]; [contradiction|].
  assert (Hds : is_space d = false).
  { apply digit_not_space. simpl in Had. apply andb_true_iff in Had.
    apply Had. }
  unfold inventory_re, inventory_record. rewrite <- !app_assoc.
  cbn [py list_ascii_of_string app lit chr_eqb Ascii.eqb Bool.eqb andb].
  rewrite (drop_space_stop w1 "="%char _ H1 eq_refl).
  cbn [chr_eqb Ascii.eqb Bool.eqb andb].
  rewrite (drop_space_stop w2 d _ H2 Hds).
  match goal with
  | |- context [take_while is_digit (d :: digits ++ ","%char :: ?r)] =>
      change (d :: digits ++ ","%char :: r)
        with ((d :: digits) ++ ","%char :: r);
      destruct (take_while_stop is_digit (d :: digits) ","%char r
                  Had eq_refl) as [-> ->]
  end.
  cbn [lit chr_eqb Ascii.eqb Bool.eqb andb].
  rewrite (drop_space_stop w3 "n"%char _ H3 eq_refl).
  cbn [lit chr_eqb Ascii.eqb Bool.eqb andb].
  rewrite (drop_space_stop w4 "="%char _ H4 eq_refl).
  cbn [lit chr_eqb Ascii.eqb Bool.eqb andb].
  rewrite (drop_space_stop w5 dq _ H5 eq_refl).
  change (chr_eqb dq dq) with true. cbv iota.
  destruct (take_while_stop (fun c => negb (is_quote c)) n dq
              ("}"%char :: rest) Hqn eq_refl) as [-> ->].
  destruct n as [|c n]; [contradiction|]. reflexivity.
Qed.

Lemma inventory_entry_hit (item : str * str) (rest : str) :
  item_ok item = true ->
  inventory_re (inventory_entry item ++ rest) = Some (item, rest).
Proof.
  intros Hi. unfold item_ok, digits_ok, quotable in Hi.
  apply andb_true_iff in Hi. destruct Hi as [Hd Hq].
  apply andb_true_iff in Hd. destruct Hd as [Hdn Hd].
  apply andb_true_iff in Hq. destruct Hq as [Hqn Hq].
  destruct item as [digits n]. unfold inventory_entry. cbn [fst snd] in *.
  apply inventory_re_hit_app;
    solve [reflexivity|assumption|now apply nonempty_ne].
Qed.

Lemma inventory_entry_length (item : str * str) :
  3 <= length (inventory_entry item).
Proof.
  unfold inventory_entry, inventory_record. rewrite length_app.
  cbn [py list_ascii_of_string length]. lia.
Qed.

Lemma inventory_entry_open (item : str * str) :
  exists t, inventory_entry item = "{"%char :: "c"%char :: t.
Proof. eexists. reflexivity. Qed.

(** The records after the first, each behind its separator, and the
    brace that closes the table. *)
Lemma findall_inventory_tail (items : list (str * str)) :
  forallb item_ok items = true ->
  forall fuel,
    length (concat (map (app (py ", ")) (map inventory_entry items))
              ++ py "}") < fuel ->
    findall_from inventory_re fuel
      (concat (map (app (py ", ")) (map inventory_entry items)) ++ py "}")
    = items.
Proof.
  induction items as [|item items IH]; intros Hok fuel Hfuel.
  - destruct fuel as [|[|fuel]]; reflexivity.
  - cbn [forallb] in Hok. apply andb_true_iff in Hok.
    destruct Hok as [Hi Hok].
    cbn [map concat] in *. rewrite <- !app_assoc in *.
    pose proof (inventory_entry_length item) as Hlen.
    cbn [py list_ascii_of_string app] in *.
    cbn [length] in Hfuel. rewrite length_app in Hfuel.
    destruct fuel as [|[|[|fuel]]]; try lia.
    rewrite findall_from_skip by now apply inventory_re_head.
    rewrite findall_from_skip by now apply inventory_re_head.
    rewrite (@findall_from_hit _ inventory_re _ _ _ _
               (@inventory_entry_hit item _ Hi)).
    f_equal. apply IH; [exact Hok|].
    cbn [py list_ascii_of_string]. lia.
Qed.

(** X21. An inventory of any number of records, printed on one line
    with [count] before [name], is read back record by record, in
    order: the names as they stand between their quotes and the
    counts as the numbers their digits spell. *)
Theorem inventory_table_is_read_back (items : list (str * str)) :
  forallb item_ok items = true ->
  _parse_inventory (inventory_table items)
  = map (fun item => mk_InventoryItem (snd item) (int_of_digits (fst item)))
      items.
Proof.
  intros Hok. unfold _parse_inventory.
  assert (E : findall inventory_re (inventory_table items) = items).
  { unfold inventory_table, serpent_list.
    destruct items as [|item items]; [reflexivity|].
    cbn [forallb] in Hok. apply andb_true_iff in Hok.
    destruct Hok as [Hi Hok].
    cbn [map]. rewrite join_cons, <- app_assoc.
    unfold findall.
    destruct (inventory_entry_open item) as [t Et].
    pose proof (inventory_entry_length item) as Hlen.
    cbn [py list_ascii_of_string app length].
    rewrite findall_from_skip
      by (rewrite Et; unfold inventory_re; reflexivity).
    rewrite !length_app.
    destruct (length (inventory_entry item)) as [|k] eqn:Ek; [lia|].
    cbn [Nat.add].
    rewrite (@findall_from_hit _ inventory_re _ _ _ _
               (@inventory_entry_hit item _ Hi)).
    f_equal. apply findall_inventory_tail; [exact Hok|].
    cbn [py list_ascii_of_string app]. rewrite length_app. lia. }
  rewrite E. apply map_ext. now intros [digits n].
Qed.

End TableFacts.

Section EntityTableFacts.
Import re Patterns FactorioTools.
Context {F : Floats}.

Lemma entity_entry_step (pre post : str) (opens : nat) (e : entity_text) :
  closed pre = true -> entity_text_ok e = true ->
  for_blocks entity_of_block
    (findall block_re (pre ++ (repeat "{"%char opens ++ entity_entry e)
                         ++ post)) []
  = (before <- for_blocks entity_of_block (findall block_re pre) [] ;;
     fx <- py_float (text_x e) ;;
     fy <- py_float (text_y e) ;;
     after <- for_blocks entity_of_block (findall block_re post) [] ;;
     Ok (before ++ mk_EntityInfo (text_name e) fx fy :: after)).
Proof.
  intros Hpre He. unfold entity_text_ok, name_ok, number_ok in He.
  apply andb_true_iff in He. destruct He as [He Hy].
  apply andb_true_iff in He. destruct He as [Hn Hx].
  apply andb_true_iff in Hn. destruct Hn as [Hnn Hn].
  apply andb_true_iff in Hx. destruct Hx as [Hxn Hx].
  apply andb_true_iff in Hy. destruct Hy as [Hyn Hy].
  apply nonempty_ne in Hnn, Hxn, Hyn.
  destruct (@entity_record_decodes F O123 sp sp sp sp sp sp sp sp
              (text_name e) (text_x e) (text_y e))
    as [_ Ee]; try assumption; try reflexivity.
  destruct (@arrange_is_block O123 sp sp (name_field sp sp (text_name e))
              (x_field sp sp (text_x e)) (y_field sp sp (text_y e)))
    as [inner [Ei [Hne Hin]]]; try reflexivity.
  { apply quoted_field_not_rbrace; solve [reflexivity|assumption]. }
  { apply number_field_not_rbrace; solve [reflexivity|assumption]. }
  { apply number_field_not_rbrace; solve [reflexivity|assumption]. }
  change (arrange O123 sp sp (name_field sp sp (text_name e))
            (x_field sp sp (text_x e)) (y_field sp sp (text_y e)))
    with (entity_entry e) in Ee, Ei.
  assert (Hne' : repeat "{"%char opens ++ inner <> []).
  { intros E. apply app_eq_nil in E. now destruct E. }
  pose proof (opens_not_rbrace opens inner Hin) as Hin'.
  assert (Eb : repeat "{"%char opens ++ entity_entry e
               = py "{" ++ (repeat "{"%char opens ++ inner) ++ py "}")
    by (rewrite Ei; apply opens_block).
  rewrite Eb.
  rewrite (for_blocks_split pre post entity_of_block_appending
             Hpre Hne' Hin').
  rewrite <- Eb, entity_of_block_opens, Ee.
  destruct (for_blocks entity_of_block (findall block_re pre) []);
    [|reflexivity].
  cbn [bind]. destruct (py_float (text_x e)); [|reflexivity].
  cbn [bind]. destruct (py_float (text_y e)); [|reflexivity].
  cbn [bind].
  destruct (for_blocks entity_of_block (findall block_re post) []);
    reflexivity.
Qed.

Lemma entity_table_tail (records : list entity_text) :
  forallb entity_text_ok records = true ->
  for_blocks entity_of_block
    (findall block_re
       (concat (map (app (py ", ")) (map entity_entry records)) ++ py "}"))
    []
  = entities_of records.
Proof.
  induction records as [|e records IH]; intros Hok; [reflexivity|].
  cbn [forallb] in Hok. apply andb_true_iff in Hok.
  destruct Hok as [He Hok].
  cbn [map concat entities_of]. rewrite <- !app_assoc.
  change (entity_entry e ++ ?rest)
    with ((repeat "{"%char 0 ++ entity_entry e) ++ rest).
  rewrite (@entity_entry_step (py ", ") _ 0 e eq_refl He).
  rewrite (IH Hok).
  change (for_blocks entity_of_block (findall block_re (py ", ")) [])
    with (@Ok (list EntityInfo) []).
  reflexivity.
Qed.

(** X22. A list of entities of any length, printed on one line with
    the fields [name], [x] and [y] of each record, is read back
    record by record, in order; the first coordinate that [float]
    refuses makes the decoder raise. *)
Theorem entity_table_is_read_back (records : list entity_text) :
  forallb entity_text_ok records = true ->
  _parse_entity_list (entity_table records) = entities_of records.
Proof.
  intros Hok. unfold _parse_entity_list, entity_table, serpent_list.
  destruct records as [|e records]; [reflexivity|].
  cbn [forallb] in Hok. apply andb_true_iff in Hok.
  destruct Hok as [He Hok].
  cbn [map entities_of]. rewrite join_cons, <- app_assoc.
  change (py "{" ++ entity_entry e ++ ?rest)
    with ([] ++ (repeat "{"%char 1 ++ entity_entry e) ++ rest).
  rewrite (@entity_entry_step [] _ 1 e eq_refl He).
  rewrite (entity_table_tail _ Hok).
  reflexivity.
Qed.

End EntityTableFacts.

Section TableExamples.
Import FactorioTools.

Lemma inventory_table_is_read_back_witness :
  _parse_inventory
    (q "{{count = 5, name = 'iron-plate'}, {count = 12, name = 'coal'}}")
  = [mk_InventoryItem (py "iron-plate") 5; mk_InventoryItem (py "coal") 12].
Proof.
  exact (@inventory_table_is_read_back
           [(py "5", py "iron-plate"); (py "12", py "coal")] eq_refl).
Defined.

Lemma entity_table_is_read_back_witness :
  @_parse_entity_list decimal_floats
    (q "{{name = 'stone-furnace', x = 1.5, y = -3}, {name = 'inserter', x = 2, y = 0.5}}")
  = Ok [@mk_EntityInfo decimal_floats (py "stone-furnace") (15%Z, 1)
          ((-3)%Z, 0);
        @mk_EntityInfo decimal_floats (py "inserter") (2%Z, 0) (5%Z, 1)].
Proof.
  exact (@entity_table_is_read_back decimal_floats
           [mk_entity_text (py "stone-furnace") (py "1.5") (py "-3");
            mk_entity_text (py "inserter") (py "2") (py "0.5")] eq_refl).
Defined.

End TableExamples.

(** ** Without a connection *)

Section DisconnectedFacts.
Import RCONWrapper FactorioTools.
Context {F : Floats} {C : Channel}.

Lemma execute_lua_not_connected (lua_code : str) (s : state) :
  connected (fst s) = false -> execute_lua lua_code s = not_connected s.
Proof.
  destruct s as [self r]. unfold connected. cbn [fst].
  destruct (_client self) eqn:Ec; [discriminate|]. intros _.
  unfold execute_lua, mbind, send_command, not_connected.
  now rewrite Ec.
Qed.

(** X23. While the wrapper has no client, as after a lost
    connection, every query and every tool built on one fails with
    [ConnectionError: Not connected to server]; nothing is sent and
    no attempt is made to connect again. *)
Theorem tools_fail_while_disconnected
        (s : state) (lua entity_type item_name count name pos_x pos_y : str)
        (limit : Z) :
  connected (fst s) = false ->
  execute_lua lua s = not_connected s
  /\ query_lua lua s = not_connected s
  /\ query_lua_table lua s = not_connected s
  /\ get_tick s = not_connected s
  /\ count_entities entity_type s = not_connected s
  /\ list_entities entity_type limit s = not_connected s
  /\ get_player_position s = not_connected s
  /\ craft_item item_name count s = not_connected s
  /\ place_entity name pos_x pos_y s = not_connected s.
Proof.
  intros Hs.
  pose proof (fun lua_code => @execute_lua_not_connected lua_code s Hs) as He.
  repeat split;
    unfold get_tick, count_entities, list_entities, get_player_position,
      craft_item, place_entity, query_lua, query_lua_table, mbind;
    rewrite ?He; reflexivity.
Qed.

End DisconnectedFacts.

Section DisconnectedExamples.
Import RCONWrapper FactorioTools.

Lemma tools_fail_while_disconnected_witness :
  let s := (mk (py "localhost") 27015 (py "test123") None,
            Scripted.mk_remote [Ok (Some (py "42"))] [] 0) in
  @get_tick Scripted.channel s = not_connected s.
Proof.
  intros s.
  exact (proj1 (proj2 (proj2 (proj2
           (@tools_fail_while_disconnected decimal_floats Scripted.channel s
              [] [] [] [] [] [] [] 0%Z eq_refl))))).
Defined.

End DisconnectedExamples.
